(** * function_generator.py: enumeration, filtering, naming and capability
      derivation of the generated functional interfaces

    The script walks every argument tuple of length 0..4 over the type
    catalog, filters the candidates, derives an interface name, drops the
    names that java.util.function already defines, and writes one Java file
    per surviving signature.  This development embeds the script as Rocq
    functions and proves properties of the signatures it emits. *)

From Stdlib Require Import Ascii DecimalString.
From stdpp Require Import gmap strings list sorting.

Open Scope string_scope.
Open Scope list_scope.
Open Scope nat_scope.

(** ** Python values and exceptions *)

(** Exceptions the script can raise. *)
Inductive exn : Type :=
  | AssertionError
  | KeyError (k : string)
  | IndexError
  | TypeError
  | AttributeError
  | ValueError
  | StopIteration
  | NotADirectoryError
  | FileExistsError
  | IsADirectoryError.

(** A computation that returns a value or raises. *)
Inductive result (A : Type) : Type :=
  | Ok (a : A)
  | Raise (e : exn).
Arguments Ok {A} a.
Arguments Raise {A} e.

#[global] Instance result_ret : MRet result := fun _ a => Ok a.
#[global] Instance result_bind : MBind result := fun _ _ f m =>
  match m with Ok a => f a | Raise e => Raise e end.
#[global] Instance result_fmap : FMap result := fun _ _ f m =>
  match m with Ok a => Ok (f a) | Raise e => Raise e end.

(** [assert c] *)
Definition assert (c : bool) : result unit :=
  if c then Ok tt else Raise AssertionError.

(** A loop that threads a state and stops at the first exception. *)
Fixpoint foldM {A S : Type} (f : S -> A -> result S) (s : S) (l : list A) : result S :=
  match l with
  | [] => Ok s
  | x :: l' => s' ← f s x; foldM f s' l'
  end.

(** A comprehension whose element expression can raise. *)
Fixpoint mapM' {A B : Type} (f : A -> result B) (l : list A) : result (list B) :=
  match l with
  | [] => Ok []
  | x :: l' => y ← f x; ys ← mapM' f l'; Ok (y :: ys)
  end.

(** A Python value that is a [str] or [None]. *)
Definition pyval : Type := option string.

(** An f-string field: [None] prints as the word None. *)
Definition fmt (v : pyval) : string := default "None" v.

(** [t[i]] on a tuple. *)
Definition getitem {A : Type} (t : list A) (i : nat) : result A :=
  match t !! i with Some x => Ok x | None => Raise IndexError end.

(** [d[k]] on a dict kept as an association list in insertion order. *)
Fixpoint dict_get {V : Type} (d : list (string * V)) (k : string) : result V :=
  match d with
  | [] => Raise (KeyError k)
  | (k', v) :: d' => if String.eqb k' k then Ok v else dict_get d' k
  end.

(** [d[k] = v]: replaces the value of an existing key in place, appends a new key. *)
Fixpoint dict_set {V : Type} (d : list (string * V)) (k : string) (v : V) : list (string * V) :=
  match d with
  | [] => [(k, v)]
  | (k', v') :: d' => if String.eqb k' k then (k', v) :: d' else (k', v') :: dict_set d' k v
  end.

(** [sep.join(l)]; joining a [None] raises. *)
Fixpoint str_join (sep : string) (l : list pyval) : result string :=
  match l with
  | [] => Ok ""
  | [Some s] => Ok s
  | Some s :: l' => r ← str_join sep l'; Ok (s +:+ sep +:+ r)
  | None :: _ => Raise TypeError
  end.

(** [s.endswith(suf)] *)
Definition endswith (s suf : string) : bool :=
  (String.length suf <=? String.length s) &&
  String.eqb (String.substring (String.length s - String.length suf) (String.length suf) s) suf.

(** [s[:-n]] *)
Definition drop_last (n : nat) (s : string) : string :=
  String.substring 0 (String.length s - n) s.

(** [set(l)] *)
Definition pyset (l : list string) : gset string := list_to_set l.

(** [sum(1 for a in l if p(a))] *)
Definition count_if {A : Type} (p : A -> bool) (l : list A) : nat :=
  length (List.filter p l).

(** [str(n)] *)
Definition str_of_nat (n : nat) : string := NilEmpty.string_of_uint (Nat.to_uint n).

(** [itertools.product(l, repeat=n)]: the last position varies fastest. *)
Fixpoint product {A : Type} (l : list A) (n : nat) : list (list A) :=
  match n with
  | 0 => [[]]
  | S n' => flat_map (fun x => map (cons x) (product l n')) l
  end.

(** ** The tables of the script *)

Definition type_names : list (string * pyval) :=
  [ ("void", None);
    ("object", Some "");
    ("boolean", Some "Boolean");
    ("byte", Some "Byte");
    ("char", Some "Char");
    ("double", Some "Double");
    ("float", Some "Float");
    ("int", Some "Int");
    ("long", Some "Long");
    ("short", Some "Short");
    ("object[]", Some "ArraySegment");
    ("boolean[]", Some "BooleanArraySegment");
    ("byte[]", Some "ByteArraySegment");
    ("char[]", Some "CharArraySegment");
    ("double[]", Some "DoubleArraySegment");
    ("float[]", Some "FloatArraySegment");
    ("int[]", Some "IntArraySegment");
    ("long[]", Some "LongArraySegment");
    ("short[]", Some "ShortArraySegment") ].

(** [types = tuple(type_names.keys())] *)
Definition types : list string := map fst type_names.

Definition fn_ordinals : list pyval := [None; Some ""; Some "Bi"; Some "Tri"; Some "Tetra"].
Definition op_ordinals : list pyval :=
  [None; Some "Unary"; Some "Binary"; Some "Ternary"; Some "Quaternary"].
Definition pos_ordinals : list pyval :=
  [None; Some "first"; Some "second"; Some "third"; Some "fourth"].
Definition cnt_ordinals : list pyval := [None; None; Some "two"; Some "three"; Some "four"].
Definition in_params : list pyval := [None; Some "T"; Some "U"; Some "V"; Some "W"].
Definition out_params : list pyval := [None; Some "R"; Some "S"; Some "Q"; Some "P"].
Definition elem_params : list pyval := [None; Some "E"; Some "F"; Some "G"; Some "H"].

Definition built_ins : list string :=
  [ "Runnable"; "BiConsumer"; "BiFunction"; "BinaryOperator"; "BiPredicate";
    "BooleanSupplier"; "Consumer"; "DoubleBinaryOperator"; "DoubleConsumer";
    "DoubleFunction"; "DoublePredicate"; "DoubleSupplier"; "DoubleToIntFunction";
    "DoubleToLongFunction"; "DoubleUnaryOperator"; "Function"; "IntBinaryOperator";
    "IntConsumer"; "IntFunction"; "IntPredicate"; "IntSupplier"; "IntToDoubleFunction";
    "IntToLongFunction"; "IntUnaryOperator"; "LongBinaryOperator"; "LongConsumer";
    "LongFunction"; "LongPredicate"; "LongSupplier"; "LongToDoubleFunction";
    "LongToIntFunction"; "LongUnaryOperator"; "ObjDoubleConsumer"; "ObjIntConsumer";
    "ObjLongConsumer"; "Predicate"; "Supplier"; "ToDoubleBiFunction"; "ToDoubleFunction";
    "ToIntBiFunction"; "ToIntFunction"; "ToLongBiFunction"; "ToLongFunction";
    "UnaryOperator" ].

(** ** The filters *)

(** [a.endswith("[]")] *)
Definition is_array (a : string) : bool := endswith a "[]".

(** [True in (a.endswith("[]") for a in argv)] *)
Definition any_array (argv : list string) : bool := existsb is_array argv.

(** [argv[0]]; the script reads it only where [argv] is not empty. *)
Definition item0 (argv : list string) : string := default "" (head argv).

(** The first input filter: mixed argument types, unless an object is
    followed by one other type. *)
Definition mixed_skip (argc : nat) (argv : list string) : bool :=
  let args := pyset argv in
  (1 <? argc) && (1 <? size args)
  && (negb (String.eqb (item0 argv) "object") || (1 <? size (pyset (tail argv)))).

(** The second input filter: more than two arguments, unless all objects. *)
Definition arity_skip (argc : nat) (argv : list string) : bool :=
  let args := pyset argv in
  (2 <? argc) && negb (bool_decide (args = {["object"]})).

(** The third input filter: more than one array segment argument. *)
Definition arrays_skip (argv : list string) : bool :=
  1 <? count_if is_array argv.

(** The three input filters at the head of the [argv] loop, in order;
    [true] means [continue]. *)
Definition argv_skip (argc : nat) (argv : list string) : bool :=
  if mixed_skip argc argv then true
  else if arity_skip argc argv then true
  else if arrays_skip argv then true
  else false.

(** The output filters at the head of the [ret] loop; [true] means [continue]. *)
Definition ret_skip (argc : nat) (argv : list string) (ret : string) : bool :=
  let args := pyset argv in
  if is_array ret then true
  else if any_array argv then
    negb (bool_decide (ret ∈ ["object"; "boolean"; "void"; "int"; "long"; "double"]))
    && negb (bool_decide (ret +:+ "[]" ∈ argv))
  else
    if (1 <? argc)
       && negb (bool_decide (ret ∈ ["object"; "boolean"; "void"]))
       && negb (bool_decide (ret ∈ argv))
       && ((2 <? argc) || negb (bool_decide (args = {["object"]})))
    then true
    else (2 <? argc) && negb (bool_decide (ret ∈ ["object"; "boolean"])).

(** ** Naming *)

(** The branch of the naming chain that a signature takes. *)
Inductive role : Type :=
  | Action        (* argc = 0, no result: Runnable *)
  | Supplier      (* argc = 0, a result *)
  | Consumer      (* no result *)
  | Operator      (* every argument has the result type *)
  | Predicate     (* boolean result *)
  | Function      (* object result *)
  | ToFunction.   (* any other result *)

#[global] Instance role_eq_dec : EqDecision role.
Proof. solve_decision. Defined.

(** The conditions of the [if]/[elif] chain that picks the name, in order. *)
Definition role_of (argc : nat) (argv : list string) (ret : string) : role :=
  let args := pyset argv in
  if argc =? 0 then
    if String.eqb ret "void" then Action else Supplier
  else if String.eqb ret "void" then Consumer
  else if negb (String.eqb ret "object") && bool_decide ({[ret]} = args) then Operator
  else if String.eqb ret "boolean" then Predicate
  else if String.eqb ret "object" then Function
  else ToFunction.

(** ["".join(("Obj" if a == "object" else type_names[a] for a in argv))] *)
Definition obj_names (argv : list string) : result string :=
  l ← mapM' (fun a => if String.eqb a "object" then Ok (Some "Obj")
                      else dict_get type_names a) argv;
  str_join "" l.

(** [name] and [mthd] of a signature. *)
Definition get_name (argc : nat) (argv : list string) (ret : string) : result (string * string) :=
  let args := pyset argv in
  match role_of argc argv ret with
  | Action => Ok ("Runnable", "run")
  | Supplier =>
      t ← dict_get type_names ret;
      Ok (fmt t +:+ "Supplier",
          if negb (String.eqb ret "object") then "getAs" +:+ fmt t else "get")
  | Consumer =>
      name ← (if size args =? 1 then
                t ← dict_get type_names (item0 argv);
                o ← getitem fn_ordinals argc;
                Ok (fmt t +:+ fmt o +:+ "Consumer")
              else
                j ← obj_names argv;
                Ok (j +:+ "Consumer"));
      Ok (name, "accept")
  | Operator =>
      t ← dict_get type_names (item0 argv);
      o ← getitem op_ordinals argc;
      r ← dict_get type_names ret;
      Ok (fmt t +:+ fmt o +:+ "Operator", "applyAs" +:+ fmt r)
  | Predicate =>
      name ← (if size args =? 1 then
                t ← dict_get type_names (item0 argv);
                o ← getitem fn_ordinals argc;
                Ok (fmt t +:+ fmt o +:+ "Predicate")
              else
                j ← obj_names argv;
                Ok (j +:+ "Predicate"));
      Ok (name, "test")
  | Function =>
      name ← (if size args =? 1 then
                t ← dict_get type_names (item0 argv);
                o ← getitem fn_ordinals argc;
                Ok (fmt t +:+ fmt o +:+ "Function")
              else
                j ← obj_names argv;
                Ok (j +:+ "Function"));
      Ok (name, "apply")
  | ToFunction =>
      name ← (if size args =? 1 then
                t ← dict_get type_names (item0 argv);
                r ← dict_get type_names ret;
                o ← getitem fn_ordinals argc;
                Ok (fmt t +:+ "To" +:+ fmt r +:+ fmt o +:+ "Function")
              else
                j ← obj_names argv;
                r ← dict_get type_names ret;
                Ok (j +:+ "To" +:+ fmt r +:+ "Function"));
      r ← dict_get type_names ret;
      Ok (name, "applyAs" +:+ fmt r)
  end.

(** The candidate argument tuples of one arity that pass the input filters. *)
Definition kept_argv (argc : nat) : list (list string) :=
  List.filter (fun argv => negb (argv_skip argc argv)) (product (tail types) argc).

(** ** Documentation helpers *)

Definition ascii_upper (c : ascii) : ascii :=
  let n := nat_of_ascii c in
  if (97 <=? n) && (n <=? 122) then ascii_of_nat (n - 32) else c.

Definition ascii_lower (c : ascii) : ascii :=
  let n := nat_of_ascii c in
  if (65 <=? n) && (n <=? 90) then ascii_of_nat (n + 32) else c.

Fixpoint str_map (f : ascii -> ascii) (s : string) : string :=
  match s with
  | EmptyString => EmptyString
  | String c r => String (f c) (str_map f r)
  end.

(** [s.capitalize()] on ASCII text *)
Definition capitalize (s : string) : string :=
  match s with
  | EmptyString => EmptyString
  | String c r => String (ascii_upper c) (str_map ascii_lower r)
  end.

(** [p.lower()]; [None] has no such method. *)
Definition lower (p : pyval) : result string :=
  match p with
  | Some s => Ok (str_map ascii_lower s)
  | None => Raise AttributeError
  end.

(** [s in t] for strings, used by [aan] with a one-letter [s]. *)
Fixpoint str_contains (t s : string) : bool :=
  String.prefix s t ||
  match t with
  | EmptyString => false
  | String _ r => str_contains r s
  end.

Definition aan (s : string) : string :=
  if str_contains "AEIOUaeiou" (String.substring 0 1 s) then "an" else "a".

Definition Aan (s : string) : string := capitalize (aan s).

(** [' ' * n] *)
Fixpoint spaces (n : nat) : string :=
  match n with
  | 0 => ""
  | S n' => String " "%char (spaces n')
  end.

(** The newline and the double quote. *)
Definition nl : string := String (ascii_of_nat 10) "".
Definition dq : string := String (ascii_of_nat 34) "".

(** [sep.join(l)] on a list of [str] *)
Fixpoint join (sep : string) (l : list string) : string :=
  match l with
  | [] => ""
  | [s] => s
  | s :: l' => s +:+ sep +:+ join sep l'
  end.

(** [s.replace("$", r)] *)
Fixpoint replace_dollar (r : string) (s : string) : string :=
  match s with
  | EmptyString => EmptyString
  | String c s' =>
      if Ascii.eqb c "$"%char then r +:+ replace_dollar r s'
      else String c (replace_dollar r s')
  end.

(** [s.split(".")] *)
Fixpoint split_dot_go (cur : string) (s : string) : list string :=
  match s with
  | EmptyString => [String.rev cur]
  | String c s' =>
      if Ascii.eqb c "."%char then String.rev cur :: split_dot_go "" s'
      else split_dot_go (String c cur) s'
  end.
Definition split_dot (s : string) : list string := split_dot_go "" s.

(** The wording that depends on the kind of signature. *)
Record docvars : Type := {
  operation : string;
  performs : string;
  using_ : pyval;
  arguments : pyval;
  matches : pyval;
  those : pyval;
  supply : pyval
}.

Definition Performs (d : docvars) : string := capitalize (performs d).
Definition perform (d : docvars) : string :=
  if endswith (performs d) "ies" then drop_last 3 (performs d) +:+ "y"
  else drop_last 1 (performs d).
Definition performed (d : docvars) : string :=
  drop_last 1 (performs d) +:+ (if endswith (performs d) "es" then "d" else "ed").

(** The variables for javadoc. *)
Definition get_docvars (argc : nat) (argv : list string) (ret : string) : docvars :=
  let args := pyset argv in
  let '(operation, performs, using_) :=
    if String.eqb ret "void" then
      ("operation", "performs", if 0 <? argc then Some "using" else None)
    else if argc =? 0 then ("operation", "supplies", None)
    else if negb (String.eqb ret "object") && bool_decide ({[ret]} = args) then
      ("operator", "applies", Some "to")
    else if String.eqb ret "boolean" then ("predicate", "evaluates", Some "against")
    else ("function", "applies", Some "to") in
  let '(arguments, matches, those, supply) :=
    if argc =? 0 then
      (None, None, None,
       if String.eqb ret "object" then Some "value"
       else if negb (String.eqb ret "void") then Some ("{@code~" +:+ ret +:+ "} value")
       else None)
    else if (argc =? 1) && negb (is_array (item0 argv)) then
      (Some "argument", Some "matches", Some "that", None)
    else (Some "arguments", Some "match", Some "those", None) in
  {| operation := operation; performs := performs; using_ := using_;
     arguments := arguments; matches := matches; those := those; supply := supply |}.

(** ** Generic parameters and arguments *)

(** The generic parameter list: pairs (name, description). *)
Definition get_p_list (d : docvars) (argc : nat) (argv : list string) (ret : string)
    : result (list (pyval * string)) :=
  let in_param_cnt := count_if (fun a => String.eqb a "object") argv in
  let elem_param_cnt := count_if (fun a => String.eqb a "object[]") argv in
  let out_param_cnt := if String.eqb ret "object" then 1 else 0 in
  l1 ← mapM' (fun n =>
          p ← getitem in_params n;
          pos ← (if 1 <? in_param_cnt then o ← getitem pos_ordinals n; Ok (fmt o +:+ " ")
                 else Ok "");
          let typ := if in_param_cnt <? argc then "object-valued " else "" in
          Ok (p, "The type of the " +:+ pos +:+ typ +:+ "argument to the "
                 +:+ operation d +:+ "."))
        (seq 1 in_param_cnt);
  l2 ← mapM' (fun n =>
          p ← getitem elem_params n;
          pos ← (if 1 <? elem_param_cnt then o ← getitem pos_ordinals n; Ok (fmt o +:+ " ")
                 else Ok "");
          Ok (p, "The type of the elements of the " +:+ pos +:+ "array argument to the "
                 +:+ operation d +:+ "."))
        (seq 1 elem_param_cnt);
  l3 ← mapM' (fun n =>
          p ← getitem out_params n;
          Ok (p, "The type of the result of the " +:+ operation d +:+ "."))
        (seq 1 out_param_cnt);
  Ok (l1 ++ l2 ++ l3).

(** One entry of the expanded argument list. *)
Record arg : Type := {
  a_type : pyval;
  a_name : string;
  a_abbr : string;
  a_desc : string
}.

(** The loop that expands the value or array arguments; [numbered] tells
    whether the suffix and position iterators count from 1 or repeat the
    empty string. *)
Fixpoint a_loop (op : string) (a : string) (numbered : bool) (typ : string)
    (ns : list nat) (e_iter : list string) (a_list : list arg) : result (list arg) :=
  match ns with
  | [] => Ok a_list
  | n :: ns' =>
      let suf := if numbered then str_of_nat n else "" in
      pos ← (if numbered then o ← getitem pos_ordinals n; Ok (fmt o +:+ " ") else Ok "");
      let '(name, abbr) :=
        if is_array a then ("array" +:+ suf, "arr" +:+ suf)
        else ("value" +:+ suf, "val" +:+ suf) in
      '(ty, e_iter') ← (if negb (String.eqb a "object[]") then Ok (a, e_iter)
                        else match e_iter with
                             | [] => Raise StopIteration
                             | e :: es => Ok (e, es)
                             end);
      let a_list1 := a_list ++
        [ {| a_type := Some ty; a_name := name; a_abbr := abbr;
             a_desc := "The " +:+ pos +:+ typ +:+ "argument to the " +:+ op +:+ "." |} ] in
      let a_list2 :=
        if is_array a then
          a_list1 ++
          [ {| a_type := Some "int"; a_name := "fromIndex" +:+ suf; a_abbr := "from" +:+ suf;
               a_desc := "The start index in {@code~array" +:+ suf +:+ "}, inclusive." |};
            {| a_type := Some "int"; a_name := "toIndex" +:+ suf; a_abbr := "to" +:+ suf;
               a_desc := "The end index in {@code~array" +:+ suf +:+ "}, exclusive." |} ]
        else a_list1 in
      a_loop op a numbered typ ns' e_iter' a_list2
  end.

(** [(a,) = s] on the elements of a set in iteration order. *)
Definition unpack1 (l : list string) : result string :=
  match l with
  | [a] => Ok a
  | _ => Raise ValueError
  end.

Section Generator.

(** The order in which Python iterates over a set of strings: it depends on
    the hash seed of the process. *)
Variable set_iter : gset string -> list string.

(** [textwrap.wrap] between the two character translations of [javadoc]:
    the lines of the text wrapped to the width, braces, at-signs and
    non-breaking spaces restored. *)
Variable wrap : string -> Z -> list string.

(** The expanded argument list: (type, name, abbreviated name, description). *)
Definition get_a_list (d : docvars) (argc : nat) (argv : list string) (ret : string)
    : result (list arg) :=
  let args := pyset argv in
  let op := operation d in
  if argc =? 0 then Ok []
  else if bool_decide (args = {["object"]}) then
    mapM' (fun '(p, n) =>
        pos ← (if 1 <? argc then o ← getitem pos_ordinals n; Ok (fmt o +:+ " ") else Ok "");
        lp ← lower p;
        Ok {| a_type := p; a_name := lp; a_abbr := lp;
              a_desc := "The " +:+ pos +:+ "argument to the " +:+ op +:+ "." |})
      (zip (take argc (drop 1 in_params)) (seq 1 argc))
  else if bool_decide (argc ∈ [1; 2]) && (size args =? 1) && negb (any_array argv) then
    if argc =? 1 then
      a0 ← getitem argv 0;
      Ok [ {| a_type := Some a0;
              a_name := if bool_decide ({[ret]} = args) then "operand" else "value";
              a_abbr := "x";
              a_desc := "The argument to the " +:+ op +:+ "." |} ]
    else
      _ ← assert (argc =? 2);
      a0 ← getitem argv 0;
      p1 ← getitem pos_ordinals 1;
      a1 ← getitem argv 1;
      p2 ← getitem pos_ordinals 2;
      Ok [ {| a_type := Some a0; a_name := "left"; a_abbr := "x";
              a_desc := "The " +:+ fmt p1 +:+ " argument to the " +:+ op +:+ "." |};
           {| a_type := Some a1; a_name := "right"; a_abbr := "y";
              a_desc := "The " +:+ fmt p2 +:+ " argument to the " +:+ op +:+ "." |} ]
  else
    a0 ← getitem argv 0;
    let e_iter := map (fun p => fmt p +:+ "[]") (drop 1 elem_params) in
    if String.eqb a0 "object" then
      _ ← assert (argc =? 2);
      a1 ← getitem argv 1;
      _ ← assert (negb (String.eqb a1 "object"));
      i1 ← getitem in_params 1;
      let a_list :=
        [ {| a_type := i1; a_name := "obj"; a_abbr := "obj";
             a_desc := "The object-valued argument to the " +:+ op +:+ "." |} ] in
      let a := a1 in
      let typ :=
        if String.eqb a "object[]" then "array "
        else if is_array a then "{@code~" +:+ drop_last 2 a +:+ "}-valued array "
        else "{@code~" +:+ a +:+ "}-valued " in
      a_loop op a false typ (seq 1 1) e_iter a_list
    else
      _ ← assert (size args =? 1);
      a ← unpack1 (set_iter args);
      let typ := if is_array a then "array " else "" in
      a_loop op a (negb (argc =? 1)) typ (seq 1 argc) e_iter [].

(** [javadoc(description, indent=, authors=, parameters=, result=)]: the
    lines of a documentation comment. *)
Definition label_lines (ind label : string) (lines : list string) : list string :=
  match lines with
  | [] => []
  | l :: ls =>
      (ind +:+ " * " +:+ label +:+ l)
      :: map (fun x => ind +:+ " * " +:+ spaces (String.length label) +:+ x) ls
  end.

Definition javadoc (description : string) (indent : nat) (authors : list string)
    (parameters : list (string * string)) (result : pyval) : list string :=
  let base_width : Z := (80 - 3 - Z.of_nat indent)%Z in
  let ind := spaces indent in
  let result := default "" result in
  [ind +:+ "/**"]
  ++ map (fun line => ind +:+ " * " +:+ line) (wrap description base_width)
  ++ (if bool_decide (authors = []) then []
      else (ind +:+ " *") :: map (fun author => ind +:+ " * @author " +:+ author) authors)
  ++ (if bool_decide (parameters = []) then []
      else
        let align := 1 + foldr Nat.max 0 (map (fun p => String.length p.1) parameters) in
        (ind +:+ " *")
        :: flat_map (fun '(name, desc) =>
             label_lines ind
               ("@param " +:+ name +:+ spaces (align - String.length name))
               (wrap desc (base_width - 7 - Z.of_nat align)%Z))
           parameters)
  ++ (if String.eqb result "" then []
      else (ind +:+ " *") :: label_lines ind "@return " (wrap result (base_width - 8)%Z))
  ++ [ind +:+ " */"].

(** The tables filled while the methods of one interface are generated. *)
Record methods : Type := {
  imports : gset string;
  static_imports : gset string;
  static_methods : list (string * list string);
  instance_methods : list (string * list string)
}.

Definition add_import (i : string) (m : methods) : methods :=
  {| imports := {[i]} ∪ imports m; static_imports := static_imports m;
     static_methods := static_methods m; instance_methods := instance_methods m |}.
Definition set_static (k : string) (v : list string) (m : methods) : methods :=
  {| imports := imports m; static_imports := static_imports m;
     static_methods := dict_set (static_methods m) k v;
     instance_methods := instance_methods m |}.
Definition set_instance (k : string) (v : list string) (m : methods) : methods :=
  {| imports := imports m; static_imports := static_imports m;
     static_methods := static_methods m;
     instance_methods := dict_set (instance_methods m) k v |}.

(** [f"        return {lmbd};".replace("$", ...)]: the lambda goes on a
    line of its own when it is longer than 64 characters. *)
Definition return_line (lmbd : string) : string :=
  replace_dollar (if 64 <? String.length lmbd then nl +:+ spaces 12 else " ")
    ("        return " +:+ lmbd +:+ ";").

(** *** The capability conditions *)

Definition has_identity (argc : nat) (argv : list string) (ret : string) : bool :=
  (argc =? 1) && negb (String.eqb ret "object") && bool_decide (pyset argv = {[ret]}).

Definition has_static_negated (argc : nat) (argv : list string) (ret : string) : bool :=
  (argc =? 1) && String.eqb ret "boolean" && bool_decide (pyset argv = {["boolean"]}).

(** The branch of the [andThen] chain, if any. *)
Inductive andThen_kind : Type := AfterAction | AfterFunction | AfterOperator.

Definition andThen_branch (argc : nat) (argv : list string) (ret : string)
    : option andThen_kind :=
  if String.eqb ret "void" then Some AfterAction
  else if String.eqb ret "object" then Some AfterFunction
  else if (argc =? 1) && bool_decide (pyset argv = {[ret]}) then Some AfterOperator
  else None.

(** The branch of the [compose] chain, if any. *)
Inductive compose_kind : Type := BeforeFunction | BeforeOperator.

Definition compose_branch (argc : nat) (argv : list string) (ret : string)
    : option compose_kind :=
  if (argc =? 1) && bool_decide (pyset argv = {["object"]}) then Some BeforeFunction
  else if (argc =? 1) && bool_decide (pyset argv = {[ret]}) then Some BeforeOperator
  else None.

Definition has_predicate_methods (argc : nat) (argv : list string) (ret : string) : bool :=
  (0 <? argc) && String.eqb ret "boolean" && negb (bool_decide (pyset argv = {["boolean"]})).

Section Body.

Variables (argc : nat) (argv : list string) (ret : string).
Variables (name mthd : string) (d : docvars).
Variables (p_list : list (pyval * string)) (a_list : list arg).

Let args : gset string := pyset argv.
Let op : string := operation d.

(** The functional interface method. *)
Definition mthd_desc : string :=
  if argc =? 0 then
    if negb (String.eqb ret "void") then Performs d +:+ " a " +:+ fmt (supply d) +:+ "."
    else Performs d +:+ " the " +:+ op +:+ "."
  else Performs d +:+ " the " +:+ op +:+ " " +:+ fmt (using_ d) +:+ " the given "
       +:+ fmt (arguments d) +:+ ".".

Definition rslt_desc : pyval :=
  if (0 <? argc) && String.eqb ret "boolean" && negb (bool_decide (args = {["boolean"]})) then
    Some ("A {@code~true}-or-{@code~false} value indicating whether the "
          +:+ fmt (arguments d) +:+ " " +:+ fmt (matches d) +:+ " the " +:+ op +:+ ".")
  else if negb (String.eqb ret "void") then Some ("The result of the " +:+ op +:+ ".")
  else None.

Definition add_mthd (m : methods) : result methods :=
  let mthd_doc :=
    javadoc mthd_desc 4 [] (map (fun a => (a_name a, a_desc a)) a_list) rslt_desc in
  rslt ← (if String.eqb ret "object" then getitem out_params 1 else Ok (Some ret));
  if 0 <? argc then
    Ok (set_instance mthd
          (mthd_doc
           ++ ["    " +:+ fmt rslt +:+ " " +:+ mthd +:+ "("]
           ++ map (fun a => "        final " +:+ fmt (a_type a) +:+ " " +:+ a_name a +:+ ",")
                (removelast a_list)
           ++ map (fun a => "        final " +:+ fmt (a_type a) +:+ " " +:+ a_name a +:+ ");")
                (drop (length a_list - 1) a_list))
          m)
  else
    Ok (set_instance mthd (mthd_doc ++ ["    " +:+ fmt rslt +:+ " " +:+ mthd +:+ "();"]) m).

(** The texts shared by the other methods. *)
Definition p_text : result string :=
  if bool_decide (p_list = []) then Ok ""
  else j ← str_join ", " (map fst p_list); Ok ("<" +:+ j +:+ ">").

Definition a_text : string := join ", " (map a_abbr a_list).

Definition par_a_text : string :=
  if length a_list =? 1 then a_text else "(" +:+ a_text +:+ ")".

Definition var_p_text : result string :=
  if bool_decide (p_list = []) then Ok ""
  else
    j ← str_join ", "
          (map (fun '(p, _) =>
                  if bool_decide (p ∈ in_params) then Some ("? super " +:+ fmt p)
                  else if bool_decide (p ∈ out_params) then Some ("? extends " +:+ fmt p)
                  else if bool_decide (p ∈ elem_params) then Some (fmt p)
                  else None)
               p_list);
    Ok ("<" +:+ j +:+ ">").

(** [identity] *)
Definition add_identity (m : methods) : result methods :=
  if has_identity argc argv ret then
    let mdoc :=
      javadoc ("Returns " +:+ aan op +:+ " " +:+ op
               +:+ " that always returns its input argument.")
        4 [] []
        (Some (Aan op +:+ " " +:+ op +:+ " that always returns its input argument.")) in
    let lmbd := par_a_text +:+ " ->$" +:+ a_text in
    Ok (set_static "identity"
          (mdoc ++ ["    static " +:+ name +:+ " identity()"; "    {"; return_line lmbd; "    }"])
          m)
  else Ok m.

(** [negated] of the boolean unary operator *)
Definition add_static_negated (m : methods) : result methods :=
  if has_static_negated argc argv ret then
    let mdoc :=
      javadoc ("Returns " +:+ aan op +:+ " " +:+ op
               +:+ " that always returns the logical negation of its input argument.")
        4 [] []
        (Some (Aan op +:+ " " +:+ op
               +:+ " that always returns the logical negation its input argument.")) in
    let lmbd := par_a_text +:+ " ->$!" +:+ a_text in
    Ok (set_static "negated"
          (mdoc ++ ["    static " +:+ name +:+ " negated()"; "    {"; return_line lmbd; "    }"])
          m)
  else Ok m.

(** [andThen] *)
Definition add_andThen (pt vpt : string) (m : methods) : result methods :=
  match andThen_branch argc argv ret with
  | Some AfterAction =>
      let desc :=
        if argc =? 0 then
          "Returns a compound " +:+ op +:+ " that first " +:+ performs d +:+ " this " +:+ op
          +:+ " and then " +:+ performs d +:+ " the given " +:+ op +:+ "."
        else
          "Returns a compound " +:+ op +:+ " that first " +:+ performs d +:+ " this " +:+ op
          +:+ " " +:+ fmt (using_ d) +:+ " its input " +:+ fmt (arguments d)
          +:+ " and then " +:+ performs d +:+ " the given " +:+ op +:+ " "
          +:+ fmt (using_ d) +:+ " " +:+ fmt (those d) +:+ " same "
          +:+ fmt (arguments d) +:+ "." in
      let mdoc :=
        javadoc desc 4 []
          [("after", "The " +:+ op +:+ " to " +:+ perform d +:+ " after this " +:+ op +:+ ".")]
          (Some ("A compound " +:+ op +:+ " that first " +:+ performs d +:+ " this " +:+ op
                 +:+ " and then " +:+ performs d +:+ " the {@code~after} " +:+ op +:+ ".")) in
      Ok (set_instance "andThen"
            (mdoc ++
             ["    default " +:+ name +:+ pt +:+ " andThen(";
              "        final " +:+ name +:+ vpt +:+ " after)";
              "    {";
              "        Objects.requireNonNull(after);";
              "        return " +:+ par_a_text +:+ " ->";
              "        {";
              "            " +:+ mthd +:+ "(" +:+ a_text +:+ ");";
              "            after." +:+ mthd +:+ "(" +:+ a_text +:+ ");";
              "        };";
              "    }"])
            (add_import "java.util.Objects" m))
  | Some AfterFunction =>
      o1 ← getitem out_params 1;
      o2 ← getitem out_params 2;
      _ ← assert (bool_decide (o1 ∈ map fst p_list));
      j ← str_join ", "
            (map (fun '(p, _) => if negb (bool_decide (p = o1)) then p else o2) p_list);
      let p_text2 := "<" +:+ j +:+ ">" in
      let '(desc, rslt) :=
        if argc =? 0 then
          ("Returns a compound " +:+ op +:+ " that first " +:+ performs d +:+ " a "
           +:+ fmt (supply d)
           +:+ " and then applies the given function to produce a transformed result.",
           "A compound " +:+ op +:+ " that first " +:+ performs d +:+ " a "
           +:+ fmt (supply d) +:+ " and then applies the {@code~after} function.")
        else
          ("Returns a compound " +:+ op +:+ " that first " +:+ performs d +:+ " this " +:+ op
           +:+ " " +:+ fmt (using_ d) +:+ " its input " +:+ fmt (arguments d)
           +:+ " and then applies the given function to produce a transformed result.",
           "A compound " +:+ op +:+ " that first " +:+ performs d +:+ " this " +:+ op
           +:+ " and then applies the {@code~after} function.") in
      let mdoc :=
        javadoc desc 4 []
          [("<" +:+ fmt o2 +:+ ">", "The type of the result of the compound " +:+ op +:+ ".");
           ("after", "A function to apply to the result of this " +:+ op +:+ ".")]
          (Some rslt) in
      let lmbd := par_a_text +:+ " ->$after.apply(" +:+ mthd +:+ "(" +:+ a_text +:+ "))" in
      Ok (set_instance "andThen"
            (mdoc ++
             ["    default <" +:+ fmt o2 +:+ "> " +:+ name +:+ p_text2 +:+ " andThen(";
              "        final Function<? super " +:+ fmt o1 +:+ ", ? extends " +:+ fmt o2
              +:+ "> after)";
              "    {";
              "        Objects.requireNonNull(after);";
              return_line lmbd;
              "    }"])
            (add_import "java.util.function.Function" (add_import "java.util.Objects" m)))
  | Some AfterOperator =>
      _ ← assert (negb (String.eqb ret "object"));
      let mdoc :=
        javadoc ("Returns a compound " +:+ op +:+ " that first " +:+ performs d +:+ " this "
                 +:+ op +:+ " " +:+ fmt (using_ d) +:+ " its input " +:+ fmt (arguments d)
                 +:+ " and then " +:+ performs d +:+ " the given " +:+ op
                 +:+ " to produce a transformed result.")
          4 []
          [("after", Aan op +:+ " " +:+ op +:+ " to " +:+ perform d +:+ " "
                     +:+ fmt (using_ d) +:+ " the result of this " +:+ op +:+ ".")]
          (Some ("A compound " +:+ op +:+ " that first " +:+ performs d +:+ " this " +:+ op
                 +:+ " and then " +:+ performs d +:+ " the {@code~after} " +:+ op +:+ ".")) in
      let lmbd :=
        par_a_text +:+ " ->$after." +:+ mthd +:+ "(" +:+ mthd +:+ "(" +:+ a_text +:+ "))" in
      Ok (set_instance "andThen"
            (mdoc ++
             ["    default " +:+ name +:+ " andThen(";
              "        final " +:+ name +:+ " after)";
              "    {";
              "        Objects.requireNonNull(after);";
              return_line lmbd;
              "    }"])
            (add_import "java.util.Objects" m))
  | None => Ok m
  end.

(** [compose] *)
Definition add_compose (m : methods) : result methods :=
  match compose_branch argc argv ret with
  | Some BeforeFunction =>
      i1 ← getitem in_params 1;
      i2 ← getitem in_params 2;
      _ ← assert (bool_decide (i1 ∈ map fst p_list));
      j ← str_join ", "
            (map (fun '(p, _) => if negb (bool_decide (p = i1)) then p else i2) p_list);
      let p_text2 := "<" +:+ j +:+ ">" in
      let desc :=
        if String.eqb ret "void" then
          "Returns a compound " +:+ op
          +:+ " that first applies the given function to its input argument and then "
          +:+ performs d +:+ " this " +:+ op +:+ " " +:+ fmt (using_ d) +:+ " its result."
        else
          "Returns a compound " +:+ op
          +:+ " that first applies the given function to its input argument and then "
          +:+ performs d +:+ " this " +:+ op +:+ " to produce a transformed result." in
      let mdoc :=
        javadoc desc 4 []
          [("<" +:+ fmt i2 +:+ ">", "The type of the input to the compound " +:+ op +:+ ".");
           ("before", "A function to apply to produce the input to this " +:+ op +:+ ".")]
          (Some ("A compound " +:+ op
                 +:+ " that first applies the {@code~before} function and then "
                 +:+ performs d +:+ " this " +:+ op +:+ ".")) in
      let lmbd := par_a_text +:+ " ->$" +:+ mthd +:+ "(before.apply(" +:+ a_text +:+ "))" in
      Ok (set_instance "compose"
            (mdoc ++
             ["    default <" +:+ fmt i2 +:+ "> " +:+ name +:+ p_text2 +:+ " compose(";
              "        final Function<? super " +:+ fmt i2 +:+ ", ? extends " +:+ fmt i1
              +:+ "> before)";
              "    {";
              "        Objects.requireNonNull(before);";
              return_line lmbd;
              "    }"])
            (add_import "java.util.function.Function" (add_import "java.util.Objects" m)))
  | Some BeforeOperator =>
      _ ← assert (negb (String.eqb ret "object"));
      let mdoc :=
        javadoc ("Returns a compound " +:+ op +:+ " that first " +:+ performs d
                 +:+ " the given " +:+ op +:+ " " +:+ fmt (using_ d)
                 +:+ " its input argument and then " +:+ performs d +:+ " this " +:+ op
                 +:+ " to produce a transformed result.")
          4 []
          [("before", Aan op +:+ " " +:+ op +:+ " to " +:+ perform d
                      +:+ " to produce the input to this " +:+ op +:+ ".")]
          (Some ("A compound " +:+ op +:+ " that first " +:+ performs d
                 +:+ " the {@code~before} " +:+ op +:+ " and then " +:+ performs d
                 +:+ " this " +:+ op +:+ ".")) in
      let lmbd :=
        par_a_text +:+ " ->$" +:+ mthd +:+ "(before." +:+ mthd +:+ "(" +:+ a_text +:+ "))" in
      Ok (set_instance "compose"
            (mdoc ++
             ["    default " +:+ name +:+ " compose(";
              "        final " +:+ name +:+ " before)";
              "    {";
              "        Objects.requireNonNull(before);";
              return_line lmbd;
              "    }"])
            (add_import "java.util.Objects" m))
  | None => Ok m
  end.

(** The lambdas of the predicate methods. *)
Definition and_lmbd : string :=
  par_a_text +:+ " ->$" +:+ mthd +:+ "(" +:+ a_text +:+ ") && other." +:+ mthd
  +:+ "(" +:+ a_text +:+ ")".
Definition or_lmbd : string :=
  par_a_text +:+ " ->$" +:+ mthd +:+ "(" +:+ a_text +:+ ") || other." +:+ mthd
  +:+ "(" +:+ a_text +:+ ")".
Definition negated_lmbd : string :=
  par_a_text +:+ " ->$!" +:+ mthd +:+ "(" +:+ a_text +:+ ")".

(** [and], [or] and [negated] of a predicate *)
Definition add_predicate_methods (pt vpt : string) (m : methods) : result methods :=
  if has_predicate_methods argc argv ret then
    let mdoc_and :=
      javadoc ("Returns a compound " +:+ op
               +:+ " that represents the logical intersection of this " +:+ op
               +:+ " and the given " +:+ op +:+ ". "
               +:+ "The compound " +:+ op +:+ " " +:+ performs d +:+ " this " +:+ op
               +:+ " first; the other " +:+ op +:+ " is not " +:+ performed d
               +:+ " if the result of this " +:+ op +:+ " is {@code~false}.")
        4 []
        [("other", Aan op +:+ " " +:+ op +:+ " to be intersected with this " +:+ op +:+ ".")]
        (Some ("A compound " +:+ op +:+ " that represents the logical intersection of this "
               +:+ op +:+ " and the {@code~other} " +:+ op +:+ ".")) in
    let m1 :=
      set_instance "and"
        (mdoc_and ++
         ["    default " +:+ name +:+ pt +:+ " and(";
          "        final " +:+ name +:+ vpt +:+ " other)";
          "    {";
          "        Objects.requireNonNull(other);";
          return_line and_lmbd;
          "    }"])
        (add_import "java.util.Objects" m) in
    let mdoc_or :=
      javadoc ("Returns a compound " +:+ op
               +:+ " that represents the logical union of this " +:+ op
               +:+ " and the given " +:+ op +:+ ". "
               +:+ "The compound " +:+ op +:+ " " +:+ performs d +:+ " this " +:+ op
               +:+ " first; the other " +:+ op +:+ " is not " +:+ performed d
               +:+ " if the result of this " +:+ op +:+ " is {@code~true}.")
        4 []
        [("other", Aan op +:+ " " +:+ op +:+ " to be unioned with this " +:+ op +:+ ".")]
        (Some ("A compound " +:+ op +:+ " that represents the logical union of this "
               +:+ op +:+ " and the {@code~other} " +:+ op +:+ ".")) in
    let m2 :=
      set_instance "or"
        (mdoc_or ++
         ["    default " +:+ name +:+ pt +:+ " or(";
          "        final " +:+ name +:+ vpt +:+ " other)";
          "    {";
          "        Objects.requireNonNull(other);";
          return_line or_lmbd;
          "    }"])
        (add_import "java.util.Objects" m1) in
    let mdoc_neg :=
      javadoc ("Returns " +:+ aan op +:+ " " +:+ op
               +:+ " that represents the logical negation of this " +:+ op +:+ ".")
        4 [] []
        (Some (Aan op +:+ " " +:+ op +:+ " that represents the logical negation of this "
               +:+ op +:+ ".")) in
    Ok (set_instance "negated"
          (mdoc_neg ++
           ["    default " +:+ name +:+ pt +:+ " negated()";
            "    {";
            return_line negated_lmbd;
            "    }"])
          m2)
  else Ok m.

(** All the methods of one interface, in the order the script fills the
    tables. *)
Definition gen_methods : result (methods * string) :=
  let m0 := {| imports := ∅; static_imports := ∅;
               static_methods := []; instance_methods := [] |} in
  m1 ← add_mthd m0;
  pt ← p_text;
  vpt ← var_p_text;
  m2 ← add_identity m1;
  m3 ← add_static_negated m2;
  m4 ← add_andThen pt vpt m3;
  m5 ← add_compose m4;
  m6 ← add_predicate_methods pt vpt m5;
  Ok (m6, pt).

End Body.

(** *** Printing the file *)

(** [os.path.join] on relative, non-empty components. *)
Definition path_join (parts : list string) : string := join "/" parts.

Definition base_dir : string := path_join ["src"; "main"; "java"].
Definition base_pkg : string := "me.dkleszyk.java.function.extra".
Definition base_pkg_dir : string := path_join ([base_dir] ++ split_dot base_pkg).

(** The package of an interface. *)
Definition get_package (argv : list string) (ret : string) : string :=
  if bool_decide (pyset argv ⊆ {["object"; "int"; "long"; "double"]})
     && bool_decide (ret ∈ ["object"; "int"; "long"; "double"; "boolean"; "void"])
  then base_pkg
  else if any_array argv then base_pkg +:+ ".array"
  else base_pkg +:+ ".primitive".

Definition license_header : list string :=
  [ "/*";
    " * The MIT License";
    " *";
    " * Copyright 2022 David Kleszyk <dkleszyk@gmail.com>.";
    " *";
    " * Permission is hereby granted, free of charge, to any person obtaining a copy";
    " * of this software and associated documentation files (the " +:+ dq +:+ "Software"
      +:+ dq +:+ "), to deal";
    " * in the Software without restriction, including without limitation the rights";
    " * to use, copy, modify, merge, publish, distribute, sublicense, and/or sell";
    " * copies of the Software, and to permit persons to whom the Software is";
    " * furnished to do so, subject to the following conditions:";
    " *";
    " * The above copyright notice and this permission notice shall be included in";
    " * all copies or substantial portions of the Software.";
    " *";
    " * THE SOFTWARE IS PROVIDED " +:+ dq +:+ "AS IS" +:+ dq
      +:+ ", WITHOUT WARRANTY OF ANY KIND, EXPRESS OR";
    " * IMPLIED, INCLUDING BUT NOT LIMITED TO THE WARRANTIES OF MERCHANTABILITY,";
    " * FITNESS FOR A PARTICULAR PURPOSE AND NONINFRINGEMENT. IN NO EVENT SHALL THE";
    " * AUTHORS OR COPYRIGHT HOLDERS BE LIABLE FOR ANY CLAIM, DAMAGES OR OTHER";
    " * LIABILITY, WHETHER IN AN ACTION OF CONTRACT, TORT OR OTHERWISE, ARISING FROM,";
    " * OUT OF OR IN CONNECTION WITH THE SOFTWARE OR THE USE OR OTHER DEALINGS IN";
    " * THE SOFTWARE.";
    " */" ].

(** [sorted(s)] on a set of strings *)
Definition sorted_set (s : gset string) : list string :=
  merge_sort String.le (set_iter s).

(** [sorted(d)] on a dict: its keys in order *)
Definition sorted_keys {V : Type} (d : list (string * V)) : list string :=
  merge_sort String.le (map fst d).

(** The words for the arguments in the interface comment. *)
Definition input_text (argc : nat) (argv : list string) : result string :=
  let args := pyset argv in
  if argc =? 0 then Ok "no arguments"
  else if argc =? 1 then
    a0 ← getitem argv 0;
    if String.eqb a0 "object" then Ok "a single argument"
    else if String.eqb a0 "object[]" then Ok "an array argument with start and end indices"
    else if is_array a0 then
      Ok (aan a0 +:+ " {@code~" +:+ drop_last 2 a0
          +:+ "}-valued array argument with start and end indices")
    else Ok ("a single {@code~" +:+ a0 +:+ "}-valued argument")
  else if size args =? 1 then
    a0 ← getitem argv 0;
    c ← getitem cnt_ordinals argc;
    if String.eqb a0 "object" then Ok (fmt c +:+ " arguments")
    else if String.eqb a0 "object[]" then
      Ok (fmt c +:+ " array arguments, each with start and end indices")
    else if is_array a0 then
      Ok (fmt c +:+ " {@code~" +:+ drop_last 2 a0
          +:+ "}-valued array arguments, each with start and end indices")
    else Ok (fmt c +:+ " {@code~" +:+ a0 +:+ "}-valued arguments")
  else
    _ ← assert (argc =? 2);
    a0 ← getitem argv 0;
    _ ← assert (String.eqb a0 "object");
    a1 ← getitem argv 1;
    _ ← assert (negb (String.eqb a1 "object"));
    let input := "an object-valued argument and " in
    if String.eqb a1 "object[]" then
      Ok (input +:+ "an array argument with start and end indices")
    else if is_array a1 then
      Ok (input +:+ aan a1 +:+ " {@code~" +:+ drop_last 2 a1
          +:+ "}-valued array argument with start and end indices")
    else Ok (input +:+ aan a1 +:+ " {@code~" +:+ a1 +:+ "}-valued argument").

(** The words for the result in the interface comment. *)
Definition output_text (ret : string) : string :=
  if String.eqb ret "void" then "no result"
  else if String.eqb ret "object" then "a result"
  else aan ret +:+ " {@code~" +:+ ret +:+ "}-valued result".

(** [print] of the items to the file, with the separator and the end. *)
Definition print_to (items : list string) (sep end_ : string) : string :=
  join sep items +:+ end_.

(** Everything printed to the file of one interface. *)
Definition file_content (argc : nat) (argv : list string) (ret : string)
    (name : string) (d : docvars) (p_list : list (pyval * string))
    (m : methods) (pt : string) (package : string) : result string :=
  let header := print_to [join nl license_header] " " nl in
  let pkg := print_to ["package " +:+ package +:+ ";"] " " (nl +:+ nl) in
  let imps :=
    if bool_decide (imports m = ∅) then ""
    else print_to (map (fun i => "import " +:+ i +:+ ";") (sorted_set (imports m)))
           nl (nl +:+ nl) in
  let simps :=
    if bool_decide (static_imports m = ∅) then ""
    else print_to (map (fun i => "import static " +:+ i +:+ ";")
                     (sorted_set (static_imports m)))
           nl (nl +:+ nl) in
  input ← input_text argc argv;
  let output := output_text ret in
  let doc :=
    print_to
      (javadoc ("Represents " +:+ aan (operation d) +:+ " " +:+ operation d
                +:+ " that takes " +:+ input +:+ " and produces " +:+ output +:+ ".")
         0 ["David Kleszyk <dkleszyk@gmail.com>"]
         (map (fun '(p, p_desc) => ("<" +:+ fmt p +:+ ">", p_desc)) p_list)
         None)
      nl nl in
  let decl :=
    print_to ["@FunctionalInterface"] " " nl
    +:+ print_to ["public interface " +:+ name +:+ pt] " " nl
    +:+ print_to ["{"] " " nl in
  sm ← mapM' (dict_get (static_methods m)) (sorted_keys (static_methods m));
  im ← mapM' (dict_get (instance_methods m)) (sorted_keys (instance_methods m));
  let all_methods := sm ++ im in
  let body1 :=
    String.concat "" (map (fun method => print_to method nl (nl +:+ nl))
                        (removelast all_methods)) in
  let body2 :=
    String.concat "" (map (fun method => print_to method nl nl)
                        (drop (length all_methods - 1) all_methods)) in
  Ok (header +:+ pkg +:+ imps +:+ simps +:+ doc +:+ decl +:+ body1 +:+ body2
      +:+ print_to ["}"] " " nl).

(** *** One signature *)

(** What the script derives and writes for one signature. *)
Record artifact : Type := {
  art_name : string;
  art_mthd : string;
  art_p_list : list (pyval * string);
  art_a_list : list arg;
  art_methods : methods;
  art_package : string;
  art_path : string;
  art_content : string
}.

(** The body of the innermost loop; [None] is a [continue]. *)
Definition body (argc : nat) (argv : list string) (ret : string) : result (option artifact) :=
  if ret_skip argc argv ret then Ok None
  else
    '(name, mthd) ← get_name argc argv ret;
    if bool_decide (name ∈ built_ins) then Ok None
    else
      let d := get_docvars argc argv ret in
      p_list ← get_p_list d argc argv ret;
      a_list ← get_a_list d argc argv ret;
      '(m, pt) ← gen_methods argc argv ret name mthd d p_list a_list;
      let package := get_package argv ret in
      let package_dir := path_join ([base_dir] ++ split_dot package) in
      let file_name := name +:+ ".java" in
      let file_path := path_join [package_dir; file_name] in
      content ← file_content argc argv ret name d p_list m pt package;
      Ok (Some {| art_name := name; art_mthd := mthd; art_p_list := p_list;
                  art_a_list := a_list; art_methods := m; art_package := package;
                  art_path := file_path; art_content := content |}).

(** *** The disk *)

(** What a path names on the disk: a directory, or a regular file with its
    content.  The model has no links, permissions or devices. *)
Inductive node : Type :=
  | Dir
  | File (content : string).

#[global] Instance node_eq_dec : EqDecision node.
Proof. solve_decision. Defined.

(** The directories on the way to a relative path, the nearest to the
    working directory first, and the path itself last: the prefixes of the
    path that end before a separator. *)
Fixpoint ancestors (path : string) : list string :=
  match path with
  | EmptyString => [EmptyString]
  | String c s =>
      let r := map (String c) (ancestors s) in
      if Ascii.eqb c "/" then EmptyString :: r else r
  end.

(** [os.mkdir(d)] as [os.makedirs(..., exist_ok=True)] calls it on the way
    down: a directory that exists is kept, and a regular file in the way
    raises, [FileExistsError] at the directory asked for ([last]) and
    [NotADirectoryError] above it. *)
Definition mkdir (last : bool) (fs : gmap string node) (d : string)
    : result (gmap string node) :=
  match fs !! d with
  | Some (File _) => Raise (if last then FileExistsError else NotADirectoryError)
  | _ => Ok (<[d := Dir]> fs)
  end.

Fixpoint mkdirs (fs : gmap string node) (ds : list string) : result (gmap string node) :=
  match ds with
  | [] => Ok fs
  | d :: ds' => fs' ← mkdir (bool_decide (ds' = [])) fs d; mkdirs fs' ds'
  end.

(** [os.makedirs(path, exist_ok=True)] *)
Definition makedirs (path : string) (fs : gmap string node) : result (gmap string node) :=
  mkdirs fs (ancestors path).

(** [open(path, "w")], the prints and the close, in a directory that
    exists: a directory at the path raises, a file is created or
    replaced. *)
Definition write_file (path content : string) (fs : gmap string node)
    : result (gmap string node) :=
  match fs !! path with
  | Some Dir => Raise IsADirectoryError
  | _ => Ok (<[path := File content]> fs)
  end.

(** [os.path.isdir(path)] *)
Definition isdir (fs : gmap string node) (path : string) : bool :=
  bool_decide (fs !! path = Some Dir).

(** A path lies below a directory. *)
Definition below (dir path : string) : bool := String.prefix (dir +:+ "/") path.

(** [shutil.rmtree(dir)]: the directory and all that lies below it are gone. *)
Definition rmtree (dir : string) (fs : gmap string node) : gmap string node :=
  filter (fun kv => kv.1 ≠ dir ∧ below dir kv.1 = false) fs.

(** *** The run *)

(** The names collected for the report and the disk. *)
Record state : Type := {
  names : list string;
  files : gmap string node
}.

(** [package_dir] of an artifact. *)
Definition art_dir (a : artifact) : string :=
  path_join ([base_dir] ++ split_dot (art_package a)).

(** [names.append(name)], [os.makedirs(package_dir, exist_ok=True)] and the
    write of the file. *)
Definition emit (st : state) (a : artifact) : result state :=
  fs1 ← makedirs (art_dir a) (files st);
  fs2 ← write_file (art_path a) (art_content a) fs1;
  Ok {| names := names st ++ [art_name a]; files := fs2 |}.

Definition loop_ret (argc : nat) (argv : list string) (st : state) (ret : string)
    : result state :=
  o ← body argc argv ret;
  match o with Some a => emit st a | None => Ok st end.

Definition loop_argv (argc : nat) (st : state) (argv : list string) : result state :=
  if argv_skip argc argv then Ok st
  else foldM (loop_ret argc argv) st types.

Definition loop_argc (st : state) (argc : nat) : result state :=
  t0 ← getitem types 0;
  _ ← assert (String.eqb t0 "void");
  foldM (loop_argv argc) st (product (tail types) argc).

(** The whole script, from the disk it finds: the package directory is
    removed when it is a directory. *)
Definition run (fs : gmap string node) : result state :=
  foldM loop_argc
    {| names := [];
       files := if isdir fs base_pkg_dir then rmtree base_pkg_dir fs else fs |}
    (seq 0 (4 + 1)).

(** The lines printed at the end. *)
Definition report (st : state) : list string :=
  names st ++ ["Generated " +:+ str_of_nat (length (names st)) +:+ " files."; "Done."].

End Generator.

(** ** Notions used by the statements *)

(** [k in d] on a dict *)
Definition dict_has {V : Type} (d : list (string * V)) (k : string) : bool :=
  match dict_get d k with Ok _ => true | Raise _ => false end.

(** The interface of an artifact declares the default method [k]. *)
Definition has_method (a : artifact) (k : string) : bool :=
  dict_has (instance_methods (art_methods a)) k.

(** The interface of an artifact declares the static method [k]. *)
Definition has_static_method (a : artifact) (k : string) : bool :=
  dict_has (static_methods (art_methods a)) k.

(** An iteration order of sets: some enumeration of the elements, each once. *)
Definition iteration_order (set_iter : gset string -> list string) : Prop :=
  forall X, set_iter X ≡ₚ elements X.

(** A wrapping that keeps every text on one line. *)
Definition one_line (s : string) (w : Z) : list string := [s].

(** A computation returned. *)
Definition is_ok {A : Type} (r : result A) : bool :=
  match r with Ok _ => true | Raise _ => false end.

(** What a run records of one loop body: nothing if it raised, otherwise
    the name and the path of the file, if one was written. *)
Definition outline (r : result (option artifact)) : option (option (string * string)) :=
  match r with
  | Ok o => Some ((fun a => (art_name a, art_path a)) <$> o)
  | Raise _ => None
  end.

(** The signatures that reach the loop body, in the order of the loops. *)
Definition signatures : list (nat * list string * string) :=
  flat_map (fun argc =>
    flat_map (fun argv => map (fun ret => (argc, argv, ret)) types) (kept_argv argc))
    (seq 0 (4 + 1)).

(** One iteration of the flattened loop. *)
Definition step (set_iter : gset string -> list string) (wrap : string -> Z -> list string)
    (st : state) (sig : nat * list string * string) : result state :=
  loop_ret set_iter wrap sig.1.1 sig.1.2 st sig.2.

(** The artifacts of a list of signatures. *)
Definition arts_of (set_iter : gset string -> list string) (wrap : string -> Z -> list string)
    (sigs : list (nat * list string * string)) : list artifact :=
  omap (fun sig => match body set_iter wrap sig.1.1 sig.1.2 sig.2 with
                   | Ok o => o
                   | Raise _ => None
                   end) sigs.

(** ** The Java expressions of the predicate lambdas

    The lambdas of [and], [or] and [negated] are calls of the interface
    method combined with the operators [&&], [||] and [!].  Java evaluates
    the right operand of [&&] only when the left one is true and the right
    operand of [||] only when the left one is false; [jeval] follows that
    rule and records the receivers whose method was invoked. *)
Inductive jexpr : Type :=
  | JCall (receiver : option string) (mthd args : string)
  | JNot (e : jexpr)
  | JCondAnd (e1 e2 : jexpr)
  | JCondOr (e1 e2 : jexpr).

(** The Java text of an expression. *)
Fixpoint jshow (e : jexpr) : string :=
  match e with
  | JCall None m a => m +:+ "(" +:+ a +:+ ")"
  | JCall (Some r) m a => r +:+ "." +:+ m +:+ "(" +:+ a +:+ ")"
  | JNot e => "!" +:+ jshow e
  | JCondAnd e1 e2 => jshow e1 +:+ " && " +:+ jshow e2
  | JCondOr e1 e2 => jshow e1 +:+ " || " +:+ jshow e2
  end.

(** The value of an expression and the receivers invoked, in order, when
    the method of receiver [r] returns [env r]. *)
Fixpoint jeval (env : option string -> bool) (e : jexpr) : bool * list (option string) :=
  match e with
  | JCall r _ _ => (env r, [r])
  | JNot e => let '(v, t) := jeval env e in (negb v, t)
  | JCondAnd e1 e2 =>
      let '(v1, t1) := jeval env e1 in
      if v1 then let '(v2, t2) := jeval env e2 in (v2, t1 ++ t2) else (false, t1)
  | JCondOr e1 e2 =>
      let '(v1, t1) := jeval env e1 in
      if v1 then (true, t1) else let '(v2, t2) := jeval env e2 in (v2, t1 ++ t2)
  end.

(** The expressions of the three lambdas. *)
Definition and_expr (mthd a : string) : jexpr :=
  JCondAnd (JCall None mthd a) (JCall (Some "other") mthd a).
Definition or_expr (mthd a : string) : jexpr :=
  JCondOr (JCall None mthd a) (JCall (Some "other") mthd a).
Definition negated_expr (mthd a : string) : jexpr :=
  JNot (JCall None mthd a).

(** A computation did not stop at an [assert]. *)
Definition no_assert {A : Type} (r : result A) : Prop := r <> Raise AssertionError.

(** The outcome of a computation without its value. *)
Definition void {A : Type} (r : result A) : result unit := (fun _ => tt) <$> r.

(** A chain of conditions took one of its branches. *)
Definition some_branch {A : Type} (o : option A) : bool :=
  match o with Some _ => true | None => false end.

(** The argument tuples that pass the input filters, arity by arity: no
    argument; one argument of any type; an object and any type; twice the
    same scalar; three or four objects. *)
Definition kept_all : list (nat * list string) :=
  [(0, [])]
  ++ map (fun t => (1, [t])) (tail types)
  ++ map (fun t => (2, ["object"; t])) (tail types)
  ++ map (fun t => (2, [t; t]))
       ["boolean"; "byte"; "char"; "double"; "float"; "int"; "long"; "short"]
  ++ [(3, ["object"; "object"; "object"]); (4, ["object"; "object"; "object"; "object"])].

(** What a run with the canonical iteration order and one-line comments
    records of each loop body, in order. *)
Definition outlines : list (option (option (string * string))) :=
  map (fun sig => outline (body elements one_line sig.1.1 sig.1.2 sig.2)) signatures.

(** The name and the path of every file a run writes, in order. *)
Definition emitted_files : list (string * string) := omap mjoin outlines.

(** [x in l] and "the elements of [l] are pairwise distinct", as
    computations. *)
Definition str_in (x : string) (l : list string) : bool := existsb (String.eqb x) l.

Fixpoint all_distinct (l : list string) : bool :=
  match l with
  | [] => true
  | x :: l' => negb (str_in x l') && all_distinct l'
  end.

(** The three packages and the directories that the run creates for them,
    with the directories on the way. *)
Definition packages : list string :=
  [base_pkg; base_pkg +:+ ".array"; base_pkg +:+ ".primitive"].

Definition pkg_dirs : list string :=
  flat_map (fun package => ancestors (path_join ([base_dir] ++ split_dot package))) packages.

(** The checks on a list of outlines: no body raised, 250 files are
    written, the names are pairwise distinct and not reserved, the paths are
    pairwise distinct, lie below the package directory and are not among
    the directories. *)
Definition files_check (outs : list (option (option (string * string)))) : bool :=
  let fl := omap mjoin outs in
  forallb (fun o => match o with Some _ => true | None => false end) outs
  && (length fl =? 250)
  && all_distinct fl.*1
  && forallb (fun n => negb (str_in n built_ins)) fl.*1
  && all_distinct fl.*2
  && forallb (below base_pkg_dir) fl.*2
  && forallb (fun p => negb (str_in p pkg_dirs)) fl.*2.

(** The checks on the directories: each is on the way to the package
    directory or lies below it, and the package directory is on the way to
    the directory of every package. *)
Definition dirs_check : bool :=
  forallb (fun d => str_in d (ancestors base_pkg_dir) || below base_pkg_dir d) pkg_dirs
  && forallb (fun package =>
       forallb (fun d => str_in d (ancestors (path_join ([base_dir] ++ split_dot package))))
         (ancestors base_pkg_dir))
     packages
  && forallb (fun d => negb (below base_pkg_dir d)) (ancestors base_pkg_dir).

(** The disk once the directories and the file of an artifact are in
    place, and once those of a list of artifacts are. *)
Definition written (fs : gmap string node) (a : artifact) : gmap string node :=
  <[art_path a := File (art_content a)]>
    (foldl (fun fs d => <[d := Dir]> fs) fs (ancestors (art_dir a))).

Definition write_all (fs : gmap string node) (arts : list artifact) : gmap string node :=
  foldl written fs arts.

(** A disk on which the run can write: no regular file sits at the package
    directory or on the way to it, and where the package directory is not a
    directory nothing lies below it, as on every disk. *)
Definition writable (fs : gmap string node) : Prop :=
  (∀ d c, d ∈ ancestors base_pkg_dir → fs !! d ≠ Some (File c))
  ∧ (fs !! base_pkg_dir ≠ Some Dir → ∀ p, below base_pkg_dir p = true → fs !! p = None).

(** The disk that the run starts from. *)
Definition cleared (fs : gmap string node) : gmap string node :=
  if isdir fs base_pkg_dir then rmtree base_pkg_dir fs else fs.

(** What lies on a disk lies in directories. *)
Definition well_formed (fs : gmap string node) : Prop :=
  ∀ p d, is_Some (fs !! p) → d ∈ ancestors p → d ≠ p → fs !! d = Some Dir.

(** ** Notions used by the further properties *)

(** The character [c] occurs in [s]. *)
Fixpoint has_char (c : ascii) (s : string) : bool :=
  match s with
  | EmptyString => false
  | String c' s' => Ascii.eqb c' c || has_char c s'
  end.

(** The column at which the descriptions of a block of [@param] entries
    start, as [javadoc] computes it from the names. *)
Definition param_align (parameters : list (string * string)) : nat :=
  1 + foldr Nat.max 0 (map (fun p => String.length p.1) parameters).

(** The keys of a dict after an assignment to the key [k]. *)
Definition add_key (k : string) (keys : list string) : list string :=
  if str_in k keys then keys else keys ++ [k].

(** The branch of a chain is the one that needs [java.util.function.Function]. *)
Definition after_function (o : option andThen_kind) : bool :=
  match o with Some AfterFunction => true | _ => false end.
Definition before_function (o : option compose_kind) : bool :=
  match o with Some BeforeFunction => true | _ => false end.

(** The names and the abbreviated names that one pass of the loop over the
    value or array arguments appends, for a suffix. *)
Definition loop_names (arr : bool) (suf : string) : list string :=
  if arr then ["array" +:+ suf; "fromIndex" +:+ suf; "toIndex" +:+ suf]
  else ["value" +:+ suf].
Definition loop_abbrs (arr : bool) (suf : string) : list string :=
  if arr then ["arr" +:+ suf; "from" +:+ suf; "to" +:+ suf]
  else ["val" +:+ suf].



(** * Lemmas *)

(** ** Sets of argument types *)

Lemma pyset_cons a l : pyset (a :: l) = {[a]} ∪ pyset l.
Proof. reflexivity. Qed.

Lemma pyset_single a : pyset [a] = {[a]}.
Proof. unfold pyset. simpl. apply union_empty_r_L. Qed.

Lemma elem_of_pyset a l : a ∈ pyset l ↔ a ∈ l.
Proof. unfold pyset. apply elem_of_list_to_set. Qed.

Lemma size_pyset_nil : size (pyset []) = 0.
Proof. apply size_empty. Qed.

Lemma pyset_singleton_all l x : pyset l = {[x]} → ∀ a, a ∈ l → a = x.
Proof.
  intros H a Ha. apply elem_of_pyset in Ha. rewrite H in Ha.
  by apply elem_of_singleton in Ha.
Qed.

Lemma pyset_all_singleton l x : l ≠ [] → (∀ a, a ∈ l → a = x) → pyset l = {[x]}.
Proof.
  intros Hne Hall. apply set_eq. intros a. rewrite elem_of_pyset, elem_of_singleton.
  split; [apply Hall|].
  intros ->. destruct l as [|b l]; [done|].
  rewrite (Hall b) by left. left.
Qed.

(** ** The input filters *)

Lemma argv_skip_false argc argv :
  argv_skip argc argv = false →
  ((1 <? argc) && (1 <? size (pyset argv))
     && (negb (String.eqb (item0 argv) "object") || (1 <? size (pyset (tail argv)))) = false)
  ∧ ((2 <? argc) && negb (bool_decide (pyset argv = {["object"]})) = false)
  ∧ (1 <? count_if is_array argv) = false.
Proof.
  unfold argv_skip, mixed_skip, arity_skip, arrays_skip. cbv zeta.
  destruct (_ && _ && _); [done|].
  destruct (_ && _); [done|].
  destruct (1 <? count_if _ _); done.
Qed.

(** A tuple with more than one distinct type that passes the input filters
    is an object followed by one other type. *)
Lemma hetero_shape argv :
  mixed_skip (length argv) argv = false →
  arity_skip (length argv) argv = false →
  1 < size (pyset argv) →
  ∃ a1, argv = ["object"; a1] ∧ a1 ≠ "object".
Proof.
  intros H1 H2 Hsz. unfold mixed_skip in H1. unfold arity_skip in H2. cbv zeta in H1, H2.
  destruct argv as [|a0 [|a1 [|a2 rest]]].
  - rewrite size_pyset_nil in Hsz. lia.
  - rewrite pyset_single, size_singleton in Hsz. lia.
  - clear H2.
    apply Nat.ltb_lt in Hsz as Hsz'. rewrite Hsz' in H1.
    change (1 <? length [a0; a1]) with true in H1.
    change (item0 [a0; a1]) with a0 in H1.
    rewrite !andb_true_l in H1.
    apply orb_false_iff in H1 as [Ha0 _].
    apply negb_false_iff, String.eqb_eq in Ha0. subst a0.
    exists a1. split; [done|]. intros ->.
    rewrite (pyset_all_singleton ["object"; "object"] "object") in Hsz; [|done|].
    + rewrite size_singleton in Hsz. lia.
    + intros a Ha. apply elem_of_cons in Ha as [->|Ha]; [done|].
      apply elem_of_cons in Ha as [->|Ha]; [done|]. inversion Ha.
  - change (2 <? length (a0 :: a1 :: a2 :: rest)) with true in H2.
    rewrite andb_true_l in H2.
    apply negb_false_iff, bool_decide_eq_true in H2. rewrite H2, size_singleton in Hsz. lia.
Qed.

Lemma size_pyset_one l a : size (pyset l) = 1 → a ∈ l → pyset l = {[a]}.
Proof.
  intros Hsz Ha. apply size_1_elem_of in Hsz as [x Hx].
  apply leibniz_equiv in Hx. rewrite Hx.
  apply elem_of_pyset in Ha. rewrite Hx in Ha.
  apply elem_of_singleton in Ha. by subst.
Qed.

Lemma size_pyset_pos a l : 0 < size (pyset (a :: l)).
Proof.
  destruct (size (pyset (a :: l))) eqn:E; [|lia].
  apply size_empty_inv, leibniz_equiv in E.
  assert (a ∈ pyset (a :: l)) as H by (apply elem_of_pyset; left).
  rewrite E in H. by apply not_elem_of_empty in H.
Qed.

(** ** Exceptions *)

Lemma bind_Ok {A B} (m : result A) (f : A → result B) b :
  m ≫= f = Ok b → ∃ a, m = Ok a ∧ f a = Ok b.
Proof. destruct m as [a|e]; [|done]. intros H. by exists a. Qed.

Lemma no_assert_Ok {A} (a : A) : no_assert (Ok a).
Proof. done. Qed.

Lemma no_assert_bind {A B} (m : result A) (f : A → result B) :
  no_assert m → (∀ a, m = Ok a → no_assert (f a)) → no_assert (m ≫= f).
Proof.
  destruct m as [a|e]; intros Hm Hf; [by apply Hf|].
  intros Heq. apply Hm. cbn in Heq. congruence.
Qed.

Lemma no_assert_getitem {A} (t : list A) i : no_assert (getitem t i).
Proof. unfold getitem. by destruct (t !! i). Qed.

Lemma no_assert_lower p : no_assert (lower p).
Proof. by destruct p. Qed.

Lemma no_assert_unpack1 l : no_assert (unpack1 l).
Proof. destruct l as [|a [|b l]]; done. Qed.

Lemma no_assert_mapM' {A B} (f : A → result B) l :
  (∀ x, no_assert (f x)) → no_assert (mapM' f l).
Proof.
  intros Hf. induction l as [|x l IH]; [done|]. simpl.
  apply no_assert_bind; [apply Hf|]. intros y _.
  apply no_assert_bind; [apply IH|]. done.
Qed.

Lemma no_assert_pos (numbered : bool) n :
  no_assert (if numbered then o ← getitem pos_ordinals n; Ok (fmt o +:+ " ") else Ok "").
Proof.
  destruct numbered; [|done].
  apply no_assert_bind; [apply no_assert_getitem|done].
Qed.

Lemma no_assert_a_loop op a numbered typ ns e_iter a_list :
  no_assert (a_loop op a numbered typ ns e_iter a_list).
Proof.
  revert e_iter a_list. induction ns as [|n ns IH]; intros e_iter a_list; [done|].
  cbn [a_loop].
  apply no_assert_bind; [apply no_assert_pos|]. intros pos _.
  destruct (is_array a).
  - destruct (negb (String.eqb a "object[]")); [apply IH|].
    destruct e_iter; [done|apply IH].
  - destruct (negb (String.eqb a "object[]")); [apply IH|].
    destruct e_iter; [done|apply IH].
Qed.


(** ** Dicts *)

Lemma dict_get_set {V} (d : list (string * V)) k v k' :
  dict_get (dict_set d k v) k' = if String.eqb k k' then Ok v else dict_get d k'.
Proof.
  induction d as [|[k0 v0] d IH]; [reflexivity|].
  cbn [dict_set]. destruct (String.eqb k0 k) eqn:E0.
  - apply String.eqb_eq in E0. subst k0. cbn [dict_get].
    destruct (String.eqb k k'); reflexivity.
  - cbn [dict_get]. rewrite IH.
    destruct (String.eqb k0 k') eqn:E1; [|reflexivity].
    apply String.eqb_eq in E1. subst k'.
    rewrite String.eqb_sym, E0. reflexivity.
Qed.

Lemma dict_has_set {V} (d : list (string * V)) k v k' :
  dict_has (dict_set d k v) k' = String.eqb k k' || dict_has d k'.
Proof. unfold dict_has. rewrite dict_get_set. destruct (String.eqb k k'); reflexivity. Qed.

Lemma dict_get_elem {V} (d : list (string * V)) k :
  k ∈ map fst d → is_ok (dict_get d k) = true.
Proof.
  induction d as [|[k0 v0] d IH]; intros Hk; [inversion Hk|].
  cbn [dict_get]. destruct (String.eqb k0 k) eqn:E; [reflexivity|].
  apply IH. cbn in Hk. apply elem_of_cons in Hk as [->|Hk]; [|exact Hk].
  rewrite String.eqb_refl in E. discriminate.
Qed.

Lemma is_ok_mapM' {A B} (f : A → result B) l :
  (∀ x, x ∈ l → is_ok (f x) = true) → is_ok (mapM' f l) = true.
Proof.
  induction l as [|x l IH]; intros H; [reflexivity|].
  cbn [mapM']. pose proof (H x (list_elem_of_here _ _)) as Hx.
  destruct (f x); [|discriminate]. cbn.
  assert (is_ok (mapM' f l) = true) as Hl.
  { apply IH. intros y Hy. apply H. by right. }
  destruct (mapM' f l); [reflexivity|discriminate].
Qed.

Lemma is_ok_sorted_values {V} (d : list (string * V)) :
  is_ok (mapM' (dict_get d) (sorted_keys d)) = true.
Proof.
  apply is_ok_mapM'. intros k Hk. apply dict_get_elem.
  unfold sorted_keys in Hk. by rewrite merge_sort_Permutation in Hk.
Qed.

Lemma is_ok_true {A} (r : result A) : is_ok r = true → ∃ a, r = Ok a.
Proof. destruct r as [a|]; [by exists a|discriminate]. Qed.


(** ** The method tables *)

Ltac inv_bind H :=
  let a := fresh "a" in
  let Ha := fresh "Ha" in
  apply bind_Ok in H as (a & Ha & H).

Lemma instance_set_instance k v m :
  instance_methods (set_instance k v m) = dict_set (instance_methods m) k v.
Proof. reflexivity. Qed.
Lemma static_set_instance k v m : static_methods (set_instance k v m) = static_methods m.
Proof. reflexivity. Qed.
Lemma instance_set_static k v m : instance_methods (set_static k v m) = instance_methods m.
Proof. reflexivity. Qed.
Lemma static_set_static k v m :
  static_methods (set_static k v m) = dict_set (static_methods m) k v.
Proof. reflexivity. Qed.
Lemma instance_add_import i m : instance_methods (add_import i m) = instance_methods m.
Proof. reflexivity. Qed.
Lemma static_add_import i m : static_methods (add_import i m) = static_methods m.
Proof. reflexivity. Qed.

Section Methods.

Variable wrap : string → Z → list string.
Variables (argc : nat) (argv : list string) (ret : string).
Variables (name mthd : string) (d : docvars).
Variables (p_list : list (pyval * string)) (a_list : list arg).

Lemma add_mthd_has m m' :
  add_mthd wrap argc argv ret mthd d a_list m = Ok m' →
  static_methods m' = static_methods m
  ∧ ∀ k, dict_has (instance_methods m') k
         = String.eqb mthd k || dict_has (instance_methods m) k.
Proof.
  unfold add_mthd. cbv zeta. intros H. inv_bind H.
  destruct (0 <? argc); injection H as <-; (split; [reflexivity|]);
    intros k; rewrite instance_set_instance; apply dict_has_set.
Qed.

Lemma add_identity_has m m' :
  add_identity wrap argc argv ret name d a_list m = Ok m' →
  instance_methods m' = instance_methods m
  ∧ ∀ k, dict_has (static_methods m') k
         = (has_identity argc argv ret && String.eqb "identity" k)
           || dict_has (static_methods m) k.
Proof.
  unfold add_identity. cbv zeta. intros H.
  destruct (has_identity argc argv ret); injection H as <-; (split; [reflexivity|]);
    intros k; [|reflexivity].
  rewrite static_set_static. apply dict_has_set.
Qed.

Lemma add_static_negated_has m m' :
  add_static_negated wrap argc argv ret name d a_list m = Ok m' →
  instance_methods m' = instance_methods m
  ∧ ∀ k, dict_has (static_methods m') k
         = (has_static_negated argc argv ret && String.eqb "negated" k)
           || dict_has (static_methods m) k.
Proof.
  unfold add_static_negated. cbv zeta. intros H.
  destruct (has_static_negated argc argv ret); injection H as <-; (split; [reflexivity|]);
    intros k; [|reflexivity].
  rewrite static_set_static. apply dict_has_set.
Qed.

Lemma add_andThen_has pt vpt m m' :
  add_andThen wrap argc argv ret name mthd d p_list a_list pt vpt m = Ok m' →
  static_methods m' = static_methods m
  ∧ ∀ k, dict_has (instance_methods m') k
         = (some_branch (andThen_branch argc argv ret) && String.eqb "andThen" k)
           || dict_has (instance_methods m) k.
Proof.
  unfold add_andThen. intros H.
  destruct (andThen_branch argc argv ret) as [[]|]; cbn [some_branch andb].
  - cbv zeta in H. injection H as <-. split; [reflexivity|].
    intros k. rewrite instance_set_instance. apply dict_has_set.
  - inv_bind H. inv_bind H. inv_bind H. inv_bind H. cbv zeta in H.
    destruct (argc =? 0); injection H as <-; (split; [reflexivity|]);
      intros k; rewrite instance_set_instance; apply dict_has_set.
  - inv_bind H. cbv zeta in H. injection H as <-. split; [reflexivity|].
    intros k. rewrite instance_set_instance. apply dict_has_set.
  - injection H as <-. split; reflexivity.
Qed.

Lemma add_compose_has m m' :
  add_compose wrap argc argv ret name mthd d p_list a_list m = Ok m' →
  static_methods m' = static_methods m
  ∧ ∀ k, dict_has (instance_methods m') k
         = (some_branch (compose_branch argc argv ret) && String.eqb "compose" k)
           || dict_has (instance_methods m) k.
Proof.
  unfold add_compose. intros H.
  destruct (compose_branch argc argv ret) as [[]|]; cbn [some_branch andb].
  - inv_bind H. inv_bind H. inv_bind H. inv_bind H. cbv zeta in H.
    injection H as <-. split; [reflexivity|].
    intros k. rewrite instance_set_instance. apply dict_has_set.
  - inv_bind H. cbv zeta in H. injection H as <-. split; [reflexivity|].
    intros k. rewrite instance_set_instance. apply dict_has_set.
  - injection H as <-. split; reflexivity.
Qed.

Lemma add_predicate_methods_has pt vpt m m' :
  add_predicate_methods wrap argc argv ret name mthd d a_list pt vpt m = Ok m' →
  static_methods m' = static_methods m
  ∧ ∀ k, dict_has (instance_methods m') k
         = (has_predicate_methods argc argv ret
            && (String.eqb "negated" k || String.eqb "or" k || String.eqb "and" k))
           || dict_has (instance_methods m) k.
Proof.
  unfold add_predicate_methods. intros H.
  destruct (has_predicate_methods argc argv ret); cbn [andb orb].
  - cbv zeta in H. injection H as <-. split; [reflexivity|].
    intros k.
    repeat first [rewrite instance_set_instance | rewrite dict_has_set
                 | rewrite instance_add_import].
    rewrite !orb_assoc. reflexivity.
  - injection H as <-. split; reflexivity.
Qed.

End Methods.


Lemma gen_methods_has wrap argc argv ret name mthd d p_list a_list m pt :
  gen_methods wrap argc argv ret name mthd d p_list a_list = Ok (m, pt) →
  (∀ k, dict_has (instance_methods m) k
        = String.eqb mthd k
          || (some_branch (andThen_branch argc argv ret) && String.eqb "andThen" k)
          || (some_branch (compose_branch argc argv ret) && String.eqb "compose" k)
          || (has_predicate_methods argc argv ret
              && (String.eqb "and" k || String.eqb "or" k || String.eqb "negated" k)))
  ∧ (∀ k, dict_has (static_methods m) k
          = (has_identity argc argv ret && String.eqb "identity" k)
            || (has_static_negated argc argv ret && String.eqb "negated" k)).
Proof.
  unfold gen_methods. cbv zeta. intros H.
  apply bind_Ok in H as (m1 & H1 & H).
  apply bind_Ok in H as (pt' & Hpt & H).
  apply bind_Ok in H as (vpt & Hvpt & H).
  apply bind_Ok in H as (m2 & H2 & H).
  apply bind_Ok in H as (m3 & H3 & H).
  apply bind_Ok in H as (m4 & H4 & H).
  apply bind_Ok in H as (m5 & H5 & H).
  apply bind_Ok in H as (m6 & H6 & H).
  injection H as <- <-.
  apply add_mthd_has in H1 as [S1 I1].
  apply add_identity_has in H2 as [I2 S2].
  apply add_static_negated_has in H3 as [I3 S3].
  apply add_andThen_has in H4 as [S4 I4].
  apply add_compose_has in H5 as [S5 I5].
  apply add_predicate_methods_has in H6 as [S6 I6].
  split; intros k.
  - rewrite I6, I5, I4, I3, I2, I1.
    change (dict_has [] k) with false.
    destruct (String.eqb mthd k), (some_branch (andThen_branch argc argv ret)),
      (some_branch (compose_branch argc argv ret)), (has_predicate_methods argc argv ret),
      (String.eqb "andThen" k), (String.eqb "compose" k), (String.eqb "and" k),
      (String.eqb "or" k), (String.eqb "negated" k); reflexivity.
  - rewrite S6, S5, S4, S3, S2, S1.
    change (dict_has [] k) with false.
    destruct (has_identity argc argv ret), (has_static_negated argc argv ret),
      (String.eqb "identity" k), (String.eqb "negated" k); reflexivity.
Qed.

Lemma get_name_mthd argc argv ret name mthd :
  get_name argc argv ret = Ok (name, mthd) →
  Forall (fun k => String.eqb mthd k = false) ["andThen"; "compose"; "and"; "or"; "negated"].
Proof.
  unfold get_name. cbv zeta. intros H.
  assert (∀ t, Forall (fun k => String.eqb ("applyAs" +:+ t) k = false)
                 ["andThen"; "compose"; "and"; "or"; "negated"]) as Happly.
  { intros t. repeat constructor. }
  destruct (role_of argc argv ret).
  - injection H as <- <-. repeat constructor.
  - apply bind_Ok in H as (t & _ & H). injection H as <- <-.
    destruct (negb (String.eqb ret "object")); repeat constructor.
  - apply bind_Ok in H as (n & _ & H). injection H as <- <-. repeat constructor.
  - apply bind_Ok in H as (t & _ & H). apply bind_Ok in H as (o & _ & H).
    apply bind_Ok in H as (r & _ & H). injection H as <- <-. apply Happly.
  - apply bind_Ok in H as (n & _ & H). injection H as <- <-. repeat constructor.
  - apply bind_Ok in H as (n & _ & H). injection H as <- <-. repeat constructor.
  - apply bind_Ok in H as (n & _ & H). apply bind_Ok in H as (r & _ & H).
    injection H as <- <-. apply Happly.
Qed.

Lemma body_inv si wrap argc argv ret art :
  body si wrap argc argv ret = Ok (Some art) →
  ∃ p_list a_list pt,
    ret_skip argc argv ret = false
    ∧ get_name argc argv ret = Ok (art_name art, art_mthd art)
    ∧ bool_decide (art_name art ∈ built_ins) = false
    ∧ get_p_list (get_docvars argc argv ret) argc argv ret = Ok p_list
    ∧ get_a_list si (get_docvars argc argv ret) argc argv ret = Ok a_list
    ∧ gen_methods wrap argc argv ret (art_name art) (art_mthd art)
        (get_docvars argc argv ret) p_list a_list = Ok (art_methods art, pt)
    ∧ art_package art = get_package argv ret
    ∧ art_path art
      = path_join [path_join ([base_dir] ++ split_dot (get_package argv ret));
                   art_name art +:+ ".java"]
    ∧ art_p_list art = p_list ∧ art_a_list art = a_list.
Proof.
  unfold body. intros H.
  destruct (ret_skip argc argv ret); [discriminate|].
  apply bind_Ok in H as ([name mthd] & Hn & H).
  destruct (bool_decide (name ∈ built_ins)) eqn:Hb; [discriminate|].
  cbv zeta in H.
  apply bind_Ok in H as (p_list & Hp & H).
  apply bind_Ok in H as (a_list & Ha & H).
  apply bind_Ok in H as ([m pt] & Hm & H).
  apply bind_Ok in H as (content & Hc & H).
  injection H as <-. cbn [art_name art_mthd art_methods art_package art_path art_p_list art_a_list].
  exists p_list, a_list, pt. repeat split; assumption.
Qed.


Lemma append_assoc (s1 s2 s3 : string) : (s1 +:+ s2) +:+ s3 = s1 +:+ (s2 +:+ s3).
Proof.
  induction s1 as [|c s1 IH]; [reflexivity|].
  change (String c ((s1 +:+ s2) +:+ s3) = String c (s1 +:+ (s2 +:+ s3))).
  f_equal. exact IH.
Qed.

Lemma has_method_eq si wrap argc argv ret art k :
  body si wrap argc argv ret = Ok (Some art) →
  String.eqb (art_mthd art) k = false →
  has_method art k
  = (some_branch (andThen_branch argc argv ret) && String.eqb "andThen" k)
    || (some_branch (compose_branch argc argv ret) && String.eqb "compose" k)
    || (has_predicate_methods argc argv ret
        && (String.eqb "and" k || String.eqb "or" k || String.eqb "negated" k)).
Proof.
  intros Hb Hk. apply body_inv in Hb as (p_list & a_list & pt & _ & _ & _ & _ & _ & Hm & _).
  apply gen_methods_has in Hm as [Hi _]. unfold has_method. rewrite Hi, Hk. reflexivity.
Qed.

Lemma has_static_method_eq si wrap argc argv ret art k :
  body si wrap argc argv ret = Ok (Some art) →
  has_static_method art k
  = (has_identity argc argv ret && String.eqb "identity" k)
    || (has_static_negated argc argv ret && String.eqb "negated" k).
Proof.
  intros Hb. apply body_inv in Hb as (p_list & a_list & pt & _ & _ & _ & _ & _ & Hm & _).
  apply gen_methods_has in Hm as [_ Hs]. unfold has_static_method. apply Hs.
Qed.

Lemma body_mthd_fresh si wrap argc argv ret art :
  body si wrap argc argv ret = Ok (Some art) →
  Forall (fun k => String.eqb (art_mthd art) k = false)
    ["andThen"; "compose"; "and"; "or"; "negated"].
Proof.
  intros Hb. apply body_inv in Hb as (p_list & a_list & pt & _ & Hn & _).
  by apply get_name_mthd in Hn.
Qed.

Lemma has_andThen si wrap argc argv ret art :
  body si wrap argc argv ret = Ok (Some art) →
  has_method art "andThen" = some_branch (andThen_branch argc argv ret).
Proof.
  intros Hb. pose proof (body_mthd_fresh _ _ _ _ _ _ Hb) as Hf.
  rewrite (has_method_eq _ _ _ _ _ _ _ Hb) by (by inversion Hf).
  change (String.eqb "andThen" "andThen") with true.
  change (String.eqb "compose" "andThen") with false.
  change (String.eqb "and" "andThen") with false.
  change (String.eqb "or" "andThen") with false.
  change (String.eqb "negated" "andThen") with false.
  cbn [orb]. rewrite !andb_false_r, !orb_false_r, andb_true_r. reflexivity.
Qed.

Lemma has_compose si wrap argc argv ret art :
  body si wrap argc argv ret = Ok (Some art) →
  has_method art "compose" = some_branch (compose_branch argc argv ret).
Proof.
  intros Hb. pose proof (body_mthd_fresh _ _ _ _ _ _ Hb) as Hf.
  rewrite (has_method_eq _ _ _ _ _ _ _ Hb)
    by (inversion Hf as [|? ? _ Hf1]; by inversion Hf1).
  change (String.eqb "andThen" "compose") with false.
  change (String.eqb "compose" "compose") with true.
  change (String.eqb "and" "compose") with false.
  change (String.eqb "or" "compose") with false.
  change (String.eqb "negated" "compose") with false.
  cbn [orb]. rewrite !andb_false_r, !orb_false_r, andb_true_r. reflexivity.
Qed.

Lemma has_predicate_key si wrap argc argv ret art k :
  k ∈ ["and"; "or"; "negated"] →
  body si wrap argc argv ret = Ok (Some art) →
  has_method art k = has_predicate_methods argc argv ret.
Proof.
  intros Hk Hb. pose proof (body_mthd_fresh _ _ _ _ _ _ Hb) as Hf.
  rewrite Forall_forall in Hf.
  rewrite (has_method_eq _ _ _ _ _ _ _ Hb).
  2:{ apply Hf. apply elem_of_cons in Hk as [->|Hk]; [set_unfold; tauto|].
      apply elem_of_cons in Hk as [->|Hk]; [set_unfold; tauto|].
      apply elem_of_cons in Hk as [->|Hk]; [set_unfold; tauto|]. inversion Hk. }
  apply elem_of_cons in Hk as [->|Hk]; [|apply elem_of_cons in Hk as [->|Hk];
     [|apply elem_of_cons in Hk as [->|Hk]; [|inversion Hk]]].
  - change (String.eqb "andThen" "and") with false.
    change (String.eqb "compose" "and") with false.
    change (String.eqb "and" "and") with true.
    cbn [orb]. rewrite !andb_false_r, andb_true_r. reflexivity.
  - change (String.eqb "andThen" "or") with false.
    change (String.eqb "compose" "or") with false.
    change (String.eqb "and" "or") with false.
    change (String.eqb "or" "or") with true.
    cbn [orb]. rewrite !andb_false_r, andb_true_r. reflexivity.
  - change (String.eqb "andThen" "negated") with false.
    change (String.eqb "compose" "negated") with false.
    change (String.eqb "and" "negated") with false.
    change (String.eqb "or" "negated") with false.
    change (String.eqb "negated" "negated") with true.
    cbn [orb]. rewrite !andb_false_r, andb_true_r. reflexivity.
Qed.


Lemma body_passes_ret_filter si wrap argc argv ret art :
  body si wrap argc argv ret = Ok (Some art) → ret_skip argc argv ret = false.
Proof. unfold body. destruct (ret_skip argc argv ret); [discriminate|reflexivity]. Qed.

Lemma no_assert_get_a_list si d argc argv ret :
  length argv = argc →
  mixed_skip argc argv = false → arity_skip argc argv = false →
  no_assert (get_a_list si d argc argv ret).
Proof.
  intros Hlen Hmix Hari. subst argc. unfold get_a_list. cbv zeta.
  destruct argv as [|a0 argv']; [apply no_assert_Ok|].
  change (length (a0 :: argv') =? 0) with false. cbv iota.
  destruct (bool_decide (pyset (a0 :: argv') = {["object"]})) eqn:Hobj.
  { apply no_assert_mapM'. intros [p n].
    apply no_assert_bind; [apply no_assert_pos|]. intros pos _.
    apply no_assert_bind; [apply no_assert_lower|]. intros lp _. apply no_assert_Ok. }
  apply bool_decide_eq_false in Hobj.
  destruct (bool_decide (length (a0 :: argv') ∈ [1; 2])
            && (size (pyset (a0 :: argv')) =? 1) && negb (any_array (a0 :: argv'))) eqn:Hhom.
  { apply andb_true_iff in Hhom as [Hhom _]. apply andb_true_iff in Hhom as [Hc _].
    apply bool_decide_eq_true in Hc.
    destruct (length (a0 :: argv') =? 1) eqn:H1.
    - apply no_assert_bind; [apply no_assert_getitem|]. intros; apply no_assert_Ok.
    - apply Nat.eqb_neq in H1.
      assert (length (a0 :: argv') = 2) as H2.
      { apply elem_of_cons in Hc as [Hc|Hc]; [lia|].
        apply elem_of_cons in Hc as [Hc|Hc]; [exact Hc|]. inversion Hc. }
      rewrite H2. change (2 =? 2) with true. 
      apply no_assert_bind; [done|]. intros _ _.
      apply no_assert_bind; [apply no_assert_getitem|]. intros ? _.
      apply no_assert_bind; [apply no_assert_getitem|]. intros ? _.
      apply no_assert_bind; [apply no_assert_getitem|]. intros ? _.
      apply no_assert_bind; [apply no_assert_getitem|]. intros ? _.
      apply no_assert_Ok. }
  clear Hhom.
  change (getitem (a0 :: argv') 0) with (Ok a0). cbn [mbind result_bind].
  destruct (String.eqb a0 "object") eqn:Ha0.
  - apply String.eqb_eq in Ha0. subst a0.
    assert (1 < size (pyset ("object" :: argv'))) as Hsz.
    { pose proof (size_pyset_pos "object" argv') as Hpos.
      destruct (decide (size (pyset ("object" :: argv')) = 1)) as [E|E]; [|lia].
      exfalso. apply Hobj. apply size_pyset_one; [exact E|left]. }
    destruct (hetero_shape _ Hmix Hari Hsz) as (a1 & Heq & Hne).
    injection Heq as ->.
    change (length ["object"; a1] =? 2) with true.
    change (getitem ["object"; a1] 1) with (Ok a1).
    cbn [assert mbind result_bind].
    apply String.eqb_neq in Hne. rewrite Hne. cbn [negb assert mbind result_bind].
    apply no_assert_bind; [apply no_assert_getitem|]. intros ? _.
    apply no_assert_a_loop.
  - assert (size (pyset (a0 :: argv')) = 1) as Hsz.
    { pose proof (size_pyset_pos a0 argv') as Hpos.
      destruct (decide (size (pyset (a0 :: argv')) = 1)) as [E|E]; [exact E|].
      exfalso. destruct (hetero_shape _ Hmix Hari) as (a1 & Heq & _); [lia|].
      injection Heq as -> _. apply String.eqb_neq in Ha0. by apply Ha0. }
    rewrite Hsz. change (1 =? 1) with true. cbn [assert mbind result_bind].
    apply no_assert_bind; [apply no_assert_unpack1|]. intros a _.
    apply no_assert_a_loop.
Qed.

Lemma no_assert_input_text argc argv :
  length argv = argc →
  mixed_skip argc argv = false → arity_skip argc argv = false →
  no_assert (input_text argc argv).
Proof.
  intros Hlen Hmix Hari. subst argc. unfold input_text. cbv zeta.
  destruct argv as [|a0 argv']; [apply no_assert_Ok|].
  change (length (a0 :: argv') =? 0) with false. cbv iota.
  change (getitem (a0 :: argv') 0) with (Ok a0). cbn [mbind result_bind].
  destruct (length (a0 :: argv') =? 1).
  { destruct (String.eqb a0 "object"); [done|].
    destruct (String.eqb a0 "object[]"); [done|].
    destruct (is_array a0); done. }
  destruct (size (pyset (a0 :: argv')) =? 1) eqn:Hsz.
  { apply no_assert_bind; [apply no_assert_getitem|]. intros c _.
    destruct (String.eqb a0 "object"); [done|].
    destruct (String.eqb a0 "object[]"); [done|].
    destruct (is_array a0); done. }
  apply Nat.eqb_neq in Hsz.
  pose proof (size_pyset_pos a0 argv') as Hpos.
  destruct (hetero_shape _ Hmix Hari) as (a1 & Heq & Hne); [lia|].
  injection Heq as -> ->.
  change (length ["object"; a1] =? 2) with true.
  change (getitem ["object"; a1] 1) with (Ok a1).
  change (String.eqb "object" "object") with true.
  cbn [assert mbind result_bind].
  apply String.eqb_neq in Hne. rewrite Hne. cbn [negb assert mbind result_bind].
  destruct (String.eqb a1 "object[]"); [done|].
  destruct (is_array a1); done.
Qed.

Lemma and_lmbd_jshow mthd a_list :
  and_lmbd mthd a_list
  = par_a_text a_list +:+ " ->$" +:+ jshow (and_expr mthd (a_text a_list)).
Proof. unfold and_lmbd, and_expr. cbn [jshow]. rewrite !append_assoc. reflexivity. Qed.

Lemma or_lmbd_jshow mthd a_list :
  or_lmbd mthd a_list
  = par_a_text a_list +:+ " ->$" +:+ jshow (or_expr mthd (a_text a_list)).
Proof. unfold or_lmbd, or_expr. cbn [jshow]. rewrite !append_assoc. reflexivity. Qed.

Lemma negated_lmbd_jshow mthd a_list :
  negated_lmbd mthd a_list
  = par_a_text a_list +:+ " ->$" +:+ jshow (negated_expr mthd (a_text a_list)).
Proof. reflexivity. Qed.

Local Opaque javadoc.

Lemma add_predicate_methods_bodies wrap argc argv ret name mthd d a_list pt vpt m m' :
  add_predicate_methods wrap argc argv ret name mthd d a_list pt vpt m = Ok m' →
  has_predicate_methods argc argv ret = true →
  (∃ pre, dict_get (instance_methods m') "and"
          = Ok (pre ++ [return_line (and_lmbd mthd a_list); "    }"]))
  ∧ (∃ pre, dict_get (instance_methods m') "or"
            = Ok (pre ++ [return_line (or_lmbd mthd a_list); "    }"]))
  ∧ (∃ pre, dict_get (instance_methods m') "negated"
            = Ok (pre ++ [return_line (negated_lmbd mthd a_list); "    }"])).
Proof.
  unfold add_predicate_methods. intros H Hp. rewrite Hp in H. cbv zeta in H.
  injection H as <-.
  repeat first [rewrite instance_set_instance | rewrite instance_add_import].
  split; [|split].
  - rewrite !dict_get_set.
    change (String.eqb "negated" "and") with false.
    change (String.eqb "or" "and") with false.
    change (String.eqb "and" "and") with true. cbv iota.
    eexists (_ ++ [_; _; _; _]). rewrite <- app_assoc. reflexivity.
  - rewrite !dict_get_set.
    change (String.eqb "negated" "or") with false.
    change (String.eqb "or" "or") with true. cbv iota.
    eexists (_ ++ [_; _; _; _]). rewrite <- app_assoc. reflexivity.
  - rewrite !dict_get_set.
    change (String.eqb "negated" "negated") with true. cbv iota.
    eexists (_ ++ [_; _]). rewrite <- app_assoc. reflexivity.
Qed.

Local Transparent javadoc.

Lemma gen_methods_predicate_bodies wrap argc argv ret name mthd d p_list a_list m pt :
  gen_methods wrap argc argv ret name mthd d p_list a_list = Ok (m, pt) →
  has_predicate_methods argc argv ret = true →
  (∃ pre, dict_get (instance_methods m) "and"
          = Ok (pre ++ [return_line (and_lmbd mthd a_list); "    }"]))
  ∧ (∃ pre, dict_get (instance_methods m) "or"
            = Ok (pre ++ [return_line (or_lmbd mthd a_list); "    }"]))
  ∧ (∃ pre, dict_get (instance_methods m) "negated"
            = Ok (pre ++ [return_line (negated_lmbd mthd a_list); "    }"])).
Proof.
  unfold gen_methods. cbv zeta. intros H Hp.
  apply bind_Ok in H as (m1 & H1 & H).
  apply bind_Ok in H as (pt' & Hpt & H).
  apply bind_Ok in H as (vpt & Hvpt & H).
  apply bind_Ok in H as (m2 & H2 & H).
  apply bind_Ok in H as (m3 & H3 & H).
  apply bind_Ok in H as (m4 & H4 & H).
  apply bind_Ok in H as (m5 & H5 & H).
  apply bind_Ok in H as (m6 & H6 & H).
  injection H as <- <-.
  by apply (add_predicate_methods_bodies _ _ _ _ _ _ _ _ _ _ _ _ H6).
Qed.

Lemma has_predicate_methods_iff argc argv ret :
  has_predicate_methods argc argv ret = true
  ↔ 0 < argc ∧ ret = "boolean" ∧ pyset argv ≠ {["boolean"]}.
Proof.
  unfold has_predicate_methods.
  rewrite !andb_true_iff, Nat.ltb_lt, String.eqb_eq, negb_true_iff, bool_decide_eq_false.
  tauto.
Qed.

Lemma outline_emitted r n p :
  outline r = Some (Some (n, p)) →
  ∃ art, r = Ok (Some art) ∧ art_name art = n ∧ art_path art = p.
Proof.
  destruct r as [[art|]|]; try discriminate. cbn. intros H. injection H as <- <-.
  by exists art.
Qed.

(** ** Independence of the iteration order of sets *)

Lemma unpack1_perm l1 l2 : l1 ≡ₚ l2 → unpack1 l1 = unpack1 l2.
Proof.
  intros H. pose proof (Permutation_length H) as Hlen.
  destruct l1 as [|a [|b l1]], l2 as [|a' [|b' l2]]; try discriminate; try reflexivity.
  apply Permutation_singleton_r in H. injection H as ->. reflexivity.
Qed.

Lemma sorted_set_order si X :
  iteration_order si → sorted_set si X = sorted_set elements X.
Proof.
  intros Hsi. unfold sorted_set.
  apply (StronglySorted_unique String.le).
  - apply StronglySorted_merge_sort; apply _.
  - apply StronglySorted_merge_sort; apply _.
  - rewrite !merge_sort_Permutation. apply Hsi.
Qed.

Lemma get_a_list_order si d argc argv ret :
  iteration_order si →
  get_a_list si d argc argv ret = get_a_list elements d argc argv ret.
Proof.
  intros Hsi. unfold get_a_list.
  rewrite (unpack1_perm _ _ (Hsi (pyset argv))). reflexivity.
Qed.

Lemma file_content_order si wrap argc argv ret name d p_list m pt package :
  iteration_order si →
  file_content si wrap argc argv ret name d p_list m pt package
  = file_content elements wrap argc argv ret name d p_list m pt package.
Proof.
  intros Hsi. unfold file_content.
  rewrite !(sorted_set_order si) by exact Hsi. reflexivity.
Qed.

Lemma body_order si wrap argc argv ret :
  iteration_order si →
  body si wrap argc argv ret = body elements wrap argc argv ret.
Proof.
  intros Hsi. unfold body.
  destruct (ret_skip argc argv ret); [reflexivity|].
  destruct (get_name argc argv ret) as [[name mthd]|]; [|reflexivity].
  cbn [mbind result_bind].
  destruct (bool_decide (name ∈ built_ins)); [reflexivity|]. cbv zeta.
  destruct (get_p_list _ argc argv ret) as [p_list|]; [|reflexivity].
  cbn [mbind result_bind].
  rewrite (get_a_list_order si) by exact Hsi.
  destruct (get_a_list elements _ argc argv ret) as [a_list|]; [|reflexivity].
  cbn [mbind result_bind].
  destruct (gen_methods wrap argc argv ret name mthd _ p_list a_list) as [[m pt]|];
    [|reflexivity].
  cbn [mbind result_bind].
  rewrite (file_content_order si) by exact Hsi. reflexivity.
Qed.

(** ** Independence of the wrapping of the comments *)

Lemma bind_void_cong {A A' B C} (r : result A) (r' : result A')
    (f : A → result B) (f' : A' → result B) (g : B → C) :
  void r = void r' →
  (∀ a a', g <$> f a = g <$> f' a') →
  g <$> (r ≫= f) = g <$> (r' ≫= f').
Proof.
  destruct r as [a|e], r' as [a'|e']; cbn; intros Hv Hf; try discriminate.
  - apply Hf.
  - congruence.
Qed.

Section Wrap.

Variables wrap wrap' : string → Z → list string.
Variables (argc : nat) (argv : list string) (ret : string).
Variables (name mthd : string) (d : docvars).
Variables (p_list : list (pyval * string)) (a_list : list arg).

Lemma add_mthd_void m m' :
  void (add_mthd wrap argc argv ret mthd d a_list m)
  = void (add_mthd wrap' argc argv ret mthd d a_list m').
Proof.
  unfold add_mthd. cbv zeta.
  destruct (if String.eqb ret "object" then getitem out_params 1 else Ok (Some ret));
    [|reflexivity].
  cbn [mbind result_bind]. destruct (0 <? argc); reflexivity.
Qed.

Lemma add_identity_void m m' :
  void (add_identity wrap argc argv ret name d a_list m)
  = void (add_identity wrap' argc argv ret name d a_list m').
Proof. unfold add_identity. destruct (has_identity argc argv ret); reflexivity. Qed.

Lemma add_static_negated_void m m' :
  void (add_static_negated wrap argc argv ret name d a_list m)
  = void (add_static_negated wrap' argc argv ret name d a_list m').
Proof.
  unfold add_static_negated. destruct (has_static_negated argc argv ret); reflexivity.
Qed.

Lemma add_andThen_void pt pt' vpt vpt' m m' :
  void (add_andThen wrap argc argv ret name mthd d p_list a_list pt vpt m)
  = void (add_andThen wrap' argc argv ret name mthd d p_list a_list pt' vpt' m').
Proof.
  unfold add_andThen. destruct (andThen_branch argc argv ret) as [[]|]; try reflexivity.
  - destruct (getitem out_params 1) as [o1|]; [|reflexivity]. cbn [mbind result_bind].
    destruct (getitem out_params 2) as [o2|]; [|reflexivity]. cbn [mbind result_bind].
    destruct (assert _); [|reflexivity]. cbn [mbind result_bind].
    destruct (str_join _ _); [|reflexivity]. cbn [mbind result_bind].
    destruct (argc =? 0); reflexivity.
  - destruct (assert _); reflexivity.
Qed.

Lemma add_compose_void m m' :
  void (add_compose wrap argc argv ret name mthd d p_list a_list m)
  = void (add_compose wrap' argc argv ret name mthd d p_list a_list m').
Proof.
  unfold add_compose. destruct (compose_branch argc argv ret) as [[]|]; try reflexivity.
  - destruct (getitem in_params 1) as [i1|]; [|reflexivity]. cbn [mbind result_bind].
    destruct (getitem in_params 2) as [i2|]; [|reflexivity]. cbn [mbind result_bind].
    destruct (assert _); [|reflexivity]. cbn [mbind result_bind].
    destruct (str_join _ _); reflexivity.
  - destruct (assert _); reflexivity.
Qed.

Lemma add_predicate_methods_void pt pt' vpt vpt' m m' :
  void (add_predicate_methods wrap argc argv ret name mthd d a_list pt vpt m)
  = void (add_predicate_methods wrap' argc argv ret name mthd d a_list pt' vpt' m').
Proof.
  unfold add_predicate_methods. destruct (has_predicate_methods argc argv ret); reflexivity.
Qed.

Lemma gen_methods_wrap :
  snd <$> gen_methods wrap argc argv ret name mthd d p_list a_list
  = snd <$> gen_methods wrap' argc argv ret name mthd d p_list a_list.
Proof.
  unfold gen_methods. cbv zeta.
  apply bind_void_cong; [apply add_mthd_void|]. intros m1 m1'.
  destruct (p_text p_list) as [pt|]; [|reflexivity]. cbn [mbind result_bind].
  destruct (var_p_text p_list) as [vpt|]; [|reflexivity]. cbn [mbind result_bind].
  apply bind_void_cong; [apply add_identity_void|]. intros m2 m2'.
  apply bind_void_cong; [apply add_static_negated_void|]. intros m3 m3'.
  apply bind_void_cong; [apply add_andThen_void|]. intros m4 m4'.
  apply bind_void_cong; [apply add_compose_void|]. intros m5 m5'.
  apply bind_void_cong; [apply add_predicate_methods_void|]. intros m6 m6'.
  reflexivity.
Qed.

End Wrap.

Lemma file_content_ok si wrap argc argv ret name d p_list m pt package :
  is_ok (file_content si wrap argc argv ret name d p_list m pt package)
  = is_ok (input_text argc argv).
Proof.
  unfold file_content. cbv zeta.
  destruct (input_text argc argv) as [input|]; [|reflexivity]. cbn [mbind result_bind].
  destruct (is_ok_true _ (is_ok_sorted_values (static_methods m))) as [sm ->].
  cbn [mbind result_bind].
  destruct (is_ok_true _ (is_ok_sorted_values (instance_methods m))) as [im ->].
  reflexivity.
Qed.

Lemma body_outline_wrap wrap argc argv ret :
  outline (body elements wrap argc argv ret) = outline (body elements one_line argc argv ret).
Proof.
  unfold body.
  destruct (ret_skip argc argv ret); [reflexivity|].
  destruct (get_name argc argv ret) as [[name mthd]|]; [|reflexivity].
  cbn [mbind result_bind].
  destruct (bool_decide (name ∈ built_ins)); [reflexivity|]. cbv zeta.
  destruct (get_p_list _ argc argv ret) as [p_list|]; [|reflexivity].
  cbn [mbind result_bind].
  destruct (get_a_list elements _ argc argv ret) as [a_list|]; [|reflexivity].
  cbn [mbind result_bind].
  pose proof (gen_methods_wrap wrap one_line argc argv ret name mthd
                (get_docvars argc argv ret) p_list a_list) as E.
  destruct (gen_methods wrap argc argv ret name mthd _ p_list a_list) as [[m pt]|],
    (gen_methods one_line argc argv ret name mthd _ p_list a_list) as [[m' pt']|];
    cbn in E; try discriminate; [|reflexivity].
  injection E as ->. cbn [mbind result_bind].
  pose proof (file_content_ok elements wrap argc argv ret name
                (get_docvars argc argv ret) p_list m pt' (get_package argv ret)) as E1.
  pose proof (file_content_ok elements one_line argc argv ret name
                (get_docvars argc argv ret) p_list m' pt' (get_package argv ret)) as E2.
  destruct (file_content elements wrap _ _ _ _ _ _ m _ _),
    (file_content elements one_line _ _ _ _ _ _ m' _ _);
    cbn in E1, E2; try reflexivity; congruence.
Qed.

Lemma body_outline si wrap argc argv ret :
  iteration_order si →
  outline (body si wrap argc argv ret) = outline (body elements one_line argc argv ret).
Proof. intros Hsi. rewrite (body_order si) by exact Hsi. apply body_outline_wrap. Qed.

(** ** The enumeration *)

Lemma product_length {A} (l : list A) n x : In x (product l n) → length x = n.
Proof.
  revert x. induction n as [|n IH]; intros x Hx.
  - destruct Hx as [<-|[]]. reflexivity.
  - cbn [product] in Hx. apply in_flat_map in Hx as (a & _ & Hx).
    apply in_map_iff in Hx as (y & <- & Hy). cbn. f_equal. by apply IH.
Qed.

Lemma filter_forallb_product {A} (q : A → bool) l n :
  List.filter (forallb q) (product l n) = product (List.filter q l) n.
Proof.
  induction n as [|n IH]; [reflexivity|]. cbn [product].
  assert (∀ x L, List.filter (forallb q) (map (cons x) L)
                 = if q x then map (cons x) (List.filter (forallb q) L) else []) as Hmap.
  { intros x L. induction L as [|y L IHL]; [by destruct (q x)|].
    cbn [map List.filter forallb]. rewrite IHL. destruct (q x); cbn [andb]; [|reflexivity].
    destruct (forallb q y); reflexivity. }
  rewrite <- IH. clear IH. generalize (product l n) as P. intros P.
  induction l as [|a l IHl]; [reflexivity|].
  cbn [flat_map List.filter]. rewrite List.filter_app, IHl, Hmap.
  destruct (q a); reflexivity.
Qed.

Lemma forallb_object_pyset argv :
  argv ≠ [] → forallb (fun a => String.eqb a "object") argv = true →
  pyset argv = {["object"]} ∧ count_if is_array argv = 0.
Proof.
  intros Hne H. rewrite forallb_forall in H. split.
  - apply pyset_all_singleton; [exact Hne|]. intros a Ha.
    apply String.eqb_eq, H. by apply list_elem_of_In.
  - clear Hne. unfold count_if. induction argv as [|a argv IH]; [reflexivity|].
    cbn [List.filter].
    assert (a = "object") as -> by (apply String.eqb_eq, H; by left).
    change (is_array "object") with false. cbv iota. apply IH.
    intros x Hx. apply H. by right.
Qed.

Lemma kept_many_objects n argv :
  2 < n → length argv = n →
  negb (argv_skip n argv) = forallb (fun a => String.eqb a "object") argv.
Proof.
  intros Hn Hlen. destruct (argv_skip n argv) eqn:E; cbn [negb].
  - destruct (forallb _ argv) eqn:F; [|reflexivity].
    apply forallb_object_pyset in F as [Hs Hc]; [|intros ->; cbn in Hlen; lia].
    unfold argv_skip, mixed_skip, arity_skip, arrays_skip in E. cbv zeta in E. rewrite Hs, Hc, size_singleton in E.
    change (1 <? 1) with false in E. rewrite andb_false_r in E. cbn [andb] in E.
    rewrite bool_decide_eq_true_2 in E by reflexivity.
    cbn [negb] in E. rewrite andb_false_r in E. discriminate.
  - apply argv_skip_false in E as (_ & H2 & _).
    apply Nat.ltb_lt in Hn. rewrite Hn in H2. rewrite andb_true_l in H2.
    apply negb_false_iff, bool_decide_eq_true in H2.
    symmetry. apply forallb_forall. intros a Ha. apply String.eqb_eq.
    apply (pyset_singleton_all argv); [exact H2|]. by apply list_elem_of_In.
Qed.

Lemma kept_argv_objects n :
  2 < n → kept_argv n = product (List.filter (fun a => String.eqb a "object") (tail types)) n.
Proof.
  intros Hn. unfold kept_argv. rewrite <- filter_forallb_product.
  apply List.filter_ext_in. intros argv Hin.
  apply kept_many_objects; [exact Hn|]. by apply product_length in Hin.
Qed.

Lemma kept_argv_0 : kept_argv 0 = [[]].
Proof. vm_compute. reflexivity. Qed.

Lemma kept_argv_1 : kept_argv 1 = map (fun t => [t]) (tail types).
Proof. vm_compute. reflexivity. Qed.

Lemma kept_argv_2 :
  kept_argv 2
  = map (fun t => ["object"; t]) (tail types)
    ++ map (fun t => [t; t])
         ["boolean"; "byte"; "char"; "double"; "float"; "int"; "long"; "short"].
Proof. vm_compute. reflexivity. Qed.

Lemma kept_argv_3 : kept_argv 3 = [["object"; "object"; "object"]].
Proof. rewrite kept_argv_objects by lia. vm_compute. reflexivity. Qed.

Lemma kept_argv_4 : kept_argv 4 = [["object"; "object"; "object"; "object"]].
Proof. rewrite kept_argv_objects by lia. vm_compute. reflexivity. Qed.

Lemma signatures_eq :
  signatures
  = flat_map (fun ka => map (fun ret => (ka.1, ka.2, ret)) types) kept_all.
Proof.
  unfold signatures. cbn [seq flat_map Nat.add].
  rewrite kept_argv_0, kept_argv_1, kept_argv_2, kept_argv_3, kept_argv_4.
  vm_compute. reflexivity.
Qed.

(** ** The loops *)

Lemma foldM_app {A S} (f : S → A → result S) s l1 l2 :
  foldM f s (l1 ++ l2) = s' ← foldM f s l1; foldM f s' l2.
Proof.
  revert s. induction l1 as [|x l1 IH]; intros s; [reflexivity|].
  cbn [app foldM]. destruct (f s x) as [s'|e]; [|reflexivity]. cbn [mbind result_bind].
  apply IH.
Qed.

Lemma foldM_flat_map {A B S} (f : S → B → result S) (g : A → list B) s l :
  foldM f s (flat_map g l) = foldM (fun s x => foldM f s (g x)) s l.
Proof.
  revert s. induction l as [|x l IH]; intros s; [reflexivity|].
  cbn [flat_map foldM]. rewrite foldM_app.
  destruct (foldM f s (g x)) as [s'|e]; [|reflexivity]. cbn [mbind result_bind]. apply IH.
Qed.

Lemma foldM_map {A B S} (f : S → B → result S) (g : A → B) s l :
  foldM f s (map g l) = foldM (fun s x => f s (g x)) s l.
Proof.
  revert s. induction l as [|x l IH]; intros s; [reflexivity|].
  cbn [map foldM]. destruct (f s (g x)) as [s'|e]; [|reflexivity]. apply IH.
Qed.

Lemma foldM_ext {A S} (f g : S → A → result S) s l :
  (∀ s x, f s x = g s x) → foldM f s l = foldM g s l.
Proof.
  intros H. revert s. induction l as [|x l IH]; intros s; [reflexivity|].
  cbn [foldM]. rewrite H. destruct (g s x); [apply IH|reflexivity].
Qed.

Section Run.

Variable si : gset string → list string.
Variable wrap : string → Z → list string.

Lemma loop_argv_filter argc st l :
  foldM (loop_argv si wrap argc) st l
  = foldM (fun st argv => foldM (loop_ret si wrap argc argv) st types) st
      (List.filter (fun argv => negb (argv_skip argc argv)) l).
Proof.
  revert st. induction l as [|argv l IH]; intros st; [reflexivity|].
  cbn [List.filter].
  change (foldM (loop_argv si wrap argc) st (argv :: l))
    with (s' ← (if argv_skip argc argv then Ok st
                else foldM (loop_ret si wrap argc argv) st types);
          foldM (loop_argv si wrap argc) s' l).
  destruct (argv_skip argc argv); cbn [negb mbind result_bind]; [apply IH|].
  cbn [foldM]. destruct (foldM (loop_ret si wrap argc argv) st types);
    cbn [mbind result_bind]; [apply IH|reflexivity].
Qed.

Lemma loop_argc_eq st argc :
  loop_argc si wrap st argc
  = foldM (step si wrap) st
      (flat_map (fun argv => map (fun ret => (argc, argv, ret)) types) (kept_argv argc)).
Proof.
  unfold loop_argc.
  change (getitem types 0) with (Ok (A:=string) "void"). cbn [mbind result_bind].
  change (String.eqb "void" "void") with true. cbn [assert mbind result_bind].
  rewrite loop_argv_filter, foldM_flat_map. fold (kept_argv argc).
  apply foldM_ext. intros s argv. rewrite foldM_map. reflexivity.
Qed.

Lemma run_flat fs :
  run si wrap fs
  = foldM (step si wrap) {| names := []; files := cleared fs |} signatures.
Proof.
  unfold run, signatures. rewrite foldM_flat_map.
  apply foldM_ext. intros s argc. apply loop_argc_eq.
Qed.

Lemma arts_of_cons sig sigs :
  arts_of si wrap (sig :: sigs)
  = match body si wrap sig.1.1 sig.1.2 sig.2 with
    | Ok (Some a) => a :: arts_of si wrap sigs
    | _ => arts_of si wrap sigs
    end.
Proof.
  unfold arts_of. cbn [omap list_omap].
  destruct (body si wrap sig.1.1 sig.1.2 sig.2) as [[a|]|]; reflexivity.
Qed.

Lemma foldM_step sigs st :
  Forall (fun sig => is_ok (body si wrap sig.1.1 sig.1.2 sig.2) = true) sigs →
  foldM (step si wrap) st sigs = foldM emit st (arts_of si wrap sigs).
Proof.
  revert st. induction sigs as [|sig sigs IH]; intros st H; [reflexivity|].
  inversion H as [|? ? Hsig Hrest]; subst.
  rewrite arts_of_cons.
  change (foldM (step si wrap) st (sig :: sigs))
    with (s' ← (o ← body si wrap sig.1.1 sig.1.2 sig.2;
                match o with Some a => emit st a | None => Ok st end);
          foldM (step si wrap) s' sigs).
  destruct (body si wrap sig.1.1 sig.1.2 sig.2) as [[art|]|]; [| |discriminate];
    cbn [mbind result_bind foldM].
  - destruct (emit st art); cbn [mbind result_bind]; [by apply IH|reflexivity].
  - by apply IH.
Qed.

Lemma arts_of_outline sigs :
  map (fun a => (art_name a, art_path a)) (arts_of si wrap sigs)
  = omap mjoin (map (fun sig => outline (body si wrap sig.1.1 sig.1.2 sig.2)) sigs).
Proof.
  induction sigs as [|sig sigs IH]; [reflexivity|].
  rewrite arts_of_cons. cbn [map omap list_omap].
  destruct (body si wrap sig.1.1 sig.1.2 sig.2) as [[art|]|]; cbn; by rewrite ?IH.
Qed.

End Run.

Lemma outlines_check : files_check outlines = true.
Proof. unfold outlines. rewrite signatures_eq. vm_compute. reflexivity. Qed.

(** ** The disk *)

Lemma lookup_rmtree dir (fs : gmap string node) p :
  rmtree dir fs !! p
  = if decide (p = dir) then None else if below dir p then None else fs !! p.
Proof.
  unfold rmtree. destruct (decide (p = dir)) as [->|Hne].
  { apply map_lookup_filter_None. right. intros x _ [Hp _]. by apply Hp. }
  destruct (below dir p) eqn:E.
  - apply map_lookup_filter_None. right. intros x _ [_ Hp].
    change (below dir p = false) in Hp. rewrite E in Hp. discriminate.
  - destruct (fs !! p) as [x|] eqn:F.
    + apply map_lookup_filter_Some. split; [exact F|]. split; [exact Hne|exact E].
    + apply map_lookup_filter_None. by left.
Qed.

Lemma lookup_cleared_below fs p :
  writable fs → below base_pkg_dir p = true → cleared fs !! p = None.
Proof.
  intros [_ Hw] Hp. unfold cleared, isdir.
  destruct (decide (fs !! base_pkg_dir = Some Dir)) as [Hd|Hd].
  - rewrite (bool_decide_eq_true_2 _ Hd), lookup_rmtree, Hp. by destruct (decide _).
  - rewrite (bool_decide_eq_false_2 _ Hd). by apply Hw.
Qed.

Lemma lookup_cleared_other fs p :
  below base_pkg_dir p = false → p ≠ base_pkg_dir → cleared fs !! p = fs !! p.
Proof.
  intros Hp Hne. unfold cleared. destruct (isdir fs base_pkg_dir); [|reflexivity].
  rewrite lookup_rmtree, Hp. by destruct (decide _).
Qed.

Lemma lookup_cleared_file fs p c :
  fs !! p ≠ Some (File c) → cleared fs !! p ≠ Some (File c).
Proof.
  intros H. unfold cleared. destruct (isdir fs base_pkg_dir); [|exact H].
  rewrite lookup_rmtree. destruct (decide _); [discriminate|].
  destruct (below base_pkg_dir p); [discriminate|exact H].
Qed.

Lemma lookup_made (fs : gmap string node) ds p :
  foldl (fun fs d => <[d := Dir]> fs) fs ds !! p
  = if decide (p ∈ ds) then Some Dir else fs !! p.
Proof.
  revert fs. induction ds as [|d ds IH]; intros fs; cbn [foldl].
  - destruct (decide (p ∈ [])) as [H|_]; [inversion H|reflexivity].
  - rewrite IH. destruct (decide (p ∈ ds)) as [H|H].
    + rewrite decide_True by (by right). reflexivity.
    + destruct (decide (p = d)) as [->|Hne].
      * rewrite decide_True by (by left). apply lookup_insert_eq.
      * rewrite decide_False by (intros [?|?]%elem_of_cons; contradiction).
        by apply lookup_insert_ne.
Qed.

Lemma mkdirs_ok (fs : gmap string node) ds :
  (∀ d c, d ∈ ds → fs !! d ≠ Some (File c)) →
  mkdirs fs ds = Ok (foldl (fun fs d => <[d := Dir]> fs) fs ds).
Proof.
  revert fs. induction ds as [|d ds IH]; intros fs H; [reflexivity|].
  cbn [mkdirs foldl]. unfold mkdir.
  assert (Hd : ∀ c, fs !! d ≠ Some (File c)) by (intros c; apply H; by left).
  destruct (fs !! d) as [[|c]|] eqn:E; [| by destruct (Hd c) |];
    cbn [mbind result_bind]; apply IH; intros d' c' Hd';
    (destruct (decide (d' = d)) as [->|Hne];
      [by rewrite lookup_insert_eq|rewrite lookup_insert_ne by done; apply H; by right]).
Qed.

Lemma lookup_written fs a p :
  written fs a !! p
  = if decide (p = art_path a) then Some (File (art_content a))
    else if decide (p ∈ ancestors (art_dir a)) then Some Dir else fs !! p.
Proof.
  unfold written. destruct (decide (p = art_path a)) as [->|Hne].
  - apply lookup_insert_eq.
  - rewrite lookup_insert_ne by done. apply lookup_made.
Qed.

Lemma emit_ok st a :
  (∀ d c, d ∈ ancestors (art_dir a) → files st !! d ≠ Some (File c)) →
  art_path a ∉ ancestors (art_dir a) →
  files st !! art_path a ≠ Some Dir →
  emit st a = Ok {| names := names st ++ [art_name a]; files := written (files st) a |}.
Proof.
  intros Hd Hp Hf. unfold emit, makedirs. rewrite (mkdirs_ok _ _ Hd).
  cbn [mbind result_bind]. unfold write_file.
  rewrite lookup_made, decide_False by exact Hp.
  destruct (files st !! art_path a) as [[|c]|]; [by destruct Hf|reflexivity..].
Qed.

Lemma foldM_emit (D : list string) arts st :
  Forall (fun a => (∀ d, d ∈ ancestors (art_dir a) → d ∈ D) ∧ art_path a ∉ D) arts →
  (∀ d c, d ∈ D → files st !! d ≠ Some (File c)) →
  Forall (fun a => files st !! art_path a ≠ Some Dir) arts →
  foldM emit st arts
  = Ok {| names := names st ++ map art_name arts; files := write_all (files st) arts |}.
Proof.
  unfold write_all. revert st.
  induction arts as [|a arts IH]; intros st HD Hdirs Hpaths.
  - cbn [foldM map foldl]. rewrite app_nil_r. by destruct st.
  - inversion HD as [|? ? [Ha1 Ha2] HD']; subst.
    inversion Hpaths as [|? ? Hp1 Hp']; subst.
    cbn [foldM]. rewrite emit_ok; [|by intros d c Hd; apply Hdirs, Ha1| |exact Hp1].
    2:{ intros H. by apply Ha2, Ha1. }
    cbn [mbind result_bind]. rewrite IH; [|exact HD'| |].
    + cbn [names files map foldl]. by rewrite <- app_assoc.
    + intros d c Hd. cbn [files]. rewrite lookup_written.
      destruct (decide (d = art_path a)) as [->|_]; [by destruct Ha2|].
      destruct (decide _); [discriminate|by apply Hdirs].
    + cbn [files]. apply Forall_forall. intros b Hb. rewrite lookup_written.
      destruct (decide (art_path b = art_path a)) as [_|_]; [discriminate|].
      destruct (decide (art_path b ∈ ancestors (art_dir a))) as [Hin|_].
      * apply Ha1 in Hin. rewrite Forall_forall in HD'. by destruct (HD' b Hb) as [_ []].
      * rewrite Forall_forall in Hp'. by apply Hp'.
Qed.

Lemma lookup_write_all_untouched fs arts p :
  Forall (fun a => p ≠ art_path a ∧ p ∉ ancestors (art_dir a)) arts →
  write_all fs arts !! p = fs !! p.
Proof.
  unfold write_all. intros H. revert fs.
  induction H as [|a arts [H1 H2] _ IH]; intros fs; [reflexivity|].
  cbn [foldl]. rewrite IH, lookup_written. by rewrite !decide_False.
Qed.

Lemma lookup_write_all_agree fs1 fs2 arts p :
  fs1 !! p = fs2 !! p → write_all fs1 arts !! p = write_all fs2 arts !! p.
Proof.
  unfold write_all. revert fs1 fs2.
  induction arts as [|a arts IH]; intros fs1 fs2 H; [exact H|].
  cbn [foldl]. apply IH. rewrite !lookup_written. by rewrite H.
Qed.

Lemma lookup_write_all_touched fs1 fs2 arts p :
  Exists (fun a => p = art_path a ∨ p ∈ ancestors (art_dir a)) arts →
  write_all fs1 arts !! p = write_all fs2 arts !! p.
Proof.
  intros H. revert fs1 fs2.
  induction H as [a arts H|a arts _ IH]; intros fs1 fs2.
  - apply (lookup_write_all_agree (written fs1 a) (written fs2 a)).
    rewrite !lookup_written. destruct (decide (p = art_path a)); [reflexivity|].
    destruct (decide (p ∈ ancestors (art_dir a))); [reflexivity|]. by destruct H.
  - apply (IH (written fs1 a) (written fs2 a)).
Qed.

Lemma lookup_write_all_dir fs arts d :
  Forall (fun a => d ≠ art_path a) arts →
  Exists (fun a => d ∈ ancestors (art_dir a)) arts →
  write_all fs arts !! d = Some Dir.
Proof.
  intros Hp He. rewrite (lookup_write_all_touched fs (<[d := Dir]> fs)).
  2:{ eapply Exists_impl; [exact He|]. intros a Ha. by right. }
  clear He. unfold write_all. generalize (lookup_insert_eq fs d Dir).
  generalize (<[d := Dir]> fs). intros fs'. revert fs'.
  induction Hp as [|a arts Ha _ IH]; intros fs' H; [exact H|].
  cbn [foldl]. apply IH. rewrite lookup_written, decide_False by exact Ha.
  by destruct (decide _).
Qed.

(** ** The whole run *)

Lemma str_in_elem x l : str_in x l = true ↔ x ∈ l.
Proof.
  unfold str_in. rewrite existsb_exists. split.
  - intros (y & Hy & E). apply String.eqb_eq in E. subst y. by apply list_elem_of_In.
  - intros H. exists x. split; [by apply list_elem_of_In|apply String.eqb_refl].
Qed.

Lemma all_distinct_NoDup l : all_distinct l = true → NoDup l.
Proof.
  induction l as [|x l IH]; [constructor|]. cbn [all_distinct].
  rewrite andb_true_iff, negb_true_iff. intros [Hx Hl].
  constructor; [|by apply IH]. intros H. apply str_in_elem in H. congruence.
Qed.

Lemma files_check_true outs :
  files_check outs = true →
  Forall (fun o => o ≠ None) outs
  ∧ length (omap mjoin outs) = 250
  ∧ NoDup (omap mjoin outs).*1
  ∧ Forall (fun n => n ∉ built_ins) (omap mjoin outs).*1
  ∧ NoDup (omap mjoin outs).*2
  ∧ Forall (fun p => below base_pkg_dir p = true) (omap mjoin outs).*2
  ∧ Forall (fun p => p ∉ pkg_dirs) (omap mjoin outs).*2.
Proof.
  unfold files_check. cbv zeta. rewrite !andb_true_iff.
  intros ((((((H1 & H0) & H2) & H3) & H4) & H5) & H6).
  split; [|split; [|split; [|split; [|split; [|split]]]]].
  - apply Forall_forall. intros o Ho. rewrite forallb_forall in H1.
    apply list_elem_of_In in Ho. apply H1 in Ho. by destruct o.
  - by apply Nat.eqb_eq in H0.
  - by apply all_distinct_NoDup.
  - apply Forall_forall. intros n Hn. rewrite forallb_forall in H3.
    apply list_elem_of_In in Hn. apply H3 in Hn.
    apply negb_true_iff in Hn. intros Hin. apply str_in_elem in Hin. congruence.
  - by apply all_distinct_NoDup.
  - apply Forall_forall. intros p Hp. rewrite forallb_forall in H5.
    apply list_elem_of_In in Hp. by apply H5.
  - apply Forall_forall. intros p Hp. rewrite forallb_forall in H6.
    apply list_elem_of_In in Hp. apply H6 in Hp.
    apply negb_true_iff in Hp. intros Hin. apply str_in_elem in Hin. congruence.
Qed.

Lemma emitted_files_ok :
  Forall (fun o => o ≠ None) outlines
  ∧ length emitted_files = 250
  ∧ NoDup emitted_files.*1
  ∧ Forall (fun n => n ∉ built_ins) emitted_files.*1
  ∧ NoDup emitted_files.*2
  ∧ Forall (fun p => below base_pkg_dir p = true) emitted_files.*2
  ∧ Forall (fun p => p ∉ pkg_dirs) emitted_files.*2.
Proof. exact (files_check_true outlines outlines_check). Qed.

Lemma arts_of_order si wrap sigs :
  iteration_order si → arts_of si wrap sigs = arts_of elements wrap sigs.
Proof.
  intros Hsi. induction sigs as [|sig sigs IH]; [reflexivity|].
  rewrite !arts_of_cons, IH, (body_order si) by exact Hsi. reflexivity.
Qed.

Lemma outlines_wrap wrap :
  map (fun sig => outline (body elements wrap sig.1.1 sig.1.2 sig.2)) signatures = outlines.
Proof.
  unfold outlines. apply map_ext. intros sig. apply body_outline_wrap.
Qed.

Lemma arts_files wrap :
  map (fun a => (art_name a, art_path a)) (arts_of elements wrap signatures) = emitted_files.
Proof. rewrite arts_of_outline, outlines_wrap. reflexivity. Qed.

Lemma bodies_ok wrap :
  Forall (fun sig => is_ok (body elements wrap sig.1.1 sig.1.2 sig.2) = true) signatures.
Proof.
  pose proof emitted_files_ok as (Hok & _).
  rewrite <- (outlines_wrap wrap) in Hok. rewrite Forall_map in Hok.
  eapply Forall_impl; [exact Hok|]. intros sig H. cbn in H.
  by destruct (body elements wrap sig.1.1 sig.1.2 sig.2).
Qed.

Lemma arts_names wrap : map art_name (arts_of elements wrap signatures) = emitted_files.*1.
Proof. rewrite <- (arts_files wrap), <- list_fmap_compose. reflexivity. Qed.

Lemma arts_paths wrap : map art_path (arts_of elements wrap signatures) = emitted_files.*2.
Proof. rewrite <- (arts_files wrap), <- list_fmap_compose. reflexivity. Qed.

Lemma arts_below wrap :
  Forall (fun a => below base_pkg_dir (art_path a) = true) (arts_of elements wrap signatures).
Proof.
  pose proof emitted_files_ok as (_ & _ & _ & _ & _ & Hb & _).
  rewrite <- (arts_paths wrap) in Hb.
  by rewrite Forall_map in Hb.
Qed.

Lemma arts_not_dirs wrap :
  Forall (fun a => art_path a ∉ pkg_dirs) (arts_of elements wrap signatures).
Proof.
  pose proof emitted_files_ok as (_ & _ & _ & _ & _ & _ & Hb).
  rewrite <- (arts_paths wrap) in Hb.
  by rewrite Forall_map in Hb.
Qed.

Lemma get_package_cases argv ret : get_package argv ret ∈ packages.
Proof.
  unfold get_package, packages.
  destruct (_ && _); [by left|]. destruct (any_array argv); [right; by left|].
  right. right. by left.
Qed.

Lemma arts_dirs si wrap sigs :
  Forall (fun a => ∀ d, d ∈ ancestors (art_dir a) → d ∈ pkg_dirs) (arts_of si wrap sigs).
Proof.
  induction sigs as [|sig sigs IH]; [constructor|].
  rewrite arts_of_cons.
  destruct (body si wrap sig.1.1 sig.1.2 sig.2) as [[a|]|] eqn:Hb; [|exact IH..].
  constructor; [|exact IH]. intros d Hd.
  apply body_inv in Hb as (_ & _ & _ & _ & _ & _ & _ & _ & _ & Hpkg & _).
  unfold pkg_dirs. apply list_elem_of_In, in_flat_map.
  exists (art_package a). split; [|by apply list_elem_of_In].
  apply list_elem_of_In. rewrite Hpkg. apply get_package_cases.
Qed.

Lemma dirs_check_true : dirs_check = true.
Proof. vm_compute. reflexivity. Qed.

Lemma pkg_dirs_cases d :
  d ∈ pkg_dirs → d ∈ ancestors base_pkg_dir ∨ below base_pkg_dir d = true.
Proof.
  intros Hd. pose proof dirs_check_true as H. unfold dirs_check in H.
  apply andb_true_iff in H as [H _]. apply andb_true_iff in H as [H _].
  rewrite forallb_forall in H. apply list_elem_of_In, H, orb_true_iff in Hd as [Hd|Hd].
  - left. by apply str_in_elem.
  - by right.
Qed.

Lemma ancestors_base_pkg_dir package d :
  package ∈ packages → d ∈ ancestors base_pkg_dir →
  d ∈ ancestors (path_join ([base_dir] ++ split_dot package)).
Proof.
  intros Hp Hd. pose proof dirs_check_true as H. unfold dirs_check in H.
  apply andb_true_iff in H as [H _]. apply andb_true_iff in H as [_ H].
  rewrite forallb_forall in H. apply list_elem_of_In, H in Hp.
  rewrite forallb_forall in Hp. apply list_elem_of_In, Hp in Hd. by apply str_in_elem.
Qed.

Lemma ancestors_not_below d : d ∈ ancestors base_pkg_dir → below base_pkg_dir d = false.
Proof.
  intros Hd. pose proof dirs_check_true as H. unfold dirs_check in H.
  apply andb_true_iff in H as [_ H].
  rewrite forallb_forall in H. apply list_elem_of_In, H in Hd. by apply negb_true_iff.
Qed.

Lemma run_spec si wrap fs :
  iteration_order si →
  writable fs →
  run si wrap fs
  = Ok {| names := map art_name (arts_of elements wrap signatures);
          files := write_all (cleared fs) (arts_of elements wrap signatures) |}.
Proof.
  intros Hsi Hw. rewrite run_flat, foldM_step.
  2:{ eapply Forall_impl; [apply (bodies_ok wrap)|]. intros sig H. cbn.
      by rewrite (body_order si). }
  rewrite (arts_of_order si) by exact Hsi.
  rewrite (foldM_emit pkg_dirs); [reflexivity| | |]; cbn [files].
  - pose proof (arts_dirs elements wrap signatures) as H1.
    pose proof (arts_not_dirs wrap) as H2.
    rewrite Forall_forall in H1, H2. apply Forall_forall. intros a Ha.
    split; [by apply H1|by apply H2].
  - intros d c [Hd|Hd]%pkg_dirs_cases.
    + apply lookup_cleared_file. by apply Hw.
    + by rewrite lookup_cleared_below.
  - eapply Forall_impl; [apply (arts_below wrap)|]. intros a Ha. cbn in Ha.
    by rewrite lookup_cleared_below.
Qed.

Lemma arts_base si wrap sigs :
  Forall (fun a => ∀ d, d ∈ ancestors base_pkg_dir → d ∈ ancestors (art_dir a))
    (arts_of si wrap sigs).
Proof.
  induction sigs as [|sig sigs IH]; [constructor|].
  rewrite arts_of_cons.
  destruct (body si wrap sig.1.1 sig.1.2 sig.2) as [[a|]|] eqn:Hb; [|exact IH..].
  constructor; [|exact IH]. intros d Hd.
  apply body_inv in Hb as (_ & _ & _ & _ & _ & _ & _ & _ & _ & Hpkg & _).
  apply ancestors_base_pkg_dir; [|exact Hd]. rewrite Hpkg. apply get_package_cases.
Qed.

Lemma arts_nonempty wrap : arts_of elements wrap signatures ≠ [].
Proof.
  pose proof emitted_files_ok as (_ & Hl & _). intros E.
  pose proof (arts_names wrap) as Hn. rewrite E in Hn.
  apply (f_equal length) in Hn. rewrite (length_fmap fst emitted_files), Hl in Hn.
  discriminate.
Qed.

Lemma arts_NoDup wrap : NoDup (map art_path (arts_of elements wrap signatures)).
Proof. rewrite arts_paths. by destruct emitted_files_ok as (_ & _ & _ & _ & H & _). Qed.

Lemma base_pkg_dir_ancestor : base_pkg_dir ∈ ancestors base_pkg_dir.
Proof. apply str_in_elem. vm_compute. reflexivity. Qed.

Lemma lookup_cleared_dir fs p :
  fs !! base_pkg_dir = Some Dir →
  cleared fs !! p
  = if decide (p = base_pkg_dir) then None
    else if below base_pkg_dir p then None else fs !! p.
Proof.
  intros H. unfold cleared, isdir. rewrite (bool_decide_eq_true_2 _ H). apply lookup_rmtree.
Qed.

(** The disk after the files of a list of artifacts that lie below the
    package directory, in the directories of the packages. *)
Section Written.

Variable arts : list artifact.
Hypothesis Hbelow : Forall (fun a => below base_pkg_dir (art_path a) = true) arts.
Hypothesis Hdirs : Forall (fun a => ∀ d, d ∈ ancestors (art_dir a) → d ∈ pkg_dirs) arts.
Hypothesis Hbase :
  Forall (fun a => ∀ d, d ∈ ancestors base_pkg_dir → d ∈ ancestors (art_dir a)) arts.
Hypothesis Hnot : Forall (fun a => art_path a ∉ pkg_dirs) arts.
Hypothesis Hne : arts ≠ [].
Hypothesis HND : NoDup (map art_path arts).

Lemma written_below fs1 fs2 p :
  writable fs1 → writable fs2 → below base_pkg_dir p = true →
  write_all (cleared fs1) arts !! p = write_all (cleared fs2) arts !! p.
Proof.
  intros H1 H2 Hp. apply lookup_write_all_agree. by rewrite !lookup_cleared_below.
Qed.

Lemma written_dir fs d :
  d ∈ ancestors base_pkg_dir → write_all fs arts !! d = Some Dir.
Proof.
  intros Hd. apply lookup_write_all_dir.
  - eapply Forall_impl; [exact Hbelow|]. intros a Ha ->.
    change (below base_pkg_dir (art_path a) = true) in Ha.
    rewrite (ancestors_not_below _ Hd) in Ha. discriminate.
  - destruct arts as [|a arts'] eqn:E; [done|]. apply Exists_cons_hd.
    inversion Hbase as [|? ? Ha _]. by apply Ha.
Qed.

Lemma written_untouched fs p :
  below base_pkg_dir p = false → p ∉ ancestors base_pkg_dir →
  write_all fs arts !! p = fs !! p.
Proof.
  intros Hp Hn. apply lookup_write_all_untouched.
  rewrite Forall_forall in Hbelow, Hdirs. apply Forall_forall. intros a Ha. split.
  - intros ->. rewrite (Hbelow a Ha) in Hp. discriminate.
  - intros Hin. apply (Hdirs a Ha), pkg_dirs_cases in Hin as [Hin|Hin]; [done|congruence].
Qed.

Lemma written_content fs a :
  a ∈ arts → write_all fs arts !! art_path a = Some (File (art_content a)).
Proof.
  clear Hbelow Hbase Hne. unfold write_all. revert fs.
  induction arts as [|b arts' IH]; intros fs Ha; [inversion Ha|].
  inversion Hdirs as [|? ? Hd1 Hd']; subst. inversion Hnot as [|? ? Hn1 Hn']; subst.
  inversion HND as [|? ? Hp1 Hp']; subst. cbn [foldl].
  destruct (decide (art_path a = art_path b)) as [E|E].
  - fold (write_all (written fs b) arts'). rewrite lookup_write_all_untouched.
    + rewrite lookup_written, decide_True by exact E.
      apply elem_of_cons in Ha as [->|Ha]; [reflexivity|].
      destruct Hp1. rewrite <- E. by apply list_elem_of_fmap_2.
    + rewrite Forall_forall in Hd', Hn'. apply Forall_forall. intros c Hc. split.
      * intros E'. destruct Hp1. rewrite <- E, E'. by apply list_elem_of_fmap_2.
      * intros Hin. apply (Hd' c Hc) in Hin. rewrite E in Hin. contradiction.
  - apply elem_of_cons in Ha as [->|Ha]; [done|]. by apply IH.
Qed.

Lemma written_writable fs : writable (write_all fs arts).
Proof.
  split.
  - intros d c Hd. by rewrite written_dir.
  - intros H. destruct H. apply written_dir, base_pkg_dir_ancestor.
Qed.

Lemma written_again fs :
  writable fs →
  write_all (cleared (write_all (cleared fs) arts)) arts = write_all (cleared fs) arts.
Proof.
  intros Hw. apply map_eq. intros p.
  destruct (decide (Exists (fun a => p = art_path a ∨ p ∈ ancestors (art_dir a)) arts))
    as [He|He].
  { by apply lookup_write_all_touched. }
  apply Forall_Exists_neg in He.
  assert (Hu : Forall (fun a => p ≠ art_path a ∧ p ∉ ancestors (art_dir a)) arts).
  { eapply Forall_impl; [exact He|]. intros a Ha. cbn in Ha. tauto. }
  rewrite !lookup_write_all_untouched by exact Hu.
  rewrite (lookup_cleared_dir (write_all (cleared fs) arts))
    by apply written_dir, base_pkg_dir_ancestor.
  destruct (decide (p = base_pkg_dir)) as [->|Hne'].
  { exfalso. destruct arts as [|a arts'] eqn:E; [done|].
    inversion Hu as [|? ? [_ Hn] _]. inversion Hbase as [|? ? Ha _].
    apply Hn, Ha, base_pkg_dir_ancestor. }
  destruct (below base_pkg_dir p) eqn:Hp.
  - by rewrite lookup_cleared_below.
  - by apply lookup_write_all_untouched.
Qed.

End Written.

(** On a disk where what exists lies in directories, the second condition
    of [writable] holds by itself. *)
Lemma below_ancestor dir p : below dir p = true → dir ∈ ancestors p ∧ dir ≠ p.
Proof.
  unfold below. revert p. induction dir as [|c dir IH]; intros p H.
  - destruct p as [|c' p]; [discriminate|].
    change ("" +:+ "/") with "/" in H. cbn [String.prefix] in H.
    destruct (ascii_dec "/" c') as [<-|]; [|discriminate].
    split; [|discriminate]. cbn [ancestors]. change (Ascii.eqb "/" "/") with true.
    by left.
  - destruct p as [|c' p]; [discriminate|].
    change (String c dir +:+ "/") with (String c (dir +:+ "/")) in H.
    cbn [String.prefix] in H. destruct (ascii_dec c c') as [<-|]; [|discriminate].
    apply IH in H as [H1 H2]. split; [|congruence].
    cbn [ancestors]. cbv zeta.
    assert (String c dir ∈ map (String c) (ancestors p))
      by (by apply (list_elem_of_fmap_2 (String c))).
    destruct (Ascii.eqb c "/"); [by right|done].
Qed.

Lemma well_formed_writable fs :
  well_formed fs →
  (∀ d c, d ∈ ancestors base_pkg_dir → fs !! d ≠ Some (File c)) →
  writable fs.
Proof.
  intros Hwf Hf. split; [exact Hf|]. intros Hd p Hp.
  destruct (fs !! p) as [x|] eqn:E; [|reflexivity]. destruct Hd.
  apply below_ancestor in Hp as [H1 H2]. apply (Hwf p); [by rewrite E|exact H1|exact H2].
Qed.

(** * The claims *)

(** C6. A candidate whose argument tuple holds two or more array-segment
    types is rejected by the input filters, whatever its arity, its other
    argument types and the return type: the loop over the return types is
    not entered and the state of the run (names and files) is unchanged. *)
Theorem two_arrays_rejected si wrap argc argv st :
  2 ≤ count_if is_array argv →
  argv_skip argc argv = true ∧ loop_argv si wrap argc st argv = Ok st.
Proof.
  intros Hc.
  assert (argv_skip argc argv = true) as Hskip.
  { unfold argv_skip, mixed_skip, arity_skip, arrays_skip. cbv zeta.
    destruct (_ && _ && _); [reflexivity|].
    destruct (_ && _); [reflexivity|].
    apply Nat.ltb_lt in Hc. rewrite Hc. reflexivity. }
  split; [exact Hskip|]. unfold loop_argv. rewrite Hskip. reflexivity.
Qed.

(** C6 at the tuple (int[], byte[]). *)
Lemma two_arrays_rejected_witness :
  argv_skip 2 ["int[]"; "byte[]"] = true
  ∧ loop_argv elements (fun s _ => [s]) 2 {| names := []; files := ∅ |} ["int[]"; "byte[]"]
    = Ok {| names := []; files := ∅ |}.
Proof. apply two_arrays_rejected. vm_compute. lia. Defined.

(** C7. No artifact is written for an array-segment return type; and when
    an argument is an array segment, the return type of a written artifact
    is object, boolean, void, int, long or double, or its array form is one
    of the argument types. *)
Theorem array_return_rules si wrap argc argv ret art :
  body si wrap argc argv ret = Ok (Some art) →
  is_array ret = false
  ∧ (any_array argv = true →
     ret ∈ ["object"; "boolean"; "void"; "int"; "long"; "double"] ∨ ret +:+ "[]" ∈ argv).
Proof.
  intros Hb. apply body_passes_ret_filter in Hb.
  unfold ret_skip in Hb. cbv zeta in Hb.
  destruct (is_array ret); [discriminate|]. split; [reflexivity|].
  intros Ha. rewrite Ha in Hb.
  apply andb_false_iff in Hb as [Hb|Hb]; apply negb_false_iff, bool_decide_eq_true in Hb;
    [left|right]; exact Hb.
Qed.

(** C7 at (object, byte[]) -> byte. *)
Lemma array_return_rules_witness :
  is_array "byte" = false
  ∧ (any_array ["object"; "byte[]"] = true →
     "byte" ∈ ["object"; "boolean"; "void"; "int"; "long"; "double"]
     ∨ "byte" +:+ "[]" ∈ ["object"; "byte[]"]).
Proof.
  eapply (array_return_rules elements (fun s _ => [s]) 2 ["object"; "byte[]"] "byte").
  vm_compute. reflexivity.
Defined.

(** C10. An argument tuple that passes the two argument-shape filters and
    has more than one distinct type has exactly two arguments, the first is
    object and the second is not; hence neither the argument-list branch
    nor the documentation branch stops at one of its assert statements. *)
Theorem hetero_args_shape si d argc argv ret :
  length argv = argc →
  mixed_skip argc argv = false →
  arity_skip argc argv = false →
  (1 < size (pyset argv) →
   argc = 2 ∧ argv !! 0 = Some "object" ∧ ∃ a1, argv !! 1 = Some a1 ∧ a1 ≠ "object")
  ∧ get_a_list si d argc argv ret ≠ Raise AssertionError
  ∧ input_text argc argv ≠ Raise AssertionError.
Proof.
  intros Hlen Hmix Hari. split; [|split].
  - intros Hsz. subst argc.
    destruct (hetero_shape _ Hmix Hari Hsz) as (a1 & -> & Hne).
    split; [reflexivity|]. split; [reflexivity|]. exists a1. split; [reflexivity|exact Hne].
  - by apply no_assert_get_a_list.
  - by apply no_assert_input_text.
Qed.

(** C10 at the tuple (object, int). *)
Lemma hetero_args_shape_witness :
  (2 = 2 ∧ ["object"; "int"] !! 0 = Some "object"
   ∧ ∃ a1, ["object"; "int"] !! 1 = Some a1 ∧ a1 ≠ "object")
  ∧ get_a_list elements (get_docvars 2 ["object"; "int"] "long") 2 ["object"; "int"] "long"
    ≠ Raise AssertionError
  ∧ input_text 2 ["object"; "int"] ≠ Raise AssertionError.
Proof.
  destruct (hetero_args_shape elements (get_docvars 2 ["object"; "int"] "long")
              2 ["object"; "int"] "long") as (H1 & H2 & H3);
    [reflexivity|vm_compute; reflexivity|vm_compute; reflexivity|].
  split; [|split; assumption].
  apply H1. vm_compute. lia.
Defined.

(** C4 fails as stated: ByteSupplier is written, is a supplier whose
    return type is not void, and has no andThen method. *)
Lemma ByteSupplier_without_andThen :
  ∃ art, body elements one_line 0 [] "byte" = Ok (Some art)
         ∧ art_name art = "ByteSupplier"
         ∧ role_of 0 [] "byte" = Supplier
         ∧ "byte" ≠ "void"
         ∧ has_method art "andThen" = false.
Proof.
  eexists. split; [vm_compute; reflexivity|].
  split; [reflexivity|]. split; [reflexivity|]. split; [discriminate|reflexivity].
Qed.

(** C4, amended. A written artifact has the andThen method exactly when
    the return type is void, or the return type is object, or there is one
    argument and its type is the return type. *)
Theorem andThen_admission si wrap argc argv ret art :
  body si wrap argc argv ret = Ok (Some art) →
  has_method art "andThen" = true
  ↔ ret = "void" ∨ ret = "object" ∨ (argc = 1 ∧ pyset argv = {[ret]}).
Proof.
  intros Hb. rewrite (has_andThen _ _ _ _ _ _ Hb). unfold andThen_branch.
  destruct (String.eqb ret "void") eqn:Ev.
  { apply String.eqb_eq in Ev. split; [intros _; by left|reflexivity]. }
  destruct (String.eqb ret "object") eqn:Eo.
  { apply String.eqb_eq in Eo. split; [intros _; right; by left|reflexivity]. }
  apply String.eqb_neq in Ev, Eo.
  destruct ((argc =? 1) && bool_decide (pyset argv = {[ret]})) eqn:Eu.
  - apply andb_true_iff in Eu as [E1 E2].
    apply Nat.eqb_eq in E1. apply bool_decide_eq_true in E2.
    split; [intros _; right; right; by split|reflexivity].
  - split; [discriminate|]. intros [H|[H|[H1 H2]]]; [by destruct Ev|by destruct Eo|].
    apply Nat.eqb_eq in H1. apply (bool_decide_eq_true_2 _) in H2.
    rewrite H1, H2 in Eu. discriminate.
Qed.

(** C4 amended, at byte -> byte. *)
Lemma andThen_admission_witness :
  ∃ art, body elements one_line 1 ["byte"] "byte" = Ok (Some art)
         ∧ (has_method art "andThen" = true
            ↔ "byte" = "void" ∨ "byte" = "object" ∨ (1 = 1 ∧ pyset ["byte"] = {["byte"]})).
Proof.
  eexists. split; [vm_compute; reflexivity|].
  eapply (andThen_admission elements one_line). vm_compute. reflexivity.
Defined.

(** C5 fails as stated: ByteBinaryOperator is written, is an operator, and
    has two arguments. *)
Lemma ByteBinaryOperator_has_two_arguments :
  ∃ art, body elements one_line 2 ["byte"; "byte"] "byte" = Ok (Some art)
         ∧ art_name art = "ByteBinaryOperator"
         ∧ role_of 2 ["byte"; "byte"] "byte" = Operator
         ∧ 2 ≠ 1.
Proof.
  eexists. split; [vm_compute; reflexivity|].
  split; [reflexivity|]. split; [reflexivity|]. lia.
Qed.

(** C5, amended. For a written artifact that is an operator, there are one
    or two arguments, every argument type is the return type, and the
    return type is neither object nor void; for one that is a predicate,
    there is an argument, the return type is boolean and the set of
    argument types is not {boolean}. *)
Theorem role_consistency si wrap argc argv ret art :
  length argv = argc →
  argv_skip argc argv = false →
  body si wrap argc argv ret = Ok (Some art) →
  (role_of argc argv ret = Operator →
   (argc = 1 ∨ argc = 2) ∧ ret ≠ "object" ∧ ret ≠ "void" ∧ ∀ a, a ∈ argv → a = ret)
  ∧ (role_of argc argv ret = Predicate →
     0 < argc ∧ ret = "boolean" ∧ pyset argv ≠ {["boolean"]}).
Proof.
  intros Hlen Hskip _. apply argv_skip_false in Hskip as (_ & H2 & _).
  unfold role_of. cbv zeta.
  destruct (argc =? 0) eqn:E0.
  { split; destruct (String.eqb ret "void"); discriminate. }
  apply Nat.eqb_neq in E0.
  destruct (String.eqb ret "void") eqn:Ev; [split; discriminate|].
  apply String.eqb_neq in Ev.
  destruct (negb (String.eqb ret "object") && bool_decide ({[ret]} = pyset argv)) eqn:Eop.
  - split; [intros _|discriminate].
    apply andb_true_iff in Eop as [Eo Es].
    apply negb_true_iff, String.eqb_neq in Eo. apply bool_decide_eq_true in Es.
    split; [|split; [exact Eo|split; [exact Ev|]]].
    + destruct (2 <? argc) eqn:E2; [|apply Nat.ltb_ge in E2; lia].
      rewrite andb_true_l in H2. apply negb_false_iff, bool_decide_eq_true in H2.
      rewrite <- Es in H2. apply singleton_inj in H2. by destruct Eo.
    + intros a Ha. apply (pyset_singleton_all argv); [by symmetry|exact Ha].
  - split; [destruct (String.eqb ret "boolean"), (String.eqb ret "object"); discriminate|].
    destruct (String.eqb ret "boolean") eqn:Eb;
      [|destruct (String.eqb ret "object"); discriminate].
    intros _. apply String.eqb_eq in Eb. subst ret.
    split; [lia|]. split; [reflexivity|].
    change (negb (String.eqb "boolean" "object")) with true in Eop.
    rewrite andb_true_l in Eop. apply bool_decide_eq_false in Eop.
    intros H. apply Eop. by symmetry.
Qed.

(** C5 amended, at (byte, byte) -> byte. *)
Lemma role_consistency_witness :
  (role_of 2 ["byte"; "byte"] "byte" = Operator →
   (2 = 1 ∨ 2 = 2) ∧ "byte" ≠ "object" ∧ "byte" ≠ "void"
   ∧ ∀ a, a ∈ ["byte"; "byte"] → a = "byte")
  ∧ (role_of 2 ["byte"; "byte"] "byte" = Predicate →
     0 < 2 ∧ "byte" = "boolean" ∧ pyset ["byte"; "byte"] ≠ {["boolean"]}).
Proof.
  eapply (role_consistency elements one_line 2 ["byte"; "byte"] "byte");
    [reflexivity|vm_compute; reflexivity|vm_compute; reflexivity].
Defined.

(** C3 fails as stated: ByteUnaryOperator has only scalar types and is
    written to the primitive package, not to the base package. *)
Lemma ByteUnaryOperator_not_in_core :
  ∃ art, body elements one_line 1 ["byte"] "byte" = Ok (Some art)
         ∧ art_name art = "ByteUnaryOperator"
         ∧ any_array ["byte"] = false
         ∧ is_array "byte" = false
         ∧ art_package art = base_pkg +:+ ".primitive"
         ∧ art_package art ≠ base_pkg.
Proof.
  eexists. split; [vm_compute; reflexivity|].
  repeat (split; [reflexivity|]). discriminate.
Qed.

Lemma core_has_no_array argv :
  pyset argv ⊆ {["object"; "int"; "long"; "double"]} → any_array argv = false.
Proof.
  intros Hsub. destruct (any_array argv) eqn:E; [|reflexivity]. exfalso.
  unfold any_array in E. apply existsb_exists in E as (a & Ha & Harr).
  apply list_elem_of_In, elem_of_pyset, Hsub in Ha.
  rewrite !elem_of_union, !elem_of_singleton in Ha.
  destruct Ha as [[[->| ->]| ->]| ->]; vm_compute in Harr; discriminate.
Qed.

Lemma packages_distinct :
  base_pkg ≠ base_pkg +:+ ".array"
  ∧ base_pkg ≠ base_pkg +:+ ".primitive"
  ∧ base_pkg +:+ ".array" ≠ base_pkg +:+ ".primitive".
Proof.
  repeat split; intros H; apply (f_equal String.length) in H; vm_compute in H; discriminate.
Qed.

(** C3, amended. A written artifact goes to the base package (core) exactly
    when every argument type is object, int, long or double and the return
    type is object, int, long, double, boolean or void; to the array package
    exactly when an argument is an array segment; and to the primitive
    package in the remaining cases. *)
Theorem package_assignment si wrap argc argv ret art :
  body si wrap argc argv ret = Ok (Some art) →
  let core :=
    pyset argv ⊆ {["object"; "int"; "long"; "double"]}
    ∧ ret ∈ ["object"; "int"; "long"; "double"; "boolean"; "void"] in
  (art_package art = base_pkg ↔ core)
  ∧ (art_package art = base_pkg +:+ ".array" ↔ any_array argv = true)
  ∧ (art_package art = base_pkg +:+ ".primitive" ↔ ¬ core ∧ any_array argv = false).
Proof.
  intros Hb core.
  apply body_inv in Hb as (p_list & a_list & pt & _ & _ & _ & _ & _ & _ & Hp & _).
  rewrite Hp. unfold get_package.
  destruct packages_distinct as (D1 & D2 & D3).
  assert (core ∨ ¬ core) as [Hc|Hc].
  { destruct (decide (pyset argv ⊆ {["object"; "int"; "long"; "double"]})) as [H1|H1];
      [|right; intros [H _]; by apply H1].
    destruct (decide (ret ∈ ["object"; "int"; "long"; "double"; "boolean"; "void"]))
      as [H2|H2]; [left; by split|right; intros [_ H]; by apply H2]. }
  - destruct Hc as [H1 H2].
    rewrite (bool_decide_eq_true_2 _ H1), (bool_decide_eq_true_2 _ H2). cbn [andb].
    rewrite (core_has_no_array _ H1).
    split; [split; [intros _; by split|reflexivity]|].
    split; [split; [intros H; by destruct D1|discriminate]|].
    split; [intros H; by destruct D2|]. intros [Hn _]. destruct Hn. by split.
  - assert (bool_decide (pyset argv ⊆ {["object"; "int"; "long"; "double"]})
            && bool_decide (ret ∈ ["object"; "int"; "long"; "double"; "boolean"; "void"])
            = false) as ->.
    { apply andb_false_iff.
      destruct (decide (pyset argv ⊆ {["object"; "int"; "long"; "double"]})) as [H1|H1];
        [|left; by apply bool_decide_eq_false].
      right. apply bool_decide_eq_false. intros H2. apply Hc. by split. }
    destruct (any_array argv).
    + split; [split; [intros H; symmetry in H; by destruct D1|intros H; by destruct Hc]|].
      split; [split; reflexivity|].
      split; [intros H; by destruct D3|]. intros [_ H]. discriminate.
    + split; [split; [intros H; symmetry in H; by destruct D2|intros H; by destruct Hc]|].
      split; [split; [intros H; symmetry in H; by destruct D3|discriminate]|].
      split; [intros _; by split|reflexivity].
Qed.

(** C3 amended, at (object, int[]) -> int. *)
Lemma package_assignment_witness :
  ∃ art, body elements one_line 2 ["object"; "int[]"] "int" = Ok (Some art)
         ∧ art_package art = base_pkg +:+ ".array".
Proof.
  destruct (body elements one_line 2 ["object"; "int[]"] "int") as [[art|]|] eqn:E;
    [|vm_compute in E; discriminate..].
  exists art. split; [reflexivity|].
  apply (package_assignment elements one_line 2 ["object"; "int[]"] "int" art E).
  reflexivity.
Defined.

(** C8. A written artifact has the methods and, or and (instance) negated
    exactly when there is an argument, the return type is boolean and the
    set of argument types is not {boolean}; the body of and (or) is the
    Java expression [m(a) && other.m(a)] ([m(a) || other.m(a)]), whose
    evaluation does not invoke the method of the other predicate when this
    predicate returns false (true). *)
Theorem predicate_methods si wrap argc argv ret art :
  body si wrap argc argv ret = Ok (Some art) →
  let present := has_predicate_methods argc argv ret in
  let par := par_a_text (art_a_list art) in
  let e_and := and_expr (art_mthd art) (a_text (art_a_list art)) in
  let e_or := or_expr (art_mthd art) (a_text (art_a_list art)) in
  (present = true ↔ 0 < argc ∧ ret = "boolean" ∧ pyset argv ≠ {["boolean"]})
  ∧ has_method art "and" = present
  ∧ has_method art "or" = present
  ∧ has_method art "negated" = present
  ∧ (present = true →
     (∃ pre, dict_get (instance_methods (art_methods art)) "and"
             = Ok (pre ++ [return_line (par +:+ " ->$" +:+ jshow e_and); "    }"]))
     ∧ (∃ pre, dict_get (instance_methods (art_methods art)) "or"
               = Ok (pre ++ [return_line (par +:+ " ->$" +:+ jshow e_or); "    }"]))
     ∧ ∀ env,
         (env None = false → Some "other" ∉ (jeval env e_and).2)
         ∧ (env None = true → Some "other" ∉ (jeval env e_or).2)).
Proof.
  intros Hb present par e_and e_or.
  split; [apply has_predicate_methods_iff|].
  split; [apply (has_predicate_key si wrap); [set_unfold; tauto|exact Hb]|].
  split; [apply (has_predicate_key si wrap); [set_unfold; tauto|exact Hb]|].
  split; [apply (has_predicate_key si wrap); [set_unfold; tauto|exact Hb]|].
  intros Hadm.
  apply body_inv in Hb as (p_list & a_list & pt & _ & _ & _ & _ & _ & Hm & _ & _ & _ & Ha).
  apply gen_methods_predicate_bodies in Hm as (Hand & Hor & _); [|exact Hadm].
  subst par e_and e_or. rewrite Ha.
  rewrite <- and_lmbd_jshow, <- or_lmbd_jshow.
  split; [exact Hand|]. split; [exact Hor|].
  intros env. split; intros Henv.
  - unfold and_expr. cbn [jeval]. rewrite Henv. cbn [snd].
    intros H. apply elem_of_cons in H as [H|H]; [discriminate|inversion H].
  - unfold or_expr. cbn [jeval]. rewrite Henv. cbn [snd].
    intros H. apply elem_of_cons in H as [H|H]; [discriminate|inversion H].
Qed.

(** C8 at byte -> boolean. *)
Lemma predicate_methods_witness :
  ∃ art, body elements one_line 1 ["byte"] "boolean" = Ok (Some art)
         ∧ art_name art = "BytePredicate"
         ∧ has_method art "and" = true
         ∧ has_method art "or" = true
         ∧ has_method art "negated" = true
         ∧ ∀ env, env None = false
             → Some "other" ∉ (jeval env (and_expr (art_mthd art) (a_text (art_a_list art)))).2.
Proof.
  destruct (body elements one_line 1 ["byte"] "boolean") as [[art|]|] eqn:E;
    [|vm_compute in E; discriminate..].
  exists art. split; [reflexivity|].
  destruct (predicate_methods elements one_line 1 ["byte"] "boolean" art E)
    as (_ & H1 & H2 & H3 & H4).
  apply body_inv in E as (p_list & a_list & pt & _ & Hn & _).
  vm_compute in Hn. injection Hn as Hn _.
  split; [symmetry; exact Hn|]. split; [exact H1|]. split; [exact H2|]. split; [exact H3|].
  intros env. apply H4. reflexivity.
Defined.


(** The unary operators whose name is not reserved are written, with
    identity, andThen and compose. *)
Lemma unary_operator_emitted wrap t :
  t ∈ ["boolean"; "byte"; "char"; "float"; "short"] →
  ∃ art, body elements wrap 1 [t] t = Ok (Some art)
         ∧ role_of 1 [t] t = Operator
         ∧ get_name 1 [t] t = Ok (art_name art, art_mthd art)
         ∧ has_static_method art "identity" = true
         ∧ has_method art "andThen" = true
         ∧ has_method art "compose" = true.
Proof.
  intros Ht.
  assert (∃ art, body elements wrap 1 [t] t = Ok (Some art)) as [art Hb].
  { assert (∃ n p, outline (body elements one_line 1 [t] t) = Some (Some (n, p)))
      as (n & p & Ho).
    { repeat (apply elem_of_cons in Ht as [->|Ht];
              [eexists _, _; vm_compute; reflexivity|]).
      inversion Ht. }
    rewrite <- (body_outline_wrap wrap) in Ho.
    apply outline_emitted in Ho as (art & Hb & _). by exists art. }
  exists art. split; [exact Hb|].
  pose proof (body_inv _ _ _ _ _ _ Hb) as (p_list & a_list & pt & _ & Hn & _).
  rewrite (has_static_method_eq _ _ _ _ _ _ "identity" Hb).
  rewrite (has_andThen _ _ _ _ _ _ Hb), (has_compose _ _ _ _ _ _ Hb).
  split; [|split; [exact Hn|]];
    repeat (apply elem_of_cons in Ht as [->|Ht]; [vm_compute; tauto|]); inversion Ht.
Qed.

(** C2, amended. The signature int -> int takes the operator branch and is
    named IntUnaryOperator; that name is reserved, so the signature is
    skipped and nothing is written for it.  It meets the conditions of
    identity, andThen and compose, and the unary operators whose name is not
    reserved (boolean, byte, char, float, short) are written with these
    three methods. *)
Theorem IntUnaryOperator_reserved :
  get_name 1 ["int"] "int" = Ok ("IntUnaryOperator", "applyAsInt")
  ∧ role_of 1 ["int"] "int" = Operator
  ∧ "IntUnaryOperator" ∈ built_ins
  ∧ (∀ si wrap, body si wrap 1 ["int"] "int" = Ok None)
  ∧ has_identity 1 ["int"] "int" = true
  ∧ andThen_branch 1 ["int"] "int" = Some AfterOperator
  ∧ compose_branch 1 ["int"] "int" = Some BeforeOperator
  ∧ ∀ wrap,
      Forall (fun t => ∃ art, body elements wrap 1 [t] t = Ok (Some art)
                              ∧ role_of 1 [t] t = Operator
                              ∧ get_name 1 [t] t = Ok (art_name art, art_mthd art)
                              ∧ has_static_method art "identity" = true
                              ∧ has_method art "andThen" = true
                              ∧ has_method art "compose" = true)
        ["boolean"; "byte"; "char"; "float"; "short"].
Proof.
  split; [reflexivity|]. split; [reflexivity|].
  split; [apply (bool_decide_eq_true_1 _); vm_compute; reflexivity|].
  split; [intros si wrap; reflexivity|].
  split; [reflexivity|]. split; [reflexivity|]. split; [reflexivity|].
  intros wrap. apply Forall_forall. intros t Ht. by apply unary_operator_emitted.
Qed.

(** C2 fails as stated: the name of int -> int is reserved and the loop
    body writes nothing for it. *)
Lemma IntUnaryOperator_not_emitted :
  get_name 1 ["int"] "int" = Ok ("IntUnaryOperator", "applyAsInt")
  ∧ "IntUnaryOperator" ∈ built_ins
  ∧ body elements one_line 1 ["int"] "int" = Ok None.
Proof.
  split; [reflexivity|]. split; [|reflexivity].
  apply (bool_decide_eq_true_1 _). vm_compute. reflexivity.
Qed.

(** C1. On a disk that it can write to, a run returns; the names it
    collects are pairwise distinct and none of them is reserved; every
    artifact has its name in that list and no two artifacts are written to
    the same path. *)
Theorem names_unique si wrap fs :
  iteration_order si →
  writable fs →
  ∃ st, run si wrap fs = Ok st
        ∧ names st = emitted_files.*1
        ∧ length (names st) = 250
        ∧ NoDup (names st)
        ∧ (∀ n, n ∈ names st → n ∉ built_ins)
        ∧ (∀ a, a ∈ arts_of si wrap signatures → art_name a ∈ names st)
        ∧ NoDup (map art_path (arts_of si wrap signatures)).
Proof.
  intros Hsi Hw. eexists. split; [by apply run_spec|]. cbn [names].
  pose proof emitted_files_ok as (_ & Hl & Hn & Hb & Hp & _).
  rewrite (arts_of_order si), arts_paths, arts_names by exact Hsi.
  split; [reflexivity|].
  split; [by rewrite length_fmap|].
  split; [exact Hn|]. split; [by apply Forall_forall|]. split; [|exact Hp].
  intros a Ha. rewrite <- (arts_names wrap). by apply list_elem_of_fmap_2.
Qed.

(** C1 for the canonical iteration order and one-line comments, from an
    empty disk. *)
Lemma names_unique_witness :
  ∃ st, run elements one_line ∅ = Ok st
        ∧ names st = emitted_files.*1
        ∧ length (names st) = 250
        ∧ NoDup (names st)
        ∧ (∀ n, n ∈ names st → n ∉ built_ins)
        ∧ (∀ a, a ∈ arts_of elements one_line signatures → art_name a ∈ names st)
        ∧ NoDup (map art_path (arts_of elements one_line signatures)).
Proof.
  apply names_unique.
  - intros X. reflexivity.
  - split; [intros d c _; by rewrite lookup_empty|intros _ p _; apply lookup_empty].
Defined.

(** The condition on the disk is needed: with a regular file where the
    package directory should be, the directory of the first interface cannot
    be made and the run stops there. *)
Lemma run_stops_at_a_file c :
  run elements one_line {[base_pkg_dir := File c]} = Raise NotADirectoryError.
Proof. vm_compute. reflexivity. Qed.

(** C9. Two runs with the same wrapping of comments, whatever the order in
    which sets are iterated and whatever lies on the disks, as long as they
    can be written to, compute the same result for every signature, collect
    the same names in the same order, print the same report and leave the
    same files below the package directory, each interface in its file; the
    directories on the way to the package directory exist afterwards and
    the rest of the disk is untouched; and a second run over the output of
    the first reproduces it. *)
Theorem generator_deterministic si1 si2 wrap fs1 fs2 :
  iteration_order si1 →
  iteration_order si2 →
  writable fs1 →
  writable fs2 →
  (∀ argc argv ret, body si1 wrap argc argv ret = body si2 wrap argc argv ret)
  ∧ ∃ st1 st2,
      run si1 wrap fs1 = Ok st1
      ∧ run si2 wrap fs2 = Ok st2
      ∧ names st1 = names st2
      ∧ report st1 = report st2
      ∧ (∀ p, below base_pkg_dir p = true → files st1 !! p = files st2 !! p)
      ∧ (∀ a, a ∈ arts_of si1 wrap signatures
              → files st1 !! art_path a = Some (File (art_content a)))
      ∧ (∀ d, d ∈ ancestors base_pkg_dir → files st1 !! d = Some Dir)
      ∧ (∀ p, below base_pkg_dir p = false → p ∉ ancestors base_pkg_dir
              → files st1 !! p = fs1 !! p)
      ∧ writable (files st1)
      ∧ run si2 wrap (files st1) = Ok st1.
Proof.
  intros H1 H2 W1 W2. split.
  { intros argc argv ret. by rewrite (body_order si1), (body_order si2). }
  pose proof (arts_below wrap) as Hbelow.
  pose proof (arts_dirs elements wrap signatures) as Hdirs.
  pose proof (arts_base elements wrap signatures) as Hbase.
  pose proof (arts_not_dirs wrap) as Hnot.
  pose proof (arts_nonempty wrap) as Hne.
  pose proof (arts_NoDup wrap) as HND.
  pose proof (run_spec si1 wrap fs1 H1 W1) as R1.
  pose proof (run_spec si2 wrap fs2 H2 W2) as R2.
  pose proof (fun fs => run_spec si2 wrap fs H2) as R3.
  rewrite (arts_of_order si1) by exact H1.
  revert Hbelow Hdirs Hbase Hnot Hne HND R1 R2 R3.
  generalize (arts_of elements wrap signatures) as arts.
  intros arts Hbelow Hdirs Hbase Hnot Hne HND R1 R2 R3.
  eexists _, _. split; [exact R1|]. split; [exact R2|].
  cbn [names files]. split; [reflexivity|]. split; [reflexivity|].
  split; [|split; [|split; [|split; [|split]]]].
  - intros p Hp. by apply written_below.
  - intros a Ha. by apply written_content.
  - intros d Hd. by apply written_dir.
  - intros p Hp Hn. rewrite written_untouched by assumption.
    apply lookup_cleared_other; [exact Hp|]. intros ->. apply Hn, base_pkg_dir_ancestor.
  - by apply written_writable.
  - rewrite R3 by (by apply written_writable).
    by rewrite written_again.
Qed.

(** C9 for the canonical order against the reversed one, from an empty disk
    against a disk with a stale file in the package directory. *)
Lemma generator_deterministic_witness :
  (∀ argc argv ret,
     body elements one_line argc argv ret = body (reverse ∘ elements) one_line argc argv ret)
  ∧ ∃ st1 st2,
      run elements one_line ∅ = Ok st1
      ∧ run (reverse ∘ elements) one_line
          (<[base_pkg_dir := Dir]> {[base_pkg_dir +:+ "/Old.java" := File "old"]}) = Ok st2
      ∧ names st1 = names st2
      ∧ report st1 = report st2
      ∧ (∀ p, below base_pkg_dir p = true → files st1 !! p = files st2 !! p)
      ∧ (∀ a, a ∈ arts_of elements one_line signatures
              → files st1 !! art_path a = Some (File (art_content a)))
      ∧ (∀ d, d ∈ ancestors base_pkg_dir → files st1 !! d = Some Dir)
      ∧ (∀ p, below base_pkg_dir p = false → p ∉ ancestors base_pkg_dir
              → files st1 !! p = (∅ : gmap string node) !! p)
      ∧ writable (files st1)
      ∧ run (reverse ∘ elements) one_line (files st1) = Ok st1.
Proof.
  apply generator_deterministic.
  - intros X. reflexivity.
  - intros X. cbn. apply reverse_Permutation.
  - split; [intros d c _; by rewrite lookup_empty|intros _ p _; apply lookup_empty].
  - split.
    + intros d c Hd. destruct (decide (d = base_pkg_dir)) as [->|Hne].
      * by rewrite lookup_insert_eq.
      * rewrite lookup_insert_ne by done.
        destruct (decide (d = base_pkg_dir +:+ "/Old.java")) as [->|Hne'].
        -- apply str_in_elem in Hd. vm_compute in Hd. discriminate.
        -- by rewrite lookup_singleton_ne.
    + intros H. destruct H. apply lookup_insert_eq.
Defined.

(** * Further properties *)

(** ** The filters *)

Lemma product_single {A} (x : A) n : product [x] n = [replicate n x].
Proof.
  induction n as [|n IH]; [reflexivity|].
  cbn [product flat_map]. rewrite IH. reflexivity.
Qed.

(** X1. With more than two arguments, whatever the arity, the only tuple
    of catalog types that passes the input filters is the one made of
    objects. *)
Theorem many_args_all_objects n :
  2 < n → kept_argv n = [replicate n "object"].
Proof.
  intros Hn. rewrite kept_argv_objects by exact Hn.
  change (List.filter (fun a => String.eqb a "object") (tail types)) with ["object"].
  apply product_single.
Qed.

(** X1 at a concrete input. *)
Lemma many_args_all_objects_witness :
  kept_argv 3 = [replicate 3 "object"].
Proof. apply many_args_all_objects. lia. Defined.

Lemma size_pyset_pair a b : size (pyset [a; b]) = if decide (a = b) then 1 else 2.
Proof.
  destruct (decide (a = b)) as [->|Hne].
  - rewrite (pyset_all_singleton [b; b] b); [apply size_singleton|done|].
    intros x Hx. apply elem_of_cons in Hx as [->|Hx]; [done|].
    apply elem_of_cons in Hx as [->|Hx]; [done|inversion Hx].
  - rewrite pyset_cons, pyset_single. rewrite size_union.
    + rewrite !size_singleton. reflexivity.
    + intros x Hx Hy. apply elem_of_singleton in Hx, Hy. congruence.
Qed.

(** X2. A pair of argument types passes the input filters exactly when its
    first type is object or both types are the same, and the two are not
    both array segments. *)
Theorem pair_filter a b :
  argv_skip 2 [a; b] = false
  ↔ (a = "object" ∨ a = b) ∧ (is_array a && is_array b = false).
Proof.
  unfold argv_skip, mixed_skip, arity_skip, arrays_skip, count_if. cbv zeta.
  change (item0 [a; b]) with a. change (tail [a; b]) with [b].
  rewrite size_pyset_pair, pyset_single, size_singleton.
  change (1 <? 2) with true. change (2 <? 2) with false. change (1 <? 1) with false.
  cbn [andb orb List.filter].
  destruct (decide (a = b)) as [->|Hne].
  - change (1 <? 1) with false. cbn [andb].
    destruct (is_array b); cbn [length andb]; split; try tauto; try discriminate.
  - change (1 <? 2) with true. cbn [andb]. rewrite orb_false_r.
    destruct (String.eqb a "object") eqn:Eo; cbn [negb].
    + apply String.eqb_eq in Eo. subst a. change (is_array "object") with false.
      cbn [andb]. destruct (is_array b); cbn [length]; split; try reflexivity;
        intros _; (split; [by left|reflexivity]).
    + apply String.eqb_neq in Eo. split; [discriminate|]. intros [[H|H] _]; contradiction.
Qed.

(** X3. For argument types without an array segment and a return type
    that is not an array segment, the output filters keep the return type
    exactly in these cases: at most one argument; two arguments and the
    return type is object, boolean or void, or one of the argument types,
    or both arguments are objects; more than two arguments and the return
    type is object or boolean. *)
Theorem scalar_return_filter argc argv ret :
  any_array argv = false →
  is_array ret = false →
  ret_skip argc argv ret = false
  ↔ argc ≤ 1
    ∨ (argc = 2 ∧ (ret ∈ ["object"; "boolean"; "void"] ∨ ret ∈ argv
                   ∨ pyset argv = {["object"]}))
    ∨ (2 < argc ∧ (ret = "object" ∨ ret = "boolean")).
Proof.
  intros Ha Hr. unfold ret_skip. cbv zeta. rewrite Hr, Ha.
  destruct (decide (ret ∈ ["object"; "boolean"; "void"])) as [H3|H3];
    [rewrite (bool_decide_eq_true_2 _ H3)|rewrite (bool_decide_eq_false_2 _ H3)];
    (destruct (decide (ret ∈ argv)) as [Hv|Hv];
      [rewrite (bool_decide_eq_true_2 _ Hv)|rewrite (bool_decide_eq_false_2 _ Hv)]);
    (destruct (decide (pyset argv = {["object"]})) as [Ho|Ho];
      [rewrite (bool_decide_eq_true_2 _ Ho)|rewrite (bool_decide_eq_false_2 _ Ho)]);
    (destruct (decide (ret ∈ ["object"; "boolean"])) as [H2|H2];
      [rewrite (bool_decide_eq_true_2 _ H2)|rewrite (bool_decide_eq_false_2 _ H2)]);
    cbn [negb andb orb];
    rewrite ?andb_false_r, ?andb_true_r, ?orb_false_r, ?orb_true_r;
    assert (H2' : ret ∈ ["object"; "boolean"] ↔ ret = "object" ∨ ret = "boolean")
      by (rewrite !elem_of_cons, elem_of_nil; tauto);
    assert (H32 : ret ∈ ["object"; "boolean"] → ret ∈ ["object"; "boolean"; "void"])
      by (rewrite !elem_of_cons, !elem_of_nil; tauto);
    destruct (Nat.ltb_spec 1 argc) as [E1|E1]; destruct (Nat.ltb_spec 2 argc) as [E2|E2];
    cbn [negb andb orb]; split; intros H; try discriminate; try reflexivity;
    try lia; try (exfalso; intuition lia).
  all: try (left; lia).
  all: try (right; right; split; [lia|tauto]).
  all: try (right; left; split; [lia|tauto]).
Qed.

(** X3 at a concrete input. *)
Lemma scalar_return_filter_witness :
  ret_skip 2 ["object"; "int"] "int" = false
  ↔ 2 ≤ 1
    ∨ (2 = 2 ∧ ("int" ∈ ["object"; "boolean"; "void"] ∨ "int" ∈ ["object"; "int"]
                ∨ pyset ["object"; "int"] = {["object"]}))
    ∨ (2 < 2 ∧ ("int" = "object" ∨ "int" = "boolean")).
Proof. apply scalar_return_filter; reflexivity. Defined.

(** ** The capabilities *)

Lemma has_identity_iff argc argv ret :
  has_identity argc argv ret = true
  ↔ argc = 1 ∧ ret ≠ "object" ∧ pyset argv = {[ret]}.
Proof.
  unfold has_identity. rewrite !andb_true_iff, Nat.eqb_eq, negb_true_iff,
    String.eqb_neq, bool_decide_eq_true. tauto.
Qed.

Lemma has_static_negated_iff argc argv ret :
  has_static_negated argc argv ret = true
  ↔ argc = 1 ∧ ret = "boolean" ∧ pyset argv = {["boolean"]}.
Proof.
  unfold has_static_negated. rewrite !andb_true_iff, Nat.eqb_eq,
    String.eqb_eq, bool_decide_eq_true. tauto.
Qed.

Lemma compose_branch_iff argc argv ret :
  some_branch (compose_branch argc argv ret) = true
  ↔ argc = 1 ∧ (pyset argv = {["object"]} ∨ pyset argv = {[ret]}).
Proof.
  unfold compose_branch.
  destruct (Nat.eqb_spec argc 1) as [->|Hn]; cbn [andb].
  - destruct (decide (pyset argv = {["object"]})) as [Ho|Ho];
      [rewrite (bool_decide_eq_true_2 _ Ho)|rewrite (bool_decide_eq_false_2 _ Ho)].
    + split; [intros _; split; [reflexivity|by left]|reflexivity].
    + destruct (decide (pyset argv = {[ret]})) as [Hr|Hr];
        [rewrite (bool_decide_eq_true_2 _ Hr)|rewrite (bool_decide_eq_false_2 _ Hr)].
      * split; [intros _; split; [reflexivity|by right]|reflexivity].
      * split; [discriminate|]. intros [_ [H|H]]; contradiction.
  - split; [discriminate|]. intros [H _]. contradiction.
Qed.

Lemma andThen_branch_iff argc argv ret :
  some_branch (andThen_branch argc argv ret) = true
  ↔ ret = "void" ∨ ret = "object" ∨ (argc = 1 ∧ pyset argv = {[ret]}).
Proof.
  unfold andThen_branch.
  destruct (String.eqb_spec ret "void") as [Ev|Ev].
  { split; [intros _; by left|reflexivity]. }
  destruct (String.eqb_spec ret "object") as [Eo|Eo].
  { split; [intros _; right; by left|reflexivity]. }
  destruct (Nat.eqb_spec argc 1) as [->|Hn]; cbn [andb].
  - destruct (decide (pyset argv = {[ret]})) as [Hr|Hr];
      [rewrite (bool_decide_eq_true_2 _ Hr)|rewrite (bool_decide_eq_false_2 _ Hr)].
    + split; [intros _; right; right; by split|reflexivity].
    + split; [discriminate|]. intros [H|[H|[_ H]]]; contradiction.
  - split; [discriminate|]. intros [H|[H|[H _]]]; contradiction.
Qed.

Lemma has_identity_key si wrap argc argv ret art :
  body si wrap argc argv ret = Ok (Some art) →
  has_static_method art "identity" = has_identity argc argv ret.
Proof.
  intros Hb. rewrite (has_static_method_eq _ _ _ _ _ _ _ Hb).
  change (String.eqb "identity" "identity") with true.
  change (String.eqb "negated" "identity") with false.
  rewrite andb_true_r, andb_false_r, orb_false_r. reflexivity.
Qed.

Lemma has_static_negated_key si wrap argc argv ret art :
  body si wrap argc argv ret = Ok (Some art) →
  has_static_method art "negated" = has_static_negated argc argv ret.
Proof.
  intros Hb. rewrite (has_static_method_eq _ _ _ _ _ _ _ Hb).
  change (String.eqb "identity" "negated") with false.
  change (String.eqb "negated" "negated") with true.
  rewrite andb_true_r, andb_false_r. reflexivity.
Qed.

(** X4. A written interface has the static method identity exactly when
    there is one argument, the return type is not object and the argument
    type is the return type; such an interface also has andThen and
    compose. *)
Theorem identity_admission si wrap argc argv ret art :
  body si wrap argc argv ret = Ok (Some art) →
  (has_static_method art "identity" = true
   ↔ argc = 1 ∧ ret ≠ "object" ∧ pyset argv = {[ret]})
  ∧ (has_static_method art "identity" = true →
     has_method art "andThen" = true ∧ has_method art "compose" = true).
Proof.
  intros Hb. rewrite (has_identity_key _ _ _ _ _ _ Hb),
    (has_andThen _ _ _ _ _ _ Hb), (has_compose _ _ _ _ _ _ Hb).
  split; [apply has_identity_iff|].
  intros (H1 & _ & H2)%has_identity_iff. split.
  - apply andThen_branch_iff. right. right. by split.
  - apply compose_branch_iff. split; [done|by right].
Qed.

(** X4 at a concrete input. *)
Lemma identity_admission_witness :
  ∃ art, body elements one_line 1 ["char"] "char" = Ok (Some art)
         ∧ has_static_method art "identity" = true
         ∧ has_method art "andThen" = true
         ∧ has_method art "compose" = true.
Proof.
  eexists. split; [vm_compute; reflexivity|].
  split; [vm_compute; reflexivity|].
  eapply (identity_admission elements one_line 1 ["char"] "char");
    vm_compute; reflexivity.
Defined.

(** X5. A written interface has the static method negated exactly when it
    takes one boolean and returns a boolean; it then has identity as well,
    and it never has both the static and the instance method of that
    name. *)
Theorem negated_exclusive si wrap argc argv ret art :
  body si wrap argc argv ret = Ok (Some art) →
  (has_static_method art "negated" = true
   ↔ argc = 1 ∧ ret = "boolean" ∧ pyset argv = {["boolean"]})
  ∧ (has_static_method art "negated" = true → has_static_method art "identity" = true)
  ∧ has_static_method art "negated" && has_method art "negated" = false.
Proof.
  intros Hb. rewrite (has_static_negated_key _ _ _ _ _ _ Hb),
    (has_identity_key _ _ _ _ _ _ Hb),
    (has_predicate_key si wrap argc argv ret art "negated") by (try exact Hb; set_solver).
  split; [apply has_static_negated_iff|]. split.
  - intros (H1 & H2 & H3)%has_static_negated_iff. apply has_identity_iff.
    subst ret. by repeat split.
  - destruct (has_static_negated argc argv ret) eqn:E; [|reflexivity].
    apply has_static_negated_iff in E as (_ & _ & E). cbn [andb].
    unfold has_predicate_methods. rewrite (bool_decide_eq_true_2 _ E).
    cbn [negb]. apply andb_false_r.
Qed.

(** X5 at a concrete input. *)
Lemma negated_exclusive_witness :
  ∃ art, body elements one_line 1 ["boolean"] "boolean" = Ok (Some art)
         ∧ has_static_method art "negated" = true
         ∧ has_static_method art "identity" = true
         ∧ has_static_method art "negated" && has_method art "negated" = false.
Proof.
  eexists. split; [vm_compute; reflexivity|].
  split; [vm_compute; reflexivity|].
  split.
  - eapply (negated_exclusive elements one_line 1 ["boolean"] "boolean");
      vm_compute; reflexivity.
  - eapply (negated_exclusive elements one_line 1 ["boolean"] "boolean");
      vm_compute; reflexivity.
Defined.

(** X6. A written interface has the method compose exactly when there is
    one argument and its type is object or the return type. *)
Theorem compose_admission si wrap argc argv ret art :
  body si wrap argc argv ret = Ok (Some art) →
  has_method art "compose" = true
  ↔ argc = 1 ∧ (pyset argv = {["object"]} ∨ pyset argv = {[ret]}).
Proof.
  intros Hb. rewrite (has_compose _ _ _ _ _ _ Hb). apply compose_branch_iff.
Qed.

(** X6 at a concrete input. *)
Lemma compose_admission_witness :
  ∃ art, body elements one_line 1 ["object"] "byte" = Ok (Some art)
         ∧ (has_method art "compose" = true
            ↔ 1 = 1 ∧ (pyset ["object"] = {["object"]} ∨ pyset ["object"] = {["byte"]})).
Proof.
  eexists. split; [vm_compute; reflexivity|].
  eapply (compose_admission elements one_line). vm_compute. reflexivity.
Defined.

(** ** The tables of methods and imports *)

Lemma keys_dict_set {V} (d : list (string * V)) k v :
  (dict_set d k v).*1 = add_key k d.*1.
Proof.
  unfold add_key. induction d as [|[k' v'] d IH]; [reflexivity|].
  cbn [dict_set fmap list_fmap fst str_in existsb].
  rewrite (String.eqb_sym k k').
  destruct (String.eqb k' k); cbn [orb fmap list_fmap fst]; [reflexivity|].
  fold (d.*1). fold (str_in k d.*1).
  change (list_fmap _ _ fst (dict_set d k v)) with (dict_set d k v).*1.
  rewrite IH. destruct (str_in k d.*1); reflexivity.
Qed.

Lemma add_key_fresh k keys : str_in k keys = false → add_key k keys = keys ++ [k].
Proof. unfold add_key. intros ->. reflexivity. Qed.

Section Tables.

Variable wrap : string → Z → list string.
Variables (argc : nat) (argv : list string) (ret : string).
Variables (name mthd : string) (d : docvars).
Variables (p_list : list (pyval * string)) (a_list : list arg).

Lemma add_mthd_tables m m' :
  add_mthd wrap argc argv ret mthd d a_list m = Ok m' →
  imports m' = imports m ∧ static_imports m' = static_imports m
  ∧ (static_methods m').*1 = (static_methods m).*1
  ∧ (instance_methods m').*1 = add_key mthd (instance_methods m).*1.
Proof.
  unfold add_mthd. cbv zeta. intros H. inv_bind H.
  destruct (0 <? argc); injection H as <-; (repeat split; try reflexivity);
    rewrite instance_set_instance; apply keys_dict_set.
Qed.

Lemma add_identity_tables m m' :
  add_identity wrap argc argv ret name d a_list m = Ok m' →
  imports m' = imports m ∧ static_imports m' = static_imports m
  ∧ (static_methods m').*1
    = (if has_identity argc argv ret then add_key "identity" else id) (static_methods m).*1
  ∧ (instance_methods m').*1 = (instance_methods m).*1.
Proof.
  unfold add_identity. cbv zeta. intros H.
  destruct (has_identity argc argv ret); injection H as <-;
    (repeat split; try reflexivity).
  rewrite static_set_static. apply keys_dict_set.
Qed.

Lemma add_static_negated_tables m m' :
  add_static_negated wrap argc argv ret name d a_list m = Ok m' →
  imports m' = imports m ∧ static_imports m' = static_imports m
  ∧ (static_methods m').*1
    = (if has_static_negated argc argv ret then add_key "negated" else id)
        (static_methods m).*1
  ∧ (instance_methods m').*1 = (instance_methods m).*1.
Proof.
  unfold add_static_negated. cbv zeta. intros H.
  destruct (has_static_negated argc argv ret); injection H as <-;
    (repeat split; try reflexivity).
  rewrite static_set_static. apply keys_dict_set.
Qed.

Ltac tables_step :=
  repeat split; try reflexivity;
  try (rewrite instance_set_instance; apply keys_dict_set);
  try (cbn [imports add_import set_instance];
       first [ by rewrite (right_id_L ∅ (∪))
             | by rewrite !(left_id_L ∅ (∪))
             | rewrite (assoc_L (∪)); f_equal; apply (comm_L (∪))
             | rewrite (assoc_L (∪)); f_equal; by rewrite (idemp_L (∪)) ]).

Lemma add_andThen_tables pt vpt m m' :
  add_andThen wrap argc argv ret name mthd d p_list a_list pt vpt m = Ok m' →
  imports m'
  = (if some_branch (andThen_branch argc argv ret) then {["java.util.Objects"]} else ∅)
    ∪ (if after_function (andThen_branch argc argv ret)
       then {["java.util.function.Function"]} else ∅)
    ∪ imports m
  ∧ static_imports m' = static_imports m
  ∧ (static_methods m').*1 = (static_methods m).*1
  ∧ (instance_methods m').*1
    = (if some_branch (andThen_branch argc argv ret) then add_key "andThen" else id)
        (instance_methods m).*1.
Proof.
  unfold add_andThen. intros H.
  destruct (andThen_branch argc argv ret) as [[]|]; cbn [some_branch after_function].
  - cbv zeta in H. injection H as <-. tables_step.
  - inv_bind H. inv_bind H. inv_bind H. inv_bind H. cbv zeta in H.
    destruct (argc =? 0); injection H as <-; tables_step.
  - inv_bind H. cbv zeta in H. injection H as <-. tables_step.
  - injection H as <-. tables_step.
Qed.

Lemma add_compose_tables m m' :
  add_compose wrap argc argv ret name mthd d p_list a_list m = Ok m' →
  imports m'
  = (if some_branch (compose_branch argc argv ret) then {["java.util.Objects"]} else ∅)
    ∪ (if before_function (compose_branch argc argv ret)
       then {["java.util.function.Function"]} else ∅)
    ∪ imports m
  ∧ static_imports m' = static_imports m
  ∧ (static_methods m').*1 = (static_methods m).*1
  ∧ (instance_methods m').*1
    = (if some_branch (compose_branch argc argv ret) then add_key "compose" else id)
        (instance_methods m).*1.
Proof.
  unfold add_compose. intros H.
  destruct (compose_branch argc argv ret) as [[]|]; cbn [some_branch before_function].
  - inv_bind H. inv_bind H. inv_bind H. inv_bind H. cbv zeta in H.
    injection H as <-. tables_step.
  - inv_bind H. cbv zeta in H. injection H as <-. tables_step.
  - injection H as <-. tables_step.
Qed.

Lemma add_predicate_methods_tables pt vpt m m' :
  add_predicate_methods wrap argc argv ret name mthd d a_list pt vpt m = Ok m' →
  imports m'
  = (if has_predicate_methods argc argv ret then {["java.util.Objects"]} else ∅)
    ∪ imports m
  ∧ static_imports m' = static_imports m
  ∧ (static_methods m').*1 = (static_methods m).*1
  ∧ (instance_methods m').*1
    = (if has_predicate_methods argc argv ret
       then add_key "negated" ∘ add_key "or" ∘ add_key "and" else id)
        (instance_methods m).*1.
Proof.
  unfold add_predicate_methods. intros H.
  destruct (has_predicate_methods argc argv ret).
  - cbv zeta in H. injection H as <-. repeat split; try reflexivity.
    all: try (repeat first [rewrite instance_set_instance | rewrite keys_dict_set
                           | rewrite instance_add_import]; reflexivity).
    all: try (cbn [imports add_import set_instance];
              rewrite (assoc_L (∪)); f_equal; by rewrite (idemp_L (∪))).
  - injection H as <-. tables_step.
Qed.

End Tables.

Lemma gen_methods_tables wrap argc argv ret name mthd d p_list a_list m pt :
  Forall (fun k => String.eqb mthd k = false) ["andThen"; "compose"; "and"; "or"; "negated"] →
  gen_methods wrap argc argv ret name mthd d p_list a_list = Ok (m, pt) →
  imports m
  = (if some_branch (andThen_branch argc argv ret) || some_branch (compose_branch argc argv ret)
        || has_predicate_methods argc argv ret
     then {["java.util.Objects"]} else ∅)
    ∪ (if after_function (andThen_branch argc argv ret)
          || before_function (compose_branch argc argv ret)
       then {["java.util.function.Function"]} else ∅)
  ∧ static_imports m = ∅
  ∧ (static_methods m).*1
    = (if has_identity argc argv ret then ["identity"] else [])
      ++ (if has_static_negated argc argv ret then ["negated"] else [])
  ∧ (instance_methods m).*1
    = [mthd]
      ++ (if some_branch (andThen_branch argc argv ret) then ["andThen"] else [])
      ++ (if some_branch (compose_branch argc argv ret) then ["compose"] else [])
      ++ (if has_predicate_methods argc argv ret then ["and"; "or"; "negated"] else []).
Proof.
  intros Hf. unfold gen_methods. cbv zeta. intros H.
  apply bind_Ok in H as (m1 & H1 & H).
  apply bind_Ok in H as (pt' & Hpt & H).
  apply bind_Ok in H as (vpt & Hvpt & H).
  apply bind_Ok in H as (m2 & H2 & H).
  apply bind_Ok in H as (m3 & H3 & H).
  apply bind_Ok in H as (m4 & H4 & H).
  apply bind_Ok in H as (m5 & H5 & H).
  apply bind_Ok in H as (m6 & H6 & H).
  injection H as <- <-.
  apply add_mthd_tables in H1 as (A1 & B1 & C1 & D1).
  apply add_identity_tables in H2 as (A2 & B2 & C2 & D2).
  apply add_static_negated_tables in H3 as (A3 & B3 & C3 & D3).
  apply add_andThen_tables in H4 as (A4 & B4 & C4 & D4).
  apply add_compose_tables in H5 as (A5 & B5 & C5 & D5).
  apply add_predicate_methods_tables in H6 as (A6 & B6 & C6 & D6).
  inversion Hf as [|? ? F1 Hf1]; subst. inversion Hf1 as [|? ? F2 Hf2]; subst.
  inversion Hf2 as [|? ? F3 Hf3]; subst. inversion Hf3 as [|? ? F4 Hf4]; subst.
  inversion Hf4 as [|? ? F5 _]; subst.
  rewrite String.eqb_sym in F1, F2, F3, F4, F5.
  repeat split.
  - rewrite A6, A5, A4, A3, A2, A1. cbn [imports].
    generalize ({["java.util.Objects"]} : gset string) as O.
    generalize ({["java.util.function.Function"]} : gset string) as F. intros F O.
    destruct (some_branch (andThen_branch argc argv ret)),
      (some_branch (compose_branch argc argv ret)),
      (has_predicate_methods argc argv ret),
      (after_function (andThen_branch argc argv ret)),
      (before_function (compose_branch argc argv ret)); cbn [orb];
      apply set_eq; intros x; rewrite !elem_of_union, ?elem_of_empty; tauto.
  - rewrite B6, B5, B4, B3, B2, B1. reflexivity.
  - rewrite C6, C5, C4, C3, C2, C1. cbn [static_methods].
    destruct (has_identity argc argv ret), (has_static_negated argc argv ret); reflexivity.
  - rewrite D6, D5, D4, D3, D2, D1. cbn [instance_methods].
    destruct (some_branch (andThen_branch argc argv ret)),
      (some_branch (compose_branch argc argv ret)),
      (has_predicate_methods argc argv ret);
      unfold compose, id; cbn [fmap list_fmap];
      repeat match goal with
      | |- context [add_key ?k ?l] =>
          lazymatch l with
          | context [add_key] => fail
          | _ => rewrite (add_key_fresh k l)
                   by (unfold str_in; cbn [existsb app];
                       rewrite ?F1, ?F2, ?F3, ?F4, ?F5; reflexivity)
          end
      end; reflexivity.
Qed.

(** X7. The tables of a written interface hold the functional method
    first, then andThen, compose, and, or and negated, each exactly when
    its condition holds and each once: no method replaces another.  The
    static table holds identity and negated in the same way. *)
Theorem method_tables si wrap argc argv ret art :
  body si wrap argc argv ret = Ok (Some art) →
  (instance_methods (art_methods art)).*1
  = [art_mthd art]
    ++ (if some_branch (andThen_branch argc argv ret) then ["andThen"] else [])
    ++ (if some_branch (compose_branch argc argv ret) then ["compose"] else [])
    ++ (if has_predicate_methods argc argv ret then ["and"; "or"; "negated"] else [])
  ∧ (static_methods (art_methods art)).*1
    = (if has_identity argc argv ret then ["identity"] else [])
      ++ (if has_static_negated argc argv ret then ["negated"] else []).
Proof.
  intros Hb. pose proof (body_mthd_fresh _ _ _ _ _ _ Hb) as Hf.
  apply body_inv in Hb as (p_list & a_list & pt & _ & _ & _ & _ & _ & Hg & _).
  apply (gen_methods_tables _ _ _ _ _ _ _ _ _ _ _ Hf) in Hg as (_ & _ & Hs & Hi).
  split; assumption.
Qed.

(** X7 at a concrete input. *)
Lemma method_tables_witness :
  ∃ art, body elements one_line 1 ["byte"] "boolean" = Ok (Some art)
         ∧ (instance_methods (art_methods art)).*1 = ["test"; "and"; "or"; "negated"]
         ∧ (static_methods (art_methods art)).*1 = [].
Proof.
  eexists. split; [vm_compute; reflexivity|].
  eapply (method_tables elements one_line 1 ["byte"] "boolean"). vm_compute. reflexivity.
Defined.

(** X8. A written interface imports nothing statically; it imports
    java.util.Objects exactly when it has andThen, compose or the predicate
    methods, java.util.function.Function exactly when the return type is
    object or the single argument is an object, and nothing else. *)
Theorem imports_needed si wrap argc argv ret art :
  body si wrap argc argv ret = Ok (Some art) →
  static_imports (art_methods art) = ∅
  ∧ (∀ i, i ∈ imports (art_methods art)
          → i = "java.util.Objects" ∨ i = "java.util.function.Function")
  ∧ ("java.util.Objects" ∈ imports (art_methods art)
     ↔ has_method art "andThen" = true ∨ has_method art "compose" = true
       ∨ has_method art "and" = true)
  ∧ ("java.util.function.Function" ∈ imports (art_methods art)
     ↔ ret = "object" ∨ (argc = 1 ∧ pyset argv = {["object"]})).
Proof.
  intros Hb. pose proof (body_mthd_fresh _ _ _ _ _ _ Hb) as Hf.
  rewrite (has_andThen _ _ _ _ _ _ Hb), (has_compose _ _ _ _ _ _ Hb),
    (has_predicate_key si wrap argc argv ret art "and") by (try exact Hb; set_solver).
  apply body_inv in Hb as (p_list & a_list & pt & _ & _ & _ & _ & _ & Hg & _).
  apply (gen_methods_tables _ _ _ _ _ _ _ _ _ _ _ Hf) in Hg as (Hi & Hs & _ & _).
  assert (HOF : "java.util.Objects" ≠ "java.util.function.Function") by discriminate.
  assert (Haf : after_function (andThen_branch argc argv ret) = true ↔ ret = "object").
  { unfold andThen_branch.
    destruct (String.eqb_spec ret "void") as [Ev|Ev]; cbn [after_function].
    { split; [discriminate|]. intros H. rewrite H in Ev. discriminate. }
    destruct (String.eqb_spec ret "object") as [Eo|Eo]; cbn [after_function].
    { split; [intros _; exact Eo|reflexivity]. }
    destruct ((argc =? 1) && bool_decide (pyset argv = {[ret]})); cbn [after_function];
      (split; [discriminate|]); intros H; contradiction. }
  assert (Hbf : before_function (compose_branch argc argv ret) = true
                ↔ argc = 1 ∧ pyset argv = {["object"]}).
  { unfold compose_branch.
    destruct (Nat.eqb_spec argc 1) as [E1|E1]; cbn [andb].
    - destruct (decide (pyset argv = {["object"]})) as [Ho|Ho];
        [rewrite (bool_decide_eq_true_2 _ Ho)|rewrite (bool_decide_eq_false_2 _ Ho)];
        cbn [before_function].
      + split; [intros _; by split|reflexivity].
      + destruct (bool_decide (pyset argv = {[ret]})); cbn [before_function];
          (split; [discriminate|]); intros [_ H]; contradiction.
    - cbn [before_function]. split; [discriminate|]. intros [H _]. contradiction. }
  rewrite <- Haf, <- Hbf, Hi. clear Hi Haf Hbf.
  split; [exact Hs|].
  destruct (some_branch (andThen_branch argc argv ret)),
    (some_branch (compose_branch argc argv ret)),
    (has_predicate_methods argc argv ret),
    (after_function (andThen_branch argc argv ret)),
    (before_function (compose_branch argc argv ret)); cbn [orb];
    (repeat split; [intros i; rewrite elem_of_union|rewrite elem_of_union..]);
    rewrite ?elem_of_singleton, ?elem_of_empty; intuition congruence.
Qed.

(** X8 at a concrete input. *)
Lemma imports_needed_witness :
  ∃ art, body elements one_line 1 ["object"] "byte" = Ok (Some art)
         ∧ static_imports (art_methods art) = ∅
         ∧ "java.util.Objects" ∈ imports (art_methods art)
         ∧ "java.util.function.Function" ∈ imports (art_methods art).
Proof.
  eexists. split; [vm_compute; reflexivity|].
  pose proof (imports_needed elements one_line 1 ["object"] "byte" _ eq_refl)
    as (H1 & _ & H2 & H3).
  split; [exact H1|]. split.
  - apply H2. right. left. vm_compute. reflexivity.
  - apply H3. right. split; [reflexivity|]. apply pyset_single.
Defined.

(** ** Documentation comments *)

Lemma str_length_app (s t : string) :
  String.length (s +:+ t) = String.length s + String.length t.
Proof.
  induction s as [|c s IH]; [reflexivity|].
  change (String c s +:+ t) with (String c (s +:+ t)).
  cbn [String.length]. by rewrite IH.
Qed.

Lemma length_spaces n : String.length (spaces n) = n.
Proof. induction n as [|n IH]; [reflexivity|]. cbn [spaces String.length]. by rewrite IH. Qed.

Lemma str_prefix_app (s t : string) : String.prefix s (s +:+ t) = true.
Proof.
  induction s as [|c s IH]; [by destruct t|].
  change (String c s +:+ t) with (String c (s +:+ t)).
  cbn [String.prefix]. destruct (ascii_dec c c) as [_|Hc]; [exact IH|by destruct Hc].
Qed.

Lemma star_line ind (x : string) : String.prefix (ind +:+ " *") (ind +:+ " * " +:+ x) = true.
Proof.
  change (" * " +:+ x) with (" *" +:+ (" " +:+ x)).
  rewrite <- append_assoc. apply str_prefix_app.
Qed.

Lemma star_only ind : String.prefix (ind +:+ " *") (ind +:+ " *") = true.
Proof.
  replace (ind +:+ " *") with ((ind +:+ " *") +:+ "") at 2; [apply str_prefix_app|].
  generalize (ind +:+ " *"). intros s. induction s as [|c s IH]; [reflexivity|].
  change (String c s +:+ "") with (String c (s +:+ "")). by rewrite IH.
Qed.

Lemma star_close ind : String.prefix (ind +:+ " *") (ind +:+ " */") = true.
Proof.
  change " */" with (" *" +:+ "/"). rewrite <- append_assoc. apply str_prefix_app.
Qed.

Lemma label_lines_star ind label lines :
  Forall (fun l => String.prefix (ind +:+ " *") l = true) (label_lines ind label lines).
Proof.
  destruct lines as [|l ls]; [constructor|]. cbn [label_lines]. constructor.
  - apply star_line.
  - apply Forall_forall. intros x Hx. apply list_elem_of_fmap in Hx as (y & -> & _).
    apply star_line.
Qed.

Lemma param_align_le (parameters : list (string * string)) name desc :
  (name, desc) ∈ parameters → String.length name < param_align parameters.
Proof.
  unfold param_align. induction parameters as [|p ps IH]; [intros H; inversion H|].
  intros [<-|Hp]%elem_of_cons; cbn [map foldr fst]; [lia|].
  specialize (IH Hp). lia.
Qed.

(** X9. Whatever the wrapping of the texts, a documentation comment opens
    with the line of the opening mark at the given indentation, closes with
    the line of the closing mark, and every line after the first starts
    with the indentation, a space and a star. *)
Theorem javadoc_shape wrap description indent authors parameters result :
  let ls := javadoc wrap description indent authors parameters result in
  head ls = Some (spaces indent +:+ "/**")
  ∧ last ls = Some (spaces indent +:+ " */")
  ∧ Forall (fun l => String.prefix (spaces indent +:+ " *") l = true) (tail ls).
Proof.
  unfold javadoc. cbv zeta. generalize (spaces indent) as ind. intros ind.
  split; [reflexivity|]. split.
  - rewrite !app_assoc. apply last_snoc.
  - cbn [app tail]. repeat apply Forall_app_2.
    + apply Forall_forall. intros x Hx. apply list_elem_of_fmap in Hx as (y & -> & _).
      apply star_line.
    + destruct (bool_decide (authors = [])); [constructor|]. constructor; [apply star_only|].
      apply Forall_forall. intros x Hx. apply list_elem_of_fmap in Hx as (y & -> & _).
      apply star_line.
    + destruct (bool_decide (parameters = [])); [constructor|]. constructor; [apply star_only|].
      apply Forall_forall. intros x Hx. apply list_elem_of_In, in_flat_map in Hx
        as ([n dsc] & _ & Hx). apply list_elem_of_In in Hx.
      eapply Forall_forall in Hx; [exact Hx|apply label_lines_star].
    + destruct (String.eqb (default "" result) ""); [constructor|].
      constructor; [apply star_only|apply label_lines_star].
    + constructor; [apply star_close|constructor].
Qed.

(** X10. When the description of a parameter wraps to a first line and
    further lines, the documentation comment holds them in one block: the
    first line behind the name of the parameter, which is padded with
    blanks to the common width, and every further line behind as many
    blanks as that label is long; so the descriptions of all the parameters
    start in the same column. *)
Theorem javadoc_params_aligned wrap description indent authors parameters result
    name desc line lines :
  (name, desc) ∈ parameters →
  wrap desc (80 - 3 - Z.of_nat indent - 7 - Z.of_nat (param_align parameters))%Z
  = line :: lines →
  String.length (name +:+ spaces (param_align parameters - String.length name))
  = param_align parameters
  ∧ ∃ before after,
      javadoc wrap description indent authors parameters result
      = before
        ++ (spaces indent +:+ " * "
            +:+ ("@param " +:+ name +:+ spaces (param_align parameters - String.length name))
            +:+ line)
           :: map (fun l => spaces indent +:+ " * "
                            +:+ spaces (7 + param_align parameters) +:+ l) lines
        ++ after.
Proof.
  intros Hp Hl. pose proof (param_align_le _ _ _ Hp) as Hle.
  assert (Hlen : String.length
                   ("@param " +:+ name +:+ spaces (param_align parameters - String.length name))
                 = 7 + param_align parameters).
  { rewrite !str_length_app, length_spaces. cbn [String.length]. lia. }
  split.
  { rewrite str_length_app, length_spaces. lia. }
  unfold javadoc. cbv zeta.
  assert (Hne : parameters ≠ []) by (intros ->; inversion Hp).
  rewrite (bool_decide_eq_false_2 _ Hne).
  change (1 + foldr Nat.max 0 (map (fun p : string * string => String.length p.1) parameters))
    with (param_align parameters).
  generalize (param_align parameters) Hl Hlen. intros al Hl' Hlen'.
  apply list_elem_of_split in Hp as (ps1 & ps2 & ->).
  rewrite flat_map_app. cbn [flat_map]. rewrite Hl'. cbn [label_lines].
  rewrite Hlen'.
  match goal with |- context [flat_map ?f ps1] => set (P1 := flat_map f ps1) end.
  match goal with |- context [flat_map ?f ps2] => set (P2 := flat_map f ps2) end.
  match goal with |- context [map ?f (wrap description ?w)] =>
    set (Dl := map f (wrap description w)) end.
  match goal with |- context [if bool_decide (authors = []) then ?x else ?y] =>
    set (A := if bool_decide (authors = []) then x else y) end.
  match goal with |- context [if String.eqb ?r "" then ?x else ?y] =>
    set (R := if String.eqb r "" then x else y) end.
  exists ([spaces indent +:+ "/**"] ++ Dl ++ A ++ (spaces indent +:+ " *") :: P1),
    (P2 ++ R ++ [spaces indent +:+ " */"]).
  clearbody P1 P2 Dl A R.
  repeat first [rewrite <- app_assoc | rewrite <- app_comm_cons]. reflexivity.
Qed.

(** X10 at a concrete input. *)
Lemma javadoc_params_aligned_witness :
  String.length ("x" +:+ spaces (param_align [("left", "The first."); ("x", "The second.")]
                                 - String.length "x"))
  = param_align [("left", "The first."); ("x", "The second.")]
  ∧ ∃ before after,
      javadoc (fun s _ => [s; "Continued."]) "Adds." 4 []
        [("left", "The first."); ("x", "The second.")] None
      = before
        ++ (spaces 4 +:+ " * "
            +:+ ("@param " +:+ "x"
                 +:+ spaces (param_align [("left", "The first."); ("x", "The second.")]
                             - String.length "x"))
            +:+ "The second.")
           :: map (fun l => spaces 4 +:+ " * "
                            +:+ spaces (7 + param_align [("left", "The first.");
                                                         ("x", "The second.")]) +:+ l)
                ["Continued."]
        ++ after.
Proof.
  apply (javadoc_params_aligned (fun s _ => [s; "Continued."]) "Adds." 4 []
           [("left", "The first."); ("x", "The second.")] None "x" "The second.").
  - apply elem_of_cons. right. apply elem_of_cons. by left.
  - reflexivity.
Defined.

Lemma replace_dollar_app r s t :
  replace_dollar r (s +:+ t) = replace_dollar r s +:+ replace_dollar r t.
Proof.
  induction s as [|c s IH]; [reflexivity|].
  change (String c s +:+ t) with (String c (s +:+ t)).
  cbn [replace_dollar]. rewrite IH.
  destruct (Ascii.eqb c "$"); [by rewrite append_assoc|reflexivity].
Qed.

Lemma replace_dollar_none r s : has_char "$" s = false → replace_dollar r s = s.
Proof.
  induction s as [|c s IH]; [reflexivity|].
  cbn [has_char replace_dollar]. intros [Hc Hs]%orb_false_iff.
  rewrite Hc, (IH Hs). reflexivity.
Qed.

(** X11. The return statement of a lambda whose parameters and body hold
    no dollar sign: the placeholder between the arrow and the body becomes
    one space, or a line break and twelve spaces when the lambda with its
    placeholder is longer than 64 characters; nothing else changes. *)
Theorem return_line_placeholder par body :
  has_char "$" par = false →
  has_char "$" body = false →
  return_line (par +:+ " ->$" +:+ body)
  = "        return " +:+ par +:+ " ->"
    +:+ (if 64 <? String.length par + 4 + String.length body
         then nl +:+ spaces 12 else " ")
    +:+ body +:+ ";".
Proof.
  intros Hp Hb. unfold return_line.
  rewrite !str_length_app. change (String.length " ->$") with 4. rewrite Nat.add_assoc.
  generalize (if 64 <? String.length par + 4 + String.length body
              then nl +:+ spaces 12 else " ") as sep. intros sep.
  rewrite !replace_dollar_app, (replace_dollar_none _ par Hp),
    (replace_dollar_none _ body Hb).
  change (replace_dollar sep "        return ") with "        return ".
  change (replace_dollar sep ";") with ";".
  change (replace_dollar sep " ->$") with (" ->" +:+ sep +:+ "").
  rewrite !append_assoc. reflexivity.
Qed.

(** X11 at a concrete input. *)
Lemma return_line_placeholder_witness :
  return_line ("x" +:+ " ->$" +:+ "!x") = "        return x -> !x;".
Proof. apply (return_line_placeholder "x" "!x"); reflexivity. Defined.

(** ** The expanded argument list *)

Lemma a_loop_names op a numbered typ ns e acc r :
  a_loop op a numbered typ ns e acc = Ok r →
  map a_name r
  = map a_name acc
    ++ flat_map (fun n => loop_names (is_array a) (if numbered then str_of_nat n else "")) ns
  ∧ map a_abbr r
    = map a_abbr acc
      ++ flat_map (fun n => loop_abbrs (is_array a) (if numbered then str_of_nat n else "")) ns.
Proof.
  revert e acc. induction ns as [|n ns IH]; intros e acc H.
  - injection H as <-. cbn [flat_map]. by rewrite !app_nil_r.
  - cbn [a_loop] in H. cbv zeta in H. inv_bind H.
    destruct (is_array a) eqn:Ea.
    + inv_bind H. destruct a1 as [ty e']. apply IH in H as [H1 H2].
      rewrite H1, H2, !map_app. cbn [map flat_map loop_names loop_abbrs a_name a_abbr].
      rewrite <- !app_assoc. split; reflexivity.
    + inv_bind H. destruct a1 as [ty e']. apply IH in H as [H1 H2].
      rewrite H1, H2, !map_app. cbn [map flat_map loop_names loop_abbrs a_name a_abbr].
      rewrite <- !app_assoc. split; reflexivity.
Qed.

Lemma count_if_all_false {A} (p : A → bool) l :
  (∀ x, x ∈ l → p x = false) → count_if p l = 0.
Proof.
  unfold count_if. induction l as [|x l IH]; [reflexivity|]. intros H.
  cbn [List.filter]. rewrite (H x) by (by left). apply IH. intros y Hy. apply H. by right.
Qed.

Lemma count_if_all_true {A} (p : A → bool) l :
  (∀ x, x ∈ l → p x = true) → count_if p l = length l.
Proof.
  unfold count_if. induction l as [|x l IH]; [reflexivity|]. intros H.
  cbn [List.filter]. rewrite (H x) by (by left). cbn [length]. f_equal.
  apply IH. intros y Hy. apply H. by right.
Qed.

Lemma any_array_false argv x : any_array argv = false → x ∈ argv → is_array x = false.
Proof.
  unfold any_array. intros H Hx. destruct (is_array x) eqn:E; [|reflexivity].
  rewrite <- H. symmetry. apply existsb_exists. exists x. split; [by apply list_elem_of_In|exact E].
Qed.

Lemma unpack1_elem si X a : iteration_order si → unpack1 (si X) = Ok a → a ∈ X.
Proof.
  intros Hsi H. specialize (Hsi X).
  destruct (si X) as [|b [|c l]]; try discriminate. injection H as ->.
  apply elem_of_elements. rewrite <- Hsi. by left.
Qed.

Lemma get_a_list_spec si d argc argv ret a_list :
  iteration_order si →
  length argv = argc →
  argc ≤ 4 →
  get_a_list si d argc argv ret = Ok a_list →
  length a_list = argc + 2 * count_if is_array argv
  ∧ all_distinct (map a_name a_list) = true
  ∧ all_distinct (map a_abbr a_list) = true.
Proof.
  intros Hsi Hlen Hle H. unfold get_a_list in H. cbv zeta in H.
  destruct (Nat.eqb_spec argc 0) as [E0|E0].
  { injection H as <-. subst argc. destruct argv; [|discriminate]. by repeat split. }
  destruct (decide (pyset argv = {["object"]})) as [Ho|Ho];
    [rewrite (bool_decide_eq_true_2 _ Ho) in H|rewrite (bool_decide_eq_false_2 _ Ho) in H].
  { rewrite count_if_all_false.
    2:{ intros x Hx. by rewrite (pyset_singleton_all _ _ Ho x Hx). }
    clear Hlen Ho. destruct argc as [|[|[|[|[|?]]]]]; try lia;
      vm_compute in H; injection H as <-; by repeat split. }
  destruct (bool_decide (argc ∈ [1; 2]) && (size (pyset argv) =? 1) && negb (any_array argv))
    eqn:Hhom.
  { apply andb_true_iff in Hhom as [_ Hna]. apply negb_true_iff in Hna.
    rewrite count_if_all_false by (intros x Hx; by apply (any_array_false argv)).
    destruct (Nat.eqb_spec argc 1) as [E1|E1].
    - inv_bind H. injection H as <-. rewrite E1.
      repeat split; cbn [map a_name a_abbr all_distinct str_in existsb negb andb]; reflexivity.
    - destruct (Nat.eqb_spec argc 2) as [E2|E2]; [|discriminate].
      cbn [assert mbind result_bind] in H. do 4 inv_bind H. injection H as <-. rewrite E2.
      by repeat split. }
  clear Hhom. inv_bind H. destruct (String.eqb_spec a "object") as [Ea|Ea].
  - destruct (Nat.eqb_spec argc 2) as [E2|E2]; [|discriminate].
    cbn [assert mbind result_bind] in H. inv_bind H.
    destruct (String.eqb_spec a0 "object") as [Ea0|Ea0]; [discriminate|].
    cbn [negb assert mbind result_bind] in H. inv_bind H.
    subst argc. destruct argv as [|x [|y [|z l]]]; try discriminate.
    injection Ha as ->. injection Ha0 as ->. subst a.
    apply a_loop_names in H as [Hn Hb].
    assert (Hl : length a_list = length (map a_name a_list)) by (by rewrite length_map).
    rewrite Hl, Hn, Hb. unfold count_if. cbn [List.filter].
    change (is_array "object") with false. cbv iota.
    destruct (is_array a0); repeat split; vm_compute; reflexivity.
  - destruct (size (pyset argv) =? 1) eqn:Es; [|discriminate]. apply Nat.eqb_eq in Es.
    cbn [assert mbind result_bind] in H. inv_bind H. rename a into a0', a0 into a.
    apply (unpack1_elem _ _ _ Hsi), elem_of_pyset in Ha0.
    pose proof (pyset_singleton_all _ _ (size_pyset_one _ _ Es Ha0)) as Hall.
    apply a_loop_names in H as [Hn Hb].
    assert (Hl : length a_list = length (map a_name a_list)) by (by rewrite length_map).
    rewrite Hl, Hn, Hb. clear Hl Hn Hb.
    destruct (is_array a) eqn:Earr.
    + rewrite count_if_all_true by (intros x Hx; by rewrite (Hall x Hx)).
      rewrite Hlen. clear -Hle E0.
      destruct argc as [|[|[|[|[|?]]]]]; try lia; repeat split; vm_compute; reflexivity.
    + rewrite count_if_all_false by (intros x Hx; by rewrite (Hall x Hx)).
      clear -Hle E0.
      destruct argc as [|[|[|[|[|?]]]]]; try lia; repeat split; vm_compute; reflexivity.
Qed.

(** X12. The expanded argument list of at most four arguments has one
    entry for every argument and two more, the start and the end index, for
    every array segment. *)
Theorem argument_list_length si d argc argv ret a_list :
  iteration_order si →
  length argv = argc →
  argc ≤ 4 →
  get_a_list si d argc argv ret = Ok a_list →
  length a_list = argc + 2 * count_if is_array argv.
Proof.
  intros Hsi Hlen Hle H. by destruct (get_a_list_spec _ _ _ _ _ _ Hsi Hlen Hle H) as (? & _).
Qed.

(** X12 at a concrete input. *)
Lemma argument_list_length_witness :
  ∃ a_list,
    get_a_list elements (get_docvars 2 ["object"; "int[]"] "int") 2 ["object"; "int[]"] "int"
    = Ok a_list
    ∧ length a_list = 2 + 2 * count_if is_array ["object"; "int[]"].
Proof.
  eexists. split; [vm_compute; reflexivity|].
  apply (argument_list_length elements (get_docvars 2 ["object"; "int[]"] "int")
           2 ["object"; "int[]"] "int").
  - intros X. reflexivity.
  - reflexivity.
  - lia.
  - vm_compute. reflexivity.
Defined.

(** X13. In the expanded argument list of at most four arguments the names
    are pairwise distinct, and so are the abbreviated names: the parameters
    of the generated method and of its lambdas never clash. *)
Theorem argument_names_distinct si d argc argv ret a_list :
  iteration_order si →
  length argv = argc →
  argc ≤ 4 →
  get_a_list si d argc argv ret = Ok a_list →
  NoDup (map a_name a_list) ∧ NoDup (map a_abbr a_list).
Proof.
  intros Hsi Hlen Hle H.
  destruct (get_a_list_spec _ _ _ _ _ _ Hsi Hlen Hle H) as (_ & Hn & Ha).
  split; by apply all_distinct_NoDup.
Qed.

(** X13 at a concrete input. *)
Lemma argument_names_distinct_witness :
  ∃ a_list,
    get_a_list elements (get_docvars 2 ["byte"; "byte"] "byte") 2 ["byte"; "byte"] "byte"
    = Ok a_list
    ∧ map a_name a_list = ["left"; "right"]
    ∧ NoDup (map a_name a_list) ∧ NoDup (map a_abbr a_list).
Proof.
  eexists. split; [vm_compute; reflexivity|]. split; [reflexivity|].
  apply (argument_names_distinct elements (get_docvars 2 ["byte"; "byte"] "byte")
           2 ["byte"; "byte"] "byte").
  - intros X. reflexivity.
  - reflexivity.
  - lia.
  - vm_compute. reflexivity.
Defined.

(** ** The generic parameters *)

Lemma type_parameter_names_distinct :
  NoDup (drop 1 in_params ++ drop 1 elem_params ++ drop 1 out_params).
Proof. apply (bool_decide_unpack _). vm_compute. reflexivity. Qed.

(** X14. When at most four arguments are objects and at most four are
    object arrays, the generic parameter list is defined; it names the
    object arguments T, U, V, W in order, then the array element types
    E, F, G, H, then the result type R when the return type is object; the
    names are pairwise distinct, and both texts of the parameter list, the
    plain one and the one with wildcards, are defined. *)
Theorem type_parameters d argc argv ret :
  count_if (fun a => String.eqb a "object") argv ≤ 4 →
  count_if (fun a => String.eqb a "object[]") argv ≤ 4 →
  ∃ p_list,
    get_p_list d argc argv ret = Ok p_list
    ∧ p_list.*1
      = take (count_if (fun a => String.eqb a "object") argv) (drop 1 in_params)
        ++ take (count_if (fun a => String.eqb a "object[]") argv) (drop 1 elem_params)
        ++ take (if String.eqb ret "object" then 1 else 0) (drop 1 out_params)
    ∧ NoDup p_list.*1
    ∧ is_ok (p_text p_list) = true
    ∧ is_ok (var_p_text p_list) = true.
Proof.
  unfold get_p_list. cbv zeta.
  generalize (count_if (fun a => String.eqb a "object") argv) as n1.
  generalize (count_if (fun a => String.eqb a "object[]") argv) as n2.
  generalize (String.eqb ret "object") as b.
  intros b n2 n1 H1 H2.
  assert (Hnd : ∀ p_list : list (pyval * string),
            p_list.*1 = take n1 (drop 1 in_params) ++ take n2 (drop 1 elem_params)
                        ++ take (if b then 1 else 0) (drop 1 out_params) →
            NoDup p_list.*1).
  { intros p_list ->. eapply sublist_NoDup; [exact type_parameter_names_distinct|].
    repeat apply sublist_app; apply sublist_take. }
  destruct n1 as [|[|[|[|[|?]]]]]; try lia; destruct n2 as [|[|[|[|[|?]]]]]; try lia;
    destruct b; (eexists; split; [vm_compute; reflexivity|]);
    (split; [reflexivity|]); (split; [by apply Hnd|]); split; vm_compute; reflexivity.
Qed.

(** X14 at a concrete input. *)
Lemma type_parameters_witness :
  ∃ p_list,
    get_p_list (get_docvars 2 ["object"; "object[]"] "object") 2 ["object"; "object[]"] "object"
    = Ok p_list
    ∧ p_list.*1 = [Some "T"; Some "E"; Some "R"]
    ∧ NoDup p_list.*1.
Proof.
  destruct (type_parameters (get_docvars 2 ["object"; "object[]"] "object")
              2 ["object"; "object[]"] "object") as (p_list & Hp & Hn & Hd & _).
  - vm_compute. lia.
  - vm_compute. lia.
  - exists p_list. split; [exact Hp|]. split; [exact Hn|exact Hd].
Defined.

Lemma get_p_list_spec d argc argv ret p_list :
  get_p_list d argc argv ret = Ok p_list →
  p_list.*1
  = take (count_if (fun a => String.eqb a "object") argv) (drop 1 in_params)
    ++ take (count_if (fun a => String.eqb a "object[]") argv) (drop 1 elem_params)
    ++ take (if String.eqb ret "object" then 1 else 0) (drop 1 out_params)
  ∧ Forall (fun p => is_Some p) p_list.*1
  ∧ is_ok (p_text p_list) = true
  ∧ is_ok (var_p_text p_list) = true.
Proof.
  unfold get_p_list. cbv zeta.
  generalize (count_if (fun a => String.eqb a "object") argv) as n1.
  generalize (count_if (fun a => String.eqb a "object[]") argv) as n2.
  generalize (String.eqb ret "object") as b.
  intros b n2 n1 H.
  destruct n1 as [|[|[|[|[|?]]]]]; destruct n2 as [|[|[|[|[|?]]]]]; destruct b;
    vm_compute in H; try discriminate; injection H as <-;
    (split; [reflexivity|]); (split; [repeat constructor; by eexists|]);
    split; vm_compute; reflexivity.
Qed.

Lemma str_join_ok sep l : Forall (fun p : pyval => is_Some p) l → is_ok (str_join sep l) = true.
Proof.
  induction l as [|p l IH]; [reflexivity|]. intros H.
  inversion H as [|? ? [s ->] Hl]; subst. specialize (IH Hl).
  cbn [str_join]. destruct l as [|q l]; [reflexivity|].
  destruct (str_join sep (q :: l)); [reflexivity|discriminate].
Qed.

Lemma renamed_ok (p_list : list (pyval * string)) (o1 o2 : pyval) :
  Forall (fun p => is_Some p) p_list.*1 → is_Some o2 →
  is_ok (str_join ", "
           (map (fun '(p, _) => if negb (bool_decide (p = o1)) then p else o2) p_list)) = true.
Proof.
  intros H Ho. apply str_join_ok. induction p_list as [|[p x] l IH]; [constructor|].
  inversion H as [|? ? Hp Hl]; subst. cbn [map]. constructor; [|by apply IH].
  destruct (negb (bool_decide (p = o1))); assumption.
Qed.

(** X15. With the generic parameter list of the signature, the generation
    of the methods never fails: the parameter that andThen and compose
    rename is in the list, no operator returns an object, and every text
    of the parameter list is defined. *)
Theorem gen_methods_defined wrap argc argv ret name mthd d p_list a_list :
  length argv = argc →
  get_p_list d argc argv ret = Ok p_list →
  is_ok (gen_methods wrap argc argv ret name mthd d p_list a_list) = true.
Proof.
  intros Hlen Hp. apply get_p_list_spec in Hp as (Hn & Hs & Hpt & Hvpt).
  unfold gen_methods. cbv zeta.
  assert (H1 : ∀ m, ∃ m', add_mthd wrap argc argv ret mthd d a_list m = Ok m').
  { intros m. unfold add_mthd. cbv zeta.
    destruct (String.eqb ret "object"); cbn [getitem out_params lookup list_lookup
      mbind result_bind]; destruct (0 <? argc); eexists; reflexivity. }
  assert (H2 : ∀ m, ∃ m', add_identity wrap argc argv ret name d a_list m = Ok m').
  { intros m. unfold add_identity. destruct (has_identity argc argv ret); eexists; reflexivity. }
  assert (H3 : ∀ m, ∃ m', add_static_negated wrap argc argv ret name d a_list m = Ok m').
  { intros m. unfold add_static_negated.
    destruct (has_static_negated argc argv ret); eexists; reflexivity. }
  assert (H4 : ∀ pt vpt m,
            ∃ m', add_andThen wrap argc argv ret name mthd d p_list a_list pt vpt m = Ok m').
  { intros pt vpt m. unfold add_andThen, andThen_branch.
    destruct (String.eqb ret "void"); [eexists; reflexivity|].
    destruct (String.eqb ret "object") eqn:Eo.
    - change (getitem out_params 1) with (Ok (Some "R") : result pyval).
      change (getitem out_params 2) with (Ok (Some "S") : result pyval).
      cbn [mbind result_bind].
      change (map fst p_list) with (p_list.*1).
      rewrite bool_decide_eq_true_2.
      2:{ rewrite Hn. apply elem_of_app. right. apply elem_of_app. right. by left. }
      cbn [assert mbind result_bind].
      destruct (is_ok_true _ (renamed_ok p_list (Some "R") (Some "S") Hs (mk_is_Some _ _ eq_refl)))
        as (j & ->).
      cbn [mbind result_bind]. destruct (argc =? 0); eexists; reflexivity.
    - destruct ((argc =? 1) && bool_decide (pyset argv = {[ret]})); [|eexists; reflexivity].
      cbn [negb assert mbind result_bind]. eexists; reflexivity. }
  assert (H5 : ∀ m, ∃ m', add_compose wrap argc argv ret name mthd d p_list a_list m = Ok m').
  { intros m. unfold add_compose, compose_branch.
    destruct (Nat.eqb_spec argc 1) as [E1|E1]; cbn [andb]; [|eexists; reflexivity].
    destruct (decide (pyset argv = {["object"]})) as [Ho|Ho];
      [rewrite (bool_decide_eq_true_2 _ Ho)|rewrite (bool_decide_eq_false_2 _ Ho)].
    - change (getitem in_params 1) with (Ok (Some "T") : result pyval).
      change (getitem in_params 2) with (Ok (Some "U") : result pyval).
      cbn [mbind result_bind].
      change (map fst p_list) with (p_list.*1).
      rewrite bool_decide_eq_true_2.
      2:{ rewrite Hn. apply elem_of_app. left.
          rewrite count_if_all_true, Hlen, E1; [by left|].
          intros x Hx. rewrite (pyset_singleton_all _ _ Ho x Hx). reflexivity. }
      cbn [assert mbind result_bind].
      destruct (is_ok_true _ (renamed_ok p_list (Some "T") (Some "U") Hs (mk_is_Some _ _ eq_refl)))
        as (j & ->).
      cbn [mbind result_bind]. eexists; reflexivity.
    - destruct (decide (pyset argv = {[ret]})) as [Hr|Hr];
        [rewrite (bool_decide_eq_true_2 _ Hr)|rewrite (bool_decide_eq_false_2 _ Hr)];
        [|eexists; reflexivity].
      destruct (String.eqb_spec ret "object") as [Eo|Eo]; [by subst ret|].
      cbn [negb assert mbind result_bind]. eexists; reflexivity. }
  assert (H6 : ∀ pt vpt m,
            ∃ m', add_predicate_methods wrap argc argv ret name mthd d a_list pt vpt m = Ok m').
  { intros pt vpt m. unfold add_predicate_methods.
    destruct (has_predicate_methods argc argv ret); eexists; reflexivity. }
  destruct (H1 {| imports := ∅; static_imports := ∅; static_methods := [];
                  instance_methods := [] |}) as (m1 & ->).
  cbn [mbind result_bind].
  destruct (is_ok_true _ Hpt) as (pt & ->). cbn [mbind result_bind].
  destruct (is_ok_true _ Hvpt) as (vpt & ->). cbn [mbind result_bind].
  destruct (H2 m1) as (m2 & ->). cbn [mbind result_bind].
  destruct (H3 m2) as (m3 & ->). cbn [mbind result_bind].
  destruct (H4 pt vpt m3) as (m4 & ->). cbn [mbind result_bind].
  destruct (H5 m4) as (m5 & ->). cbn [mbind result_bind].
  destruct (H6 pt vpt m5) as (m6 & ->). reflexivity.
Qed.

(** X15 at a concrete input. *)
Lemma gen_methods_defined_witness :
  ∃ p_list,
    get_p_list (get_docvars 1 ["object"] "object") 1 ["object"] "object" = Ok p_list
    ∧ is_ok (gen_methods one_line 1 ["object"] "object" "Transformer" "apply"
               (get_docvars 1 ["object"] "object") p_list []) = true.
Proof.
  eexists. split; [vm_compute; reflexivity|].
  apply gen_methods_defined; [reflexivity|vm_compute; reflexivity].
Defined.

(** ** The wording of the documentation *)


(** ** The file of an interface *)

Lemma join_snoc sep l f : l ≠ [] → join sep [join sep l; f] = join sep (l ++ [f]).
Proof.
  induction l as [|s l IH]; [done|]. intros _.
  destruct l as [|s' l]; [reflexivity|].
  change (join sep ((s :: s' :: l) ++ [f])) with (s +:+ sep +:+ join sep ((s' :: l) ++ [f])).
  rewrite <- IH by done.
  change (join sep [join sep (s :: s' :: l); f])
    with ((s +:+ sep +:+ join sep (s' :: l)) +:+ sep +:+ f).
  change (join sep [join sep (s' :: l); f]) with (join sep (s' :: l) +:+ sep +:+ f).
  by rewrite !append_assoc.
Qed.

Lemma split_dot_go_nonempty cur s : split_dot_go cur s ≠ [].
Proof.
  revert cur. induction s as [|c s IH]; intros cur; [done|].
  cbn [split_dot_go]. destruct (Ascii.eqb c "."); [done|apply IH].
Qed.

Lemma prefix_cancel (a x y : string) :
  String.prefix x y = true → String.prefix (a +:+ x) (a +:+ y) = true.
Proof.
  intros Hxy. induction a as [|c a IH]; [exact Hxy|].
  change (String c a +:+ x) with (String c (a +:+ x)).
  change (String c a +:+ y) with (String c (a +:+ y)).
  cbn [String.prefix]. destruct (ascii_dec c c) as [_|Hc]; [exact IH|by destruct Hc].
Qed.

Lemma file_content_prefix si wrap argc argv ret name d p_list m pt package content :
  file_content si wrap argc argv ret name d p_list m pt package = Ok content →
  String.prefix
    (join nl license_header +:+ nl +:+ "package " +:+ package +:+ ";" +:+ nl +:+ nl)
    content = true.
Proof.
  unfold file_content. cbv zeta. unfold print_to.
  change (join " " [join nl license_header]) with (join nl license_header).
  change (join " " ["package " +:+ package +:+ ";"]) with ("package " +:+ package +:+ ";").
  generalize (join nl license_header) as header. intros header H.
  apply bind_Ok in H as (input & _ & H).
  apply bind_Ok in H as (sm & _ & H).
  apply bind_Ok in H as (im & _ & H).
  injection H as <-.
  rewrite !append_assoc. repeat apply prefix_cancel. apply str_prefix_app.
Qed.

Lemma body_content si wrap argc argv ret art :
  body si wrap argc argv ret = Ok (Some art) →
  ∃ p_list pt,
    file_content si wrap argc argv ret (art_name art) (get_docvars argc argv ret)
      p_list (art_methods art) pt (art_package art) = Ok (art_content art).
Proof.
  unfold body. intros H.
  destruct (ret_skip argc argv ret); [discriminate|].
  apply bind_Ok in H as ([name mthd] & Hn & H).
  destruct (bool_decide (name ∈ built_ins)); [discriminate|].
  cbv zeta in H.
  apply bind_Ok in H as (p_list & Hp & H).
  apply bind_Ok in H as (a_list & Ha & H).
  apply bind_Ok in H as ([m pt] & Hm & H).
  apply bind_Ok in H as (content & Hc & H).
  injection H as <-. cbn [art_name art_methods art_package art_content].
  exists p_list, pt. exact Hc.
Qed.

(** X17. The file of a written interface lies in the directory that its
    package stands for, under the name of the interface, and opens with the
    license header followed by the declaration of that package. *)
Theorem package_matches_directory si wrap argc argv ret art :
  body si wrap argc argv ret = Ok (Some art) →
  art_path art
  = path_join ([base_dir] ++ split_dot (art_package art) ++ [art_name art +:+ ".java"])
  ∧ String.prefix
      (join nl license_header +:+ nl +:+ "package " +:+ art_package art +:+ ";" +:+ nl +:+ nl)
      (art_content art) = true.
Proof.
  intros Hb. split.
  - apply body_inv in Hb as (p_list & a_list & pt & _ & _ & _ & _ & _ & _ & -> & -> & _).
    unfold path_join. rewrite join_snoc by done. by rewrite <- app_assoc.
  - apply body_content in Hb as (p_list & pt & Hc).
    by apply file_content_prefix in Hc.
Qed.

(** X17 at a concrete input. *)
Lemma package_matches_directory_witness :
  ∃ art, body elements one_line 1 ["byte"] "boolean" = Ok (Some art)
         ∧ art_path art
           = "src/main/java/me/dkleszyk/java/function/extra/primitive/BytePredicate.java"
         ∧ art_package art = "me.dkleszyk.java.function.extra.primitive".
Proof.
  eexists. split; [vm_compute; reflexivity|]. split; [|reflexivity].
  etransitivity;
    [eapply (package_matches_directory elements one_line 1 ["byte"] "boolean");
     vm_compute; reflexivity|].
  vm_compute. reflexivity.
Defined.

(** ** The bodies of identity and of the static negated *)

Lemma unary_a_list si d argc argv ret a_list :
  has_identity argc argv ret = true →
  is_array ret = false →
  get_a_list si d argc argv ret = Ok a_list →
  a_text a_list = "x" ∧ par_a_text a_list = "x".
Proof.
  intros (-> & Hro & Ha)%has_identity_iff Hr H.
  unfold get_a_list in H. cbv zeta in H. change (1 =? 0) with false in H. cbv iota in H.
  rewrite Ha in H.
  rewrite bool_decide_eq_false_2 in H.
  2:{ intros E. apply Hro. apply (f_equal (fun X : gset string => bool_decide (ret ∈ X))) in E.
      rewrite bool_decide_eq_true_2 in E by (by apply elem_of_singleton).
      symmetry in E. apply bool_decide_eq_true, elem_of_singleton in E. exact E. }
  rewrite size_singleton in H.
  assert (Hna : any_array argv = false).
  { unfold any_array. destruct (existsb is_array argv) eqn:E; [|reflexivity].
    apply existsb_exists in E as (x & Hx & Hxa). apply list_elem_of_In in Hx.
    rewrite (pyset_singleton_all _ _ Ha x Hx) in Hxa. congruence. }
  rewrite Hna in H.
  rewrite bool_decide_eq_true_2 in H by (by left).
  change (1 =? 1) with true in H. cbn [negb andb] in H.
  inv_bind H. injection H as <-. split; reflexivity.
Qed.

Local Opaque javadoc.

Lemma add_identity_body wrap argc argv ret name d a_list m m' :
  add_identity wrap argc argv ret name d a_list m = Ok m' →
  has_identity argc argv ret = true →
  ∃ doc, dict_get (static_methods m') "identity"
         = Ok (doc ++ ["    static " +:+ name +:+ " identity()"; "    {";
                       return_line (par_a_text a_list +:+ " ->$" +:+ a_text a_list);
                       "    }"]).
Proof.
  unfold add_identity. intros H Hi. rewrite Hi in H. cbv zeta in H. injection H as <-.
  rewrite static_set_static, dict_get_set.
  change (String.eqb "identity" "identity") with true. cbv iota.
  eexists. reflexivity.
Qed.

Lemma add_static_negated_body wrap argc argv ret name d a_list m m' :
  add_static_negated wrap argc argv ret name d a_list m = Ok m' →
  (has_static_negated argc argv ret = true →
   ∃ doc, dict_get (static_methods m') "negated"
          = Ok (doc ++ ["    static " +:+ name +:+ " negated()"; "    {";
                        return_line (par_a_text a_list +:+ " ->$!" +:+ a_text a_list);
                        "    }"]))
  ∧ dict_get (static_methods m') "identity" = dict_get (static_methods m) "identity".
Proof.
  unfold add_static_negated. intros H.
  destruct (has_static_negated argc argv ret); cbv zeta in H; injection H as <-.
  - rewrite static_set_static, !dict_get_set.
    change (String.eqb "negated" "negated") with true.
    change (String.eqb "negated" "identity") with false. cbv iota.
    split; [|reflexivity]. intros _. eexists. reflexivity.
  - split; [discriminate|reflexivity].
Qed.

Local Transparent javadoc.

Lemma gen_methods_static_bodies wrap argc argv ret name mthd d p_list a_list m pt :
  gen_methods wrap argc argv ret name mthd d p_list a_list = Ok (m, pt) →
  (has_identity argc argv ret = true →
   ∃ doc, dict_get (static_methods m) "identity"
          = Ok (doc ++ ["    static " +:+ name +:+ " identity()"; "    {";
                        return_line (par_a_text a_list +:+ " ->$" +:+ a_text a_list);
                        "    }"]))
  ∧ (has_static_negated argc argv ret = true →
     ∃ doc, dict_get (static_methods m) "negated"
            = Ok (doc ++ ["    static " +:+ name +:+ " negated()"; "    {";
                          return_line (par_a_text a_list +:+ " ->$!" +:+ a_text a_list);
                          "    }"])).
Proof.
  unfold gen_methods. cbv zeta. intros H.
  apply bind_Ok in H as (m1 & H1 & H).
  apply bind_Ok in H as (pt' & Hpt & H).
  apply bind_Ok in H as (vpt & Hvpt & H).
  apply bind_Ok in H as (m2 & H2 & H).
  apply bind_Ok in H as (m3 & H3 & H).
  apply bind_Ok in H as (m4 & H4 & H).
  apply bind_Ok in H as (m5 & H5 & H).
  apply bind_Ok in H as (m6 & H6 & H).
  injection H as <- <-.
  apply add_andThen_has in H4 as [S4 _].
  apply add_compose_has in H5 as [S5 _].
  apply add_predicate_methods_has in H6 as [S6 _].
  rewrite S6, S5, S4.
  destruct (add_static_negated_body _ _ _ _ _ _ _ _ _ H3) as [Hneg Hid].
  split; [|exact Hneg].
  intros Hi. rewrite Hid. by apply (add_identity_body _ _ _ _ _ _ _ _ _ H2).
Qed.

(** X18. The static method identity of a written interface returns the
    lambda that hands back its argument, and the static method negated the
    lambda that hands back the negation of its argument. *)
Theorem identity_returns_argument si wrap argc argv ret art :
  body si wrap argc argv ret = Ok (Some art) →
  (has_static_method art "identity" = true →
   ∃ doc, dict_get (static_methods (art_methods art)) "identity"
          = Ok (doc ++ ["    static " +:+ art_name art +:+ " identity()"; "    {";
                        "        return x -> x;"; "    }"]))
  ∧ (has_static_method art "negated" = true →
     ∃ doc, dict_get (static_methods (art_methods art)) "negated"
            = Ok (doc ++ ["    static " +:+ art_name art +:+ " negated()"; "    {";
                          "        return x -> !x;"; "    }"])).
Proof.
  intros Hb. rewrite (has_identity_key _ _ _ _ _ _ Hb), (has_static_negated_key _ _ _ _ _ _ Hb).
  pose proof (body_passes_ret_filter _ _ _ _ _ _ Hb) as Hr.
  assert (Hra : is_array ret = false).
  { unfold ret_skip in Hr. by destruct (is_array ret). }
  apply body_inv in Hb as (p_list & a_list & pt & _ & _ & _ & _ & Ha & Hg & _).
  apply gen_methods_static_bodies in Hg as [Hid Hneg].
  assert (Hin : has_static_negated argc argv ret = true → has_identity argc argv ret = true).
  { intros (H1 & H2 & H3)%has_static_negated_iff. apply has_identity_iff.
    subst ret. by repeat split. }
  split.
  - intros Hi. destruct (unary_a_list _ _ _ _ _ _ Hi Hra Ha) as [Hat Hpt].
    rewrite Hat, Hpt in Hid. exact (Hid Hi).
  - intros Hn. destruct (unary_a_list _ _ _ _ _ _ (Hin Hn) Hra Ha) as [Hat Hpt].
    rewrite Hat, Hpt in Hneg. exact (Hneg Hn).
Qed.

(** X18 at a concrete input. *)
Lemma identity_returns_argument_witness :
  ∃ art doc,
    body elements one_line 1 ["boolean"] "boolean" = Ok (Some art)
    ∧ dict_get (static_methods (art_methods art)) "negated"
      = Ok (doc ++ ["    static BooleanUnaryOperator negated()"; "    {";
                    "        return x -> !x;"; "    }"]).
Proof.
  destruct (body elements one_line 1 ["boolean"] "boolean") as [[art|]|] eqn:E;
    [|vm_compute in E; discriminate..].
  pose proof (identity_returns_argument elements one_line 1 ["boolean"] "boolean" art E)
    as [_ H].
  destruct H as (doc & Hd).
  - vm_compute in E. injection E as <-. vm_compute. reflexivity.
  - exists art, doc. split; [reflexivity|]. rewrite Hd.
    vm_compute in E. injection E as <-. reflexivity.
Defined.
